(** * IoT sensor reliability tracker: the statistical and queueing engine

    A shallow embedding of the four numerical implementations of the
    repository,

    - [Cpp]      reliability_engine.cpp  (classes ExponentialModel, ErlangModel,
                 QueueingModel, FleetReliabilityManager),
    - [Fortran]  reliability_compute.f90 (program iot_reliability_tracker),
    - [Haskell]  ReliabilityModels.hs,
    - [RLang]    reliability_analysis.R  (mmc_queue_metrics, the counts of
                 analyze_sensor_network, analyze_cascade_risk),

    and of the counters and colours of the dashboard ([Dashboard],
    iot_tracker_interface.tsx), followed by the properties of the
    specification that were checked against them and by further properties
    of the engine.

    ** Numbers

    Every implementation computes on IEEE-754 binary64 values ([double],
    [real(dp)], [Double], R numerics).  The code is written once, over the
    interface [Double], and read at two instances:

    - [Exact]: the real numbers [R] with the exponential of the standard
      library.  This is the arithmetic the formulas of the specification
      are written in; rounding is not modelled.  General statements about
      the survival functions and the queue are proved here.
    - [binary64]: Rocq's primitive floats, which are binary64 with
      round-to-nearest-even, NaN and infinities.  Sums, products,
      quotients, comparisons and the conversions from and to integers are
      the hardware operations, so a concrete run is evaluated bit for bit.
      [exp] and [pow] belong to the platform's math library and are
      parameters ([binary64_libm]); nothing evaluated at [binary64] calls
      them.

    Integers ([int], [Int], [integer], container sizes) are [Z]; no count
    in this program approaches the machine limits. *)

From Stdlib Require Import ZArith List String Bool Lia Sorted Permutation.
From Stdlib Require Import Reals Lra.
From Stdlib Require Import Floats.PrimFloat Floats.FloatOps Floats.SpecFloat.
From Stdlib Require Import Floats.FloatAxioms.
From Stdlib Require Import Uint63 DecimalString.
Import ListNotations.

Set Implicit Arguments.

(** ** The interface of double precision numbers *)

Class Double (D : Type) : Type := {
  dadd : D -> D -> D;
  dsub : D -> D -> D;
  dmul : D -> D -> D;
  ddiv : D -> D -> D;
  dneg : D -> D;
  dltb : D -> D -> bool;
  dleb : D -> D -> bool;
  (** conversion of an integer: [static_cast<double>], [fromIntegral],
      [real(i, dp)] and the implicit promotions *)
  of_int : Z -> D;
  (** conversion towards zero: [static_cast<int>] and Fortran's [int] *)
  truncate : D -> Z;
  (** conversion to the nearest integer, ties to even: Haskell's and R's
      [round] *)
  round : D -> Z
}.

(** The functions of the language's math library the program calls. *)
Class Libm (D : Type) : Type := {
  (** [exp] *)
  dexp : D -> D;
  (** [std::pow], Haskell's power operator and Fortran's [**]: the program only
      ever raises to an integer-valued exponent *)
  dpow : D -> Z -> D
}.

Declare Scope double_scope.
Delimit Scope double_scope with D.
Notation "x + y" := (dadd x y) : double_scope.
Notation "x - y" := (dsub x y) : double_scope.
Notation "x * y" := (dmul x y) : double_scope.
Notation "x / y" := (ddiv x y) : double_scope.
Notation "- x" := (dneg x) : double_scope.
Notation "x <? y" := (dltb x y) : double_scope.
Notation "x <=? y" := (dleb x y) : double_scope.
Notation "x >? y" := (dltb y x) : double_scope.
Notation "x >=? y" := (dleb y x) : double_scope.

(** Decimal literals of the sources.  A literal with one or two decimals is
    the quotient of two small integers; at [binary64] the correctly rounded
    quotient is the double the compiler reads the literal as (see
    [binary64_literals] below). *)
Definition tenths {D : Type} {num : Double D} (m : Z) : D := (of_int m / of_int 10)%D.
Definition hundredths {D : Type} {num : Double D} (m : Z) : D := (of_int m / of_int 100)%D.

(** *** Exact arithmetic *)

Definition Rltb (x y : R) : bool := if Rlt_dec x y then true else false.
Definition Rleb (x y : R) : bool := if Rle_dec x y then true else false.

Definition Rtruncate (x : R) : Z :=
  if Rle_dec 0 x then Zfloor x else Zceil x.

Definition Rround_even (x : R) : Z :=
  let f := Zfloor x in
  let r := (x - IZR f)%R in
  if Rlt_dec r (1 / 2) then f
  else if Rlt_dec (1 / 2) r then (f + 1)%Z
  else if Z.even f then f else (f + 1)%Z.

#[export] Instance Exact : Double R := {
  dadd := Rplus;
  dsub := Rminus;
  dmul := Rmult;
  ddiv := Rdiv;
  dneg := Ropp;
  dltb := Rltb;
  dleb := Rleb;
  of_int := IZR;
  truncate := Rtruncate;
  round := Rround_even
}.

#[export] Instance ExactLibm : Libm R := {
  dexp := exp;
  dpow := powerRZ
}.

(** *** IEEE-754 binary64 *)

Definition float_of_Z (z : Z) : float :=
  match z with
  | Z0 => PrimFloat.zero
  | Zpos p => PrimFloat.of_uint63 (Uint63.of_pos p)
  | Zneg p => PrimFloat.opp (PrimFloat.of_uint63 (Uint63.of_pos p))
  end.

(** The integer part of a double, towards zero.  The sources convert only
    finite values in the range of [int]; the conversion of NaN and of the
    infinities is undefined in C++ and is given [0] here. *)
Definition float_truncate (x : float) : Z :=
  match Prim2SF x with
  | S754_zero _ => 0%Z
  | S754_finite s m e =>
      let a := match e with
               | Zneg p => (Zpos m / 2 ^ Zpos p)%Z
               | _ => (Zpos m * 2 ^ e)%Z
               end in
      if s then (- a)%Z else a
  | S754_infinity _ | S754_nan => 0%Z
  end.

(** The nearest integer, a tie going to the even neighbour. *)
Definition float_round_even (x : float) : Z :=
  match Prim2SF x with
  | S754_zero _ => 0%Z
  | S754_finite s m e =>
      let a := match e with
               | Zneg p =>
                   let q := (Zpos m / 2 ^ Zpos p)%Z in
                   let r := (2 * (Zpos m mod 2 ^ Zpos p))%Z in
                   let h := (2 ^ Zpos p)%Z in
                   if (r <? h)%Z then q
                   else if (h <? r)%Z then (q + 1)%Z
                   else if Z.even q then q else (q + 1)%Z
               | _ => (Zpos m * 2 ^ e)%Z
               end in
      if s then (- a)%Z else a
  | S754_infinity _ | S754_nan => 0%Z
  end.

#[export] Instance binary64 : Double float := {
  dadd := PrimFloat.add;
  dsub := PrimFloat.sub;
  dmul := PrimFloat.mul;
  ddiv := PrimFloat.div;
  dneg := PrimFloat.opp;
  dltb := PrimFloat.ltb;
  dleb := PrimFloat.leb;
  of_int := float_of_Z;
  truncate := float_truncate;
  round := float_round_even
}.

(** [exp] and [pow] are not operations of the format but functions of the
    platform's math library: they are arguments of this instance. *)
Definition binary64_libm (libm_exp : float -> float)
    (libm_pow : float -> float -> float) : Libm float := {|
  dexp := libm_exp;
  dpow := fun x n => libm_pow x (float_of_Z n)
|}.

(** ** Counted loops

    [for_range lo hi body s] runs [body i] for [i = lo, lo+1, ..., hi-1] on
    the state [s]: the C++ loop [for (i = lo; i < hi; ++i)].  It does
    nothing when [hi <= lo].  [do_range lo hi] is the Fortran loop
    [do i = lo, hi], which includes [hi]. *)

Fixpoint iterate_from {St : Type} (n : nat) (i : Z) (body : Z -> St -> St) (s : St) : St :=
  match n with
  | O => s
  | Datatypes.S n' => iterate_from n' (i + 1) body (body i s)
  end.

Definition for_range {St : Type} (lo hi : Z) (body : Z -> St -> St) (s : St) : St :=
  iterate_from (Z.to_nat (hi - lo)) lo body s.

Definition do_range {St : Type} (lo hi : Z) (body : Z -> St -> St) (s : St) : St :=
  for_range lo (hi + 1) body s.

(** ** Sensor records

    [class Sensor] of the C++ engine and [data Sensor] of the Haskell module
    have the same fields; the R data frame has one such row per sensor. *)

Inductive SensorType : Type := TRAFFIC | AIR_QUALITY | WATER_FLOW.

Record Location (D : Type) : Type := mkLocation { locX : D; locY : D; locZ : D }.

Record Sensor (D : Type) : Type := mkSensor {
  sensorId : string;
  sensorType : SensorType;
  location : Location D;
  health : D;
  uptimeHours : D;
  failureRate : D;
  kStages : Z;
  queuePosition : Z
}.

(** ** The C++ engine (reliability_engine.cpp) *)

Module Cpp.

(** [class ExponentialModel] *)
Module ExponentialModel.
Section Model.
Context {D : Type} {num : Double D} {libm : Libm D}.

Record t : Type := make { lambda : D }.

Definition reliability (m : t) (time : D) : D :=
  dexp (- lambda m * time)%D.

Definition hazardRate (m : t) : D := lambda m.

Definition mtbf (m : t) : D := (of_int 1 / lambda m)%D.

Definition pdf (m : t) (time : D) : D :=
  (lambda m * dexp (- lambda m * time))%D.
End Model.
Arguments t D : clear implicits.
End ExponentialModel.

(** [class ErlangModel] *)
Module ErlangModel.
Section Model.
Context {D : Type} {num : Double D} {libm : Libm D}.

Record t : Type := make { k : Z; lambda : D }.

(** [result = 1.0; for (i = 2; i <= n; ++i) result *= i;] *)
Definition factorial (n : Z) : D :=
  for_range 2 (n + 1) (fun i result => (result * of_int i)%D) (of_int 1).

(** One turn of the loop of [reliability], on the pair [(term, cdf)]. *)
Definition reliability_step (m : t) (time : D) (i : Z) (s : D * D) : D * D :=
  let '(term, cdf) := s in
  let term := if (0 <? i)%Z
              then (term * (lambda m * time / of_int i))%D
              else term in
  (term, (cdf + term)%D).

Definition reliability (m : t) (time : D) : D :=
  let cdf := of_int 0 in
  let term := dexp (- lambda m * time)%D in
  let '(_, cdf) := for_range 0 (k m) (reliability_step m time) (term, cdf) in
  (of_int 1 - cdf)%D.

Definition pdf (m : t) (time : D) : D :=
  (dpow (lambda m) (k m) * dpow time (k m - 1) * dexp (- lambda m * time)
   / factorial (k m - 1))%D.

Definition mttf (m : t) : D := (of_int (k m) / lambda m)%D.
End Model.
Arguments t D : clear implicits.
End ErlangModel.

(** [class QueueingModel] *)
Module QueueingModel.
Section Model.
Context {D : Type} {num : Double D} {libm : Libm D}.

Record t : Type := make {
  arrivalRate : D;
  serviceRate : D;
  numServers : Z;
  rho : D
}.

(** The constructor [QueueingModel(arrival, service, servers)]. *)
Definition new (arrival service : D) (servers : Z) : t :=
  {| arrivalRate := arrival;
     serviceRate := service;
     numServers := servers;
     rho := (arrival / (of_int servers * service))%D |}.

Definition factorial (n : Z) : D :=
  for_range 2 (n + 1) (fun i result => (result * of_int i)%D) (of_int 1).

Definition calculateP0 (q : t) : D :=
  let lambdaMu := (arrivalRate q / serviceRate q)%D in
  let sumTerm :=
    for_range 0 (numServers q)
      (fun n sumTerm => (sumTerm + dpow lambdaMu n / factorial n)%D)
      (of_int 0) in
  let lastTerm :=
    (dpow lambdaMu (numServers q)
     / (factorial (numServers q) * (of_int 1 - rho q)))%D in
  (of_int 1 / (sumTerm + lastTerm))%D.

Definition isStable (q : t) : bool := (rho q <? of_int 1)%D.

Definition getUtilization (q : t) : D := rho q.

Definition avgQueueLength (q : t) : D :=
  if negb (isStable q) then (- of_int 1)%D
  else
    let p0 := calculateP0 q in
    let lambdaMu := (arrivalRate q / serviceRate q)%D in
    ((p0 * dpow lambdaMu (numServers q) * rho q)
     / (factorial (numServers q) * dpow (of_int 1 - rho q) 2))%D.

Definition avgWaitTime (q : t) : D :=
  if negb (isStable q) then (- of_int 1)%D
  else
    let lq := avgQueueLength q in
    if (arrivalRate q >? of_int 0)%D then (lq / arrivalRate q)%D
    else of_int 0.
End Model.
Arguments t D : clear implicits.
End QueueingModel.

(** [class FleetReliabilityManager] *)
Module FleetReliabilityManager.
Section Manager.
Context {D : Type} {num : Double D} {libm : Libm D}.

(** The three vectors of the manager, in insertion order. *)
Record t : Type := make {
  sensors : list (Sensor D);
  exponentialModels : list (ExponentialModel.t D);
  erlangModels : list (ErlangModel.t D)
}.

(** A default-constructed manager. *)
Definition empty : t :=
  {| sensors := []; exponentialModels := []; erlangModels := [] |}.

Definition addSensor (mgr : t) (sensor : Sensor D) : t :=
  {| sensors := sensors mgr ++ [sensor];
     exponentialModels :=
       exponentialModels mgr
       ++ [ExponentialModel.make (failureRate sensor)];
     erlangModels :=
       erlangModels mgr
       ++ [ErlangModel.make (kStages sensor) (failureRate sensor)] |}.

(** The manager [main] builds: every sensor added in turn. *)
Definition of_sensors (l : list (Sensor D)) : t :=
  fold_left addSensor l empty.

(** [vector::size()] converted to double for the division. *)
Definition size {A : Type} (v : list A) : D :=
  of_int (Z.of_nat (List.length v)).

Definition calculateFleetMTBF (mgr : t) : D :=
  let sum :=
    fold_left (fun sum model => (sum + ExponentialModel.mtbf model)%D)
              (exponentialModels mgr) (of_int 0) in
  (sum / size (exponentialModels mgr))%D.

Definition calculateFleetMTTF (mgr : t) : D :=
  let sum :=
    fold_left (fun sum model => (sum + ErlangModel.mttf model)%D)
              (erlangModels mgr) (of_int 0) in
  (sum / size (erlangModels mgr))%D.

Definition calculateFleetReliability (mgr : t) (timeHorizon : D) : D :=
  let sum :=
    fold_left
      (fun sum model => (sum + ErlangModel.reliability model timeHorizon)%D)
      (erlangModels mgr) (of_int 0) in
  (sum / size (erlangModels mgr))%D.

Record SensorStats : Type := mkSensorStats {
  total : Z;
  active : Z;
  warning : Z;
  failed : Z
}.

Definition getSensorStats (mgr : t) : SensorStats :=
  let stats := mkSensorStats 0 0 0 0 in
  let stats := mkSensorStats (Z.of_nat (List.length (sensors mgr)))
                             (active stats) (warning stats) (failed stats) in
  fold_left
    (fun stats sensor =>
       let health := health sensor in
       if (health >? of_int 70)%D then
         mkSensorStats (total stats) (active stats + 1)
                       (warning stats) (failed stats)
       else if (health >? of_int 30)%D then
         mkSensorStats (total stats) (active stats)
                       (warning stats + 1) (failed stats)
       else
         mkSensorStats (total stats) (active stats)
                       (warning stats) (failed stats + 1))
    (sensors mgr) stats.

Record CascadeRisk : Type := mkCascadeRisk {
  currentFailures : Z;
  riskFactor : D;
  expectedAdditional : Z;
  riskLevel : string;
  dependencyMultiplier : D
}.

(** The first loop of [analyzeCascadeRisk]. *)
Definition countCurrentFailures (mgr : t) : Z :=
  fold_left
    (fun currentFailures sensor =>
       if (health sensor <? of_int 30)%D
       then (currentFailures + 1)%Z else currentFailures)
    (sensors mgr) 0%Z.

Definition analyzeCascadeRisk (mgr : t) : CascadeRisk :=
  let currentFailures := countCurrentFailures mgr in
  let riskFactor := (of_int currentFailures / size (sensors mgr))%D in
  let dependencyMultiplier :=
    if (riskFactor >? tenths 2)%D then tenths 15
    else if (riskFactor >? tenths 1)%D then tenths 12
    else of_int 1 in
  let expectedAdditional :=
    truncate (of_int currentFailures * dependencyMultiplier * tenths 3)%D in
  let riskLevel :=
    if (riskFactor >? hundredths 15)%D then "HIGH"%string
    else if (riskFactor >? hundredths 8)%D then "MEDIUM"%string
    else "LOW"%string in
  {| currentFailures := currentFailures;
     riskFactor := riskFactor;
     expectedAdditional := expectedAdditional;
     riskLevel := riskLevel;
     dependencyMultiplier := dependencyMultiplier |}.
End Manager.
Arguments t D : clear implicits.
Arguments SensorStats : clear implicits.
Arguments CascadeRisk D : clear implicits.
End FleetReliabilityManager.

End Cpp.


(** ** The Fortran program (reliability_compute.f90)

    The internal procedures of [program iot_reliability_tracker].  An array
    argument is a list, read at the 1-based index [i] by [element]; the
    program never reads past the [n] entries it has initialised. *)

Module Fortran.
Section Program.
Context {D : Type} {num : Double D} {libm : Libm D}.

Definition element (arr : list D) (i : Z) : D :=
  nth (Z.to_nat (i - 1)) arr (of_int 0).

Definition element_int (arr : list Z) (i : Z) : Z :=
  nth (Z.to_nat (i - 1)) arr 0%Z.

Definition exponential_mtbf (lambda : D) : D := (of_int 1 / lambda)%D.

Definition erlang_mttf (k : Z) (lambda : D) : D := (of_int k / lambda)%D.

Definition exponential_reliability (lambda t : D) : D :=
  dexp (- (lambda * t))%D.

(** One turn of [do i = 0, k - 1] in [erlang_reliability], on the pair
    [(term, cdf_value)]. *)
Definition erlang_reliability_step (lambda t : D) (i : Z) (s : D * D) : D * D :=
  let '(term, cdf_value) := s in
  let term := if (0 <? i)%Z
              then (term * (lambda * t) / of_int i)%D
              else term in
  (term, (cdf_value + term)%D).

Definition erlang_reliability (k : Z) (lambda t : D) : D :=
  let cdf_value := of_int 0 in
  let term := dexp (- (lambda * t))%D in
  let '(_, cdf_value) :=
    do_range 0 (k - 1) (erlang_reliability_step lambda t) (term, cdf_value) in
  (of_int 1 - cdf_value)%D.

Definition calculate_mtbf_array (n : Z) (rates : list D) : list D :=
  do_range 1 n
    (fun i mtbf_arr => mtbf_arr ++ [exponential_mtbf (element rates i)]) [].

Definition calculate_mttf_array (n : Z) (k_vals : list Z) (rates : list D) : list D :=
  do_range 1 n
    (fun i mttf_arr =>
       mttf_arr ++ [erlang_mttf (element_int k_vals i) (element rates i)]) [].

Definition calculate_fleet_reliability
    (n : Z) (k_vals : list Z) (rates : list D) (t_horizon : D) : D :=
  let rel_sum :=
    do_range 1 n
      (fun i rel_sum =>
         (rel_sum
          + erlang_reliability (element_int k_vals i) (element rates i) t_horizon)%D)
      (of_int 0) in
  (rel_sum / of_int n)%D.

(** Returns [(active, warning, failed)]. *)
Definition classify_sensors_by_health (n : Z) (health : list D) : Z * Z * Z :=
  do_range 1 n
    (fun i '(active, warning, failed) =>
       if (element health i >? of_int 70)%D then ((active + 1)%Z, warning, failed)
       else if (element health i >? of_int 30)%D then (active, (warning + 1)%Z, failed)
       else (active, warning, (failed + 1)%Z))
    (0%Z, 0%Z, 0%Z).

Definition factorial (n : Z) : D :=
  do_range 2 n (fun i fact => (fact * of_int i)%D) (of_int 1).

(** Returns the three output arguments [(util, avg_queue, avg_wait)]. *)
Definition analyze_maintenance_queue
    (arr_rate serv_rate : D) (n_servers : Z) : D * D * D :=
  let rho := (arr_rate / (of_int n_servers * serv_rate))%D in
  let util := rho in
  if (rho >=? of_int 1)%D then
    (util, (- of_int 1)%D, (- of_int 1)%D)
  else
    let lambda_mu := (arr_rate / serv_rate)%D in
    let sum_term :=
      do_range 0 (n_servers - 1)
        (fun i sum_term => (sum_term + dpow lambda_mu i / factorial i)%D)
        (of_int 0) in
    let last_term :=
      (dpow lambda_mu n_servers
       / (factorial n_servers * (of_int 1 - rho)))%D in
    let p0 := (of_int 1 / (sum_term + last_term))%D in
    let avg_queue :=
      ((p0 * dpow lambda_mu n_servers * rho)
       / (factorial n_servers * dpow (of_int 1 - rho) 2))%D in
    let avg_wait :=
      if (arr_rate >? of_int 0)%D then (avg_queue / arr_rate)%D
      else of_int 0 in
    (util, avg_queue, avg_wait).

(** The values [analyze_cascade_risk] computes and prints. *)
Record cascade_report : Type := mk_cascade_report {
  risk_factor : D;
  dep_mult : D;
  expected_additional : Z;
  risk_level : string
}.

Definition analyze_cascade_risk (n_failed n_total : Z) : cascade_report :=
  let risk_factor := (of_int n_failed / of_int n_total)%D in
  let dep_mult :=
    if (risk_factor >? tenths 2)%D then tenths 15
    else if (risk_factor >? tenths 1)%D then tenths 12
    else of_int 1 in
  let expected_additional :=
    truncate (of_int n_failed * dep_mult * tenths 3)%D in
  let risk_level :=
    if (risk_factor >? hundredths 15)%D then "HIGH"%string
    else if (risk_factor >? hundredths 8)%D then "MEDIUM"%string
    else "LOW"%string in
  {| risk_factor := risk_factor;
     dep_mult := dep_mult;
     expected_additional := expected_additional;
     risk_level := risk_level |}.

(** The main program classifies the sensors and hands the count of the
    failed tier to the cascade analysis. *)
Definition main_cascade_risk (n_sensors : Z) (health_values : list D) : cascade_report :=
  let '(_, _, failed_count) := classify_sensors_by_health n_sensors health_values in
  analyze_cascade_risk failed_count n_sensors.
End Program.
Arguments cascade_report D : clear implicits.
End Fortran.

(** ** The Haskell module (ReliabilityModels.hs) *)

Module Haskell.
Section ReliabilityModels.
Context {D : Type} {num : Double D} {libm : Libm D}.

(** [[a..b]] on [Int]. *)
Definition enumFromTo (a b : Z) : list Z :=
  map (fun n => (a + Z.of_nat n)%Z) (seq 0 (Z.to_nat (b - a + 1))).

(** [sum], [product] and [length] of the Prelude. *)
Definition sum (xs : list D) : D := fold_left dadd xs (of_int 0).
Definition product (xs : list D) : D := fold_left dmul xs (of_int 1).
Definition length {A : Type} (xs : list A) : Z := Z.of_nat (List.length xs).

Definition exponentialReliability (lambda t : D) : D := dexp (- (lambda * t))%D.

Definition exponentialHazardRate (lambda : D) : D := lambda.

Definition exponentialMTBF (lambda : D) : D := (of_int 1 / lambda)%D.

(** [product [1..fromIntegral n]]: the doubles 1.0, 2.0, ..., n. *)
Definition factorial (n : Z) : D := product (map of_int (enumFromTo 1 n)).

Definition erlangPDF (k : Z) (lambda t : D) : D :=
  if (t <? of_int 0)%D then of_int 0
  else (dpow lambda k * dpow t (k - 1) * dexp (- (lambda * t)) / factorial (k - 1))%D.

Definition erlangCDF (k : Z) (lambda t : D) : D :=
  let erlangTerm i :=
    (dexp (- (lambda * t)) * dpow (lambda * t) i / factorial i)%D in
  if (t <? of_int 0)%D then of_int 0
  else (of_int 1 - sum (map erlangTerm (enumFromTo 0 (k - 1))))%D.

Definition erlangReliability (k : Z) (lambda t : D) : D :=
  (of_int 1 - erlangCDF k lambda t)%D.

Definition erlangMTTF (k : Z) (lambda : D) : D := (of_int k / lambda)%D.

Record FleetMetrics : Type := mkFleetMetrics {
  totalSensors : Z;
  activeSensors : Z;
  warningSensors : Z;
  failedSensors : Z;
  fleetMTBF : D;
  fleetMTTF : D;
  fleetReliability : D
}.

Definition average (xs : list D) : D := (sum xs / of_int (length xs))%D.

Definition calculateFleetMetrics (sensors : list (Sensor D)) (timeHorizon : D)
  : FleetMetrics :=
  let mtbfValues := map (fun s => exponentialMTBF (failureRate s)) sensors in
  let mttfValues := map (fun s => erlangMTTF (kStages s) (failureRate s)) sensors in
  let reliabilities :=
    map (fun s => erlangReliability (kStages s) (failureRate s) timeHorizon) sensors in
  {| totalSensors := length sensors;
     activeSensors := length (filter (fun s => (health s >? of_int 70)%D) sensors);
     warningSensors :=
       length (filter (fun s => (health s >? of_int 30)%D
                                && (health s <=? of_int 70)%D) sensors);
     failedSensors := length (filter (fun s => (health s <=? of_int 30)%D) sensors);
     fleetMTBF := average mtbfValues;
     fleetMTTF := average mttfValues;
     fleetReliability := average reliabilities |}.

Inductive HealthStatus : Type := Active | Warning | Failed.

Definition classifySensor (sensor : Sensor D) : HealthStatus :=
  if (health sensor >? of_int 70)%D then Active
  else if (health sensor >? of_int 30)%D then Warning
  else Failed.

Inductive RiskLevel : Type := Low | Medium | High.

Record CascadeRisk : Type := mkCascadeRisk {
  currentFailures : Z;
  cascadeRiskFactor : D;
  expectedAdditionalFailures : Z;
  riskLevel : RiskLevel;
  dependencyMultiplier : D
}.

Definition analyzeCascadeRisk (sensors : list (Sensor D)) : CascadeRisk :=
  let failedSensorsList := filter (fun s => (health s <? of_int 30)%D) sensors in
  let currentFailures := length failedSensorsList in
  let totalSensors := length sensors in
  let cascadeRiskFactor := (of_int currentFailures / of_int totalSensors)%D in
  let dependencyMultiplier :=
    if (cascadeRiskFactor >? tenths 2)%D then tenths 15
    else if (cascadeRiskFactor >? tenths 1)%D then tenths 12
    else of_int 1 in
  let expectedAdditionalFailures :=
    round (of_int currentFailures * dependencyMultiplier * tenths 3)%D in
  let riskLevel :=
    if (cascadeRiskFactor >? hundredths 15)%D then High
    else if (cascadeRiskFactor >? hundredths 8)%D then Medium
    else Low in
  {| currentFailures := currentFailures;
     cascadeRiskFactor := cascadeRiskFactor;
     expectedAdditionalFailures := expectedAdditionalFailures;
     riskLevel := riskLevel;
     dependencyMultiplier := dependencyMultiplier |}.

Record QueueMetrics : Type := mkQueueMetrics {
  utilization : D;
  avgQueueLength : D;
  avgWaitTimeMinutes : D
}.

Definition calculateQueueMetrics (arrivalRate serviceRate : D) (numServers : Z)
  : option QueueMetrics :=
  let rho := (arrivalRate / (of_int numServers * serviceRate))%D in
  let utilization := (rho * of_int 100)%D in
  let lambdaMu := (arrivalRate / serviceRate)%D in
  let p0Denominator :=
    (sum (map (fun n => dpow lambdaMu n / factorial n)
              (enumFromTo 0 (numServers - 1)))
     + dpow lambdaMu numServers / (factorial numServers * (of_int 1 - rho)))%D in
  let p0 := (of_int 1 / p0Denominator)%D in
  let avgQueueLength :=
    ((p0 * dpow lambdaMu numServers * rho)
     / (factorial numServers * dpow (of_int 1 - rho) 2))%D in
  let avgWaitTimeHours := (avgQueueLength / arrivalRate)%D in
  let avgWaitTimeMinutes := (avgWaitTimeHours * of_int 60)%D in
  if (rho >=? of_int 1)%D then None
  else Some {| utilization := utilization;
               avgQueueLength := avgQueueLength;
               avgWaitTimeMinutes := avgWaitTimeMinutes |}.
(** [Ordering] and [compare].  On [Double], GHC's [compare x y] is
    [if x < y then LT else if x == y then EQ else GT]; [x == y] holds
    exactly when [x <= y] and [y <= x]. *)
Inductive Ordering : Type := LT | EQ | GT.

Definition eqDouble (x y : D) : bool := ((x <=? y)%D && (y <=? x)%D)%bool.

Definition compareDouble (x y : D) : Ordering :=
  if (x <? y)%D then LT else if eqDouble x y then EQ else GT.

Definition compareInt (x y : Z) : Ordering :=
  match (x ?= y)%Z with
  | Lt => LT
  | Eq => EQ
  | Gt => GT
  end.

(** [Data.Ord.comparing], with the [compare] of the key type made explicit. *)
Definition comparing {A B : Type} (compare : B -> B -> Ordering) (p : A -> B)
    (x y : A) : Ordering :=
  compare (p x) (p y).

(** [Data.List.insertBy] and [Data.List.sortBy], as the Haskell Report
    defines them: [sortBy cmp = foldr (insertBy cmp) []], a stable sort. *)
Fixpoint insertBy {A : Type} (cmp : A -> A -> Ordering) (x : A) (ys : list A)
  : list A :=
  match ys with
  | [] => [x]
  | y :: ys' =>
      match cmp x y with
      | GT => y :: insertBy cmp x ys'
      | _ => x :: ys
      end
  end.

Definition sortBy {A : Type} (cmp : A -> A -> Ordering) (xs : list A) : list A :=
  fold_right (insertBy cmp) [] xs.

(** [xs !! n]: an error ([None]) when the index is negative or too large. *)
Definition index {A : Type} (xs : list A) (n : Z) : option A :=
  if (n <? 0)%Z then None else nth_error xs (Z.to_nat n).

(** [zipWith f [i..] xs] *)
Fixpoint zipWith_enumFrom {A B : Type} (f : Z -> A -> B) (i : Z) (xs : list A)
  : list B :=
  match xs with
  | [] => []
  | x :: xs' => f i x :: zipWith_enumFrom f (i + 1) xs'
  end.

(** A maintenance task.  The fields [assignedCrew] and [estimatedArrival]
    divide by the number of crews: with no crew, forcing them raises a
    division by zero, which is [None] here. *)
Record MaintenanceTask : Type := mkMaintenanceTask {
  taskSensorId : string;
  taskPriority : Z;
  assignedCrew : option string;
  estimatedArrival : option Z
}.

(** The three lists bound in the [where] clause of
    [generateMaintenanceSchedule]. *)
Definition failedSensors_by_queue (sensors : list (Sensor D)) : list (Sensor D) :=
  sortBy (comparing compareInt (@queuePosition D))
         (filter (fun s => (health s <? of_int 30)%D) sensors).

Definition warningSensors_by_health (sensors : list (Sensor D)) : list (Sensor D) :=
  sortBy (comparing compareDouble (@health D))
         (filter (fun s => (health s >? of_int 30)%D
                           && (health s <=? of_int 70)%D) sensors).

Definition prioritySensors (sensors : list (Sensor D)) : list (Sensor D) :=
  firstn 20 (failedSensors_by_queue sensors ++ warningSensors_by_health sensors).

Definition makeTask (crews : list string) (idx : Z) (sensor : Sensor D)
  : MaintenanceTask :=
  {| taskSensorId := sensorId sensor;
     taskPriority := if (health sensor <? of_int 30)%D then 1%Z else 2%Z;
     assignedCrew :=
       if (length crews =? 0)%Z then None
       else index crews (idx mod length crews)%Z;
     estimatedArrival :=
       if (length crews =? 0)%Z then None
       else Some (idx / length crews * 45 + 15)%Z |}.

Definition generateMaintenanceSchedule (sensors : list (Sensor D))
    (crews : list string) : list MaintenanceTask :=
  zipWith_enumFrom (makeTask crews) 0 (prioritySensors sensors).

(** [take nSamples $ repeat estimatedTime] *)
Definition predictNextFailure (k : Z) (lambda : D) (nSamples : Z) : list D :=
  repeat (erlangMTTF k lambda) (Z.to_nat nSamples).
End ReliabilityModels.
Arguments FleetMetrics D : clear implicits.
Arguments CascadeRisk D : clear implicits.
Arguments QueueMetrics D : clear implicits.
End Haskell.

(** ** The R script (reliability_analysis.R)

    [sensor_data] is a data frame with one row per sensor; only the column
    [health] and the number of rows are read by the cascade analysis.

    Three features of the language show in the results.  A comparison with a
    NaN is neither [TRUE] nor [FALSE] but [NA]; indexing the rows of a data
    frame by a logical vector keeps a row (of [NA]s) for every [NA] of the
    vector; and [if] stops with an error when its condition is [NA]. *)

Module RLang.

(** What a call returns: the value, or the error it stopped with. *)
Inductive result (A : Type) : Type :=
| stop (message : string)
| value (a : A).
Arguments stop {A} message.
Arguments value {A} a.

Definition bind {A B : Type} (x : result A) (f : A -> result B) : result B :=
  match x with
  | stop message => stop message
  | value a => f a
  end.

(** A logical value: [Some true] is [TRUE], [Some false] is [FALSE] and
    [None] is [NA]. *)
Definition logical : Type := option bool.

(** [if (cond) yes else no] *)
Definition if_ {A : Type} (cond : logical) (yes no : result A) : result A :=
  match cond with
  | Some true => yes
  | Some false => no
  | None => stop "missing value where TRUE/FALSE needed"
  end.

(** [x & y] *)
Definition logical_and (x y : logical) : logical :=
  match x, y with
  | Some false, _ | _, Some false => Some false
  | Some true, Some true => Some true
  | _, _ => None
  end.

(** [sum] of a logical vector: the number of [TRUE]s, or [NA] when an
    element is [NA]. *)
Fixpoint sum_logical (v : list logical) : option Z :=
  match v with
  | [] => Some 0%Z
  | x :: v' =>
      match x, sum_logical v' with
      | Some b, Some n => Some ((if b then 1 else 0) + n)%Z
      | _, _ => None
      end
  end.

(** [df[keep, ]] with the logical vector [keep] computed row by row: the rows
    at [TRUE], and one row of [NA]s ([None]) for every [NA]. *)
Definition subset {A : Type} (keep : A -> logical) (df : list A) : list (option A) :=
  flat_map (fun row => match keep row with
                       | Some true => [Some row]
                       | Some false => []
                       | None => [None]
                       end) df.

(** [nrow] *)
Definition nrow {A : Type} (df : list A) : Z := Z.of_nat (List.length df).

(** [a:b], which counts down when [b < a] *)
Definition colon (a b : Z) : list Z :=
  if (a <=? b)%Z
  then map (fun n => (a + Z.of_nat n)%Z) (seq 0 (Z.to_nat (b - a + 1)))
  else map (fun n => (a - Z.of_nat n)%Z) (seq 0 (Z.to_nat (a - b + 1))).

(** [sum] of a numeric vector is a function of R's runtime: it accumulates in
    the platform's [long double] and rounds the total once, so on doubles it
    is not the left fold of [+]. *)
Class Base (D : Type) : Type := {
  sum : list D -> D
}.

Section Script.
Context {D : Type} {num : Double D} {libm : Libm D} {base : Base D}.

(** A double is NaN (or [NA]) exactly when it does not compare [<=] to
    itself. *)
Definition is_na (x : D) : bool := negb (x <=? x)%D.

(** The comparisons [x < y], [x > y], [x <= y] and [x >= y] of two doubles:
    [NA] when one of them is NaN. *)
Definition comparison (test : D -> D -> bool) (x y : D) : logical :=
  if is_na x || is_na y then None else Some (test x y).

Definition less (x y : D) : logical := comparison (fun x y => (x <? y)%D) x y.
Definition greater (x y : D) : logical := comparison (fun x y => (x >? y)%D) x y.
Definition less_equal (x y : D) : logical := comparison (fun x y => (x <=? y)%D) x y.
Definition greater_equal (x y : D) : logical := comparison (fun x y => (x >=? y)%D) x y.

(** The named list [analyze_cascade_risk] returns. *)
Record cascade_list : Type := mk_cascade_list {
  current_failures : Z;
  cascade_risk_factor : D;
  expected_additional_failures : Z;
  risk_level : string;
  dependency_multiplier : D
}.

Definition analyze_cascade_risk (sensor_data : list (Sensor D)) : result cascade_list :=
  let failed_sensors := subset (fun row => less (health row) (of_int 30)) sensor_data in
  let n_failed := nrow failed_sensors in
  let n_total := nrow sensor_data in
  let cascade_risk := (of_int n_failed / of_int n_total)%D in
  bind (if_ (greater cascade_risk (tenths 2)) (value (tenths 15))
            (if_ (greater cascade_risk (tenths 1)) (value (tenths 12))
                 (value (of_int 1))))
       (fun dependency_multiplier =>
  let expected_additional :=
    round (of_int n_failed * dependency_multiplier * tenths 3)%D in
  bind (if_ (greater cascade_risk (hundredths 15)) (value "HIGH"%string)
            (if_ (greater cascade_risk (hundredths 8)) (value "MEDIUM"%string)
                 (value "LOW"%string)))
       (fun risk_level =>
  value {| current_failures := n_failed;
           cascade_risk_factor := cascade_risk;
           expected_additional_failures := expected_additional;
           risk_level := risk_level;
           dependency_multiplier := dependency_multiplier |})).

Definition exponential_mtbf (lambda : D) : D := (of_int 1 / lambda)%D.

Definition erlang_mttf (k : Z) (lambda : D) : D := (of_int k / lambda)%D.

(** The list [mmc_queue_metrics] returns when the queue is stable. *)
Record mmc_metrics : Type := mk_mmc_metrics {
  utilization : D;
  p0 : D;
  average_queue_length : D;
  average_waiting_time_hours : D;
  average_waiting_time_minutes : D;
  average_time_in_system : D;
  average_number_in_system : D
}.

(** The two shapes of the result: [stable = FALSE] with a message, or
    [stable = TRUE] with the metrics. *)
Inductive mmc_list : Type :=
| unstable (message : string)
| stable (metrics : mmc_metrics).

Section Queue.
(** R's [factorial], which is [gamma(n + 1)] of the R runtime. *)
Variable factorial : Z -> D.

Definition mmc_queue_metrics (arrival_rate service_rate : D) (num_servers : Z)
  : result mmc_list :=
  let rho := (arrival_rate / (of_int num_servers * service_rate))%D in
  if_ (greater_equal rho (of_int 1))
    (value (unstable "System unstable: rho >= 1"))
    (let lambda_mu := (arrival_rate / service_rate)%D in
     let sum_term :=
       sum (map (fun n => (dpow lambda_mu n / factorial n)%D)
                (colon 0 (num_servers - 1))) in
     let last_term :=
       (dpow lambda_mu num_servers
        / (factorial num_servers * (of_int 1 - rho)))%D in
     let p0 := (of_int 1 / (sum_term + last_term))%D in
     let lq :=
       ((p0 * dpow lambda_mu num_servers * rho)
        / (factorial num_servers * dpow (of_int 1 - rho) 2))%D in
     let wq := (lq / arrival_rate)%D in
     let w := (wq + of_int 1 / service_rate)%D in
     let l := (arrival_rate * w)%D in
     value (stable {| utilization := rho;
                      p0 := p0;
                      average_queue_length := lq;
                      average_waiting_time_hours := wq;
                      average_waiting_time_minutes := (wq * of_int 60)%D;
                      average_time_in_system := w;
                      average_number_in_system := l |})).
End Queue.

(** The three counts of [analyze_sensor_network]:
    [(active_count, warning_count, failed_count)], each the [sum] of a
    logical vector, so [NA] ([None]) when a health is NaN. *)
Definition health_counts (sensor_data : list (Sensor D))
  : option Z * option Z * option Z :=
  let health := map (@health D) sensor_data in
  (sum_logical (map (fun h => greater h (of_int 70)) health),
   sum_logical (map (fun h => logical_and (greater h (of_int 30))
                                          (less_equal h (of_int 70))) health),
   sum_logical (map (fun h => less_equal h (of_int 30)) health)).
End Script.
Arguments mmc_metrics D : clear implicits.
Arguments mmc_list D : clear implicits.
Arguments cascade_list D : clear implicits.

(** In exact arithmetic [sum] is the sum. *)
#[global] Instance ExactBase : Base R := {
  sum := fun xs => fold_left Rplus xs 0%R
}.
End RLang.

(** ** The dashboard (iot_tracker_interface.tsx)

    The numeric part of the React component: the counts it puts in [stats]
    and the colour of a sensor.  A JavaScript number is a double. *)

Module Dashboard.
Section Interface.
Context {D : Type} {num : Double D}.

Record Stats : Type := mkStats {
  total : Z;
  active : Z;
  warning : Z;
  failed : Z
}.

(** The counts computed in [useEffect] from the [health] of the sensors. *)
Definition computeStats (healths : list D) : Stats :=
  {| total := Z.of_nat (List.length healths);
     active := Z.of_nat (List.length (filter (fun h => (h >? of_int 70)%D) healths));
     warning :=
       Z.of_nat (List.length
                   (filter (fun h => (h >? of_int 30)%D && (h <=? of_int 70)%D)
                           healths));
     failed := Z.of_nat (List.length (filter (fun h => (h <=? of_int 30)%D) healths)) |}.

Definition getHealthColor (health : D) : string :=
  if (health >? of_int 70)%D then "#00ff00"
  else if (health >? of_int 30)%D then "#ffaa00"
  else "#ff0000".
End Interface.
End Dashboard.

(** ** Sample fleets *)

Section Samples.
Context {D : Type} {num : Double D}.

(** A well-formed sensor record (rate 0.0005, three stages) with the given
    number and health. *)
Definition sample_sensor (i : nat) (h : D) : Sensor D :=
  {| sensorId := "SNS-" ++ NilEmpty.string_of_uint (Nat.to_uint i);
     sensorType := TRAFFIC;
     location := mkLocation (of_int 0) (of_int 0) (of_int 0);
     health := h;
     uptimeHours := of_int 1000;
     failureRate := (of_int 5 / of_int 10000)%D;
     kStages := 3;
     queuePosition := 0 |}.

(** Fifty sensors: numbers 1 to 5 at health 20, the others at health 80. *)
Definition fleet_5_of_50 : list (Sensor D) :=
  map (fun i => sample_sensor i (if (i <=? 5)%nat then of_int 20 else of_int 80))
      (seq 1 50).

(** A single sensor whose health is exactly 30. *)
Definition fleet_at_30 : list (Sensor D) := [sample_sensor 1 (of_int 30)].
End Samples.

(** Four sensors at health 20, NaN, 80 and 80. *)
Definition fleet_with_nan : list (Sensor float) :=
  [sample_sensor 1 (of_int 20); sample_sensor 2 nan;
   sample_sensor 3 (of_int 80); sample_sensor 4 (of_int 80)].

(** ** The survival function of the specification

    Section 4.2 of the specification defines the Erlang survival function as
    the probability of fewer than [k] Poisson arrivals by time [t],
    [R(t) = sum_{i=0}^{k-1} e^(-lambda t) (lambda t)^i / i!].  This is that
    formula, written from the specification's words, for comparison with
    what the implementations return. *)

Definition poisson_term (lambda t : R) (i : nat) : R :=
  (exp (- (lambda * t)) * (lambda * t) ^ i / INR (fact i))%R.

Fixpoint poisson_survival (k : nat) (lambda t : R) : R :=
  match k with
  | O => 0%R
  | Datatypes.S k' => (poisson_survival k' lambda t + poisson_term lambda t k')%R
  end.

(** ** Properties *)

Unset Implicit Arguments.

(** *** Loops and folds *)

Lemma for_range_empty {St : Type} (lo hi : Z) (body : Z -> St -> St) (s : St) :
  (hi <= lo)%Z -> for_range lo hi body s = s.
Proof.
  intros Hle. unfold for_range.
  replace (Z.to_nat (hi - lo)) with O by lia. reflexivity.
Qed.

Lemma for_range_first {St : Type} (lo hi : Z) (body : Z -> St -> St) (s : St) :
  (lo < hi)%Z -> for_range lo hi body s = for_range (lo + 1) hi body (body lo s).
Proof.
  intros Hlt. unfold for_range.
  replace (Z.to_nat (hi - lo)) with (S (Z.to_nat (hi - (lo + 1)))) by lia.
  reflexivity.
Qed.

Lemma iterate_from_last {St : Type} (n : nat) (body : Z -> St -> St) :
  forall (i : Z) (s : St),
    iterate_from (Datatypes.S n) i body s
    = body (i + Z.of_nat n)%Z (iterate_from n i body s).
Proof.
  induction n as [|n IH]; intros i s.
  - simpl. now rewrite Z.add_0_r.
  - change (iterate_from (Datatypes.S (Datatypes.S n)) i body s)
      with (iterate_from (Datatypes.S n) (i + 1) body (body i s)).
    rewrite IH. simpl iterate_from at 2.
    f_equal. lia.
Qed.

Lemma for_range_last {St : Type} (lo hi : Z) (body : Z -> St -> St) (s : St) :
  (lo <= hi)%Z ->
  for_range lo (hi + 1) body s = body hi (for_range lo hi body s).
Proof.
  intros Hle. unfold for_range.
  replace (Z.to_nat (hi + 1 - lo)) with (Datatypes.S (Z.to_nat (hi - lo))) by lia.
  rewrite iterate_from_last. f_equal. lia.
Qed.

Section FleetFacts.
Context {D : Type} {num : Double D}.

Import Cpp.FleetReliabilityManager.

Lemma fold_addSensor_sensors (l : list (Sensor D)) :
  forall mgr, sensors (fold_left addSensor l mgr) = sensors mgr ++ l.
Proof.
  induction l as [|s l IH]; intros mgr; simpl.
  - now rewrite app_nil_r.
  - rewrite IH. simpl. now rewrite <- app_assoc.
Qed.

Lemma fold_addSensor_exponentialModels (l : list (Sensor D)) :
  forall mgr,
    exponentialModels (fold_left addSensor l mgr)
    = exponentialModels mgr
      ++ map (fun s => Cpp.ExponentialModel.make (failureRate s)) l.
Proof.
  induction l as [|s l IH]; intros mgr; simpl.
  - now rewrite app_nil_r.
  - rewrite IH. simpl. now rewrite <- app_assoc.
Qed.

Lemma fold_addSensor_erlangModels (l : list (Sensor D)) :
  forall mgr,
    erlangModels (fold_left addSensor l mgr)
    = erlangModels mgr
      ++ map (fun s => Cpp.ErlangModel.make (kStages s) (failureRate s)) l.
Proof.
  induction l as [|s l IH]; intros mgr; simpl.
  - now rewrite app_nil_r.
  - rewrite IH. simpl. now rewrite <- app_assoc.
Qed.

(** The manager keeps the sensors it was given, in order. *)
Lemma sensors_of_sensors (l : list (Sensor D)) : sensors (of_sensors l) = l.
Proof. unfold of_sensors. now rewrite fold_addSensor_sensors. Qed.

Lemma fold_count_filter {A : Type} (p : A -> bool) (l : list A) :
  forall c : Z,
    fold_left (fun c x => if p x then (c + 1)%Z else c) l c
    = (c + Z.of_nat (List.length (filter p l)))%Z.
Proof.
  induction l as [|x l IH]; intros c; simpl.
  - lia.
  - rewrite IH. destruct (p x); simpl List.length; lia.
Qed.

(** The counting loop of the C++ cascade analysis counts the sensors whose
    health is below 30, as the filter of the Haskell version does. *)
Lemma countCurrentFailures_filter (mgr : Cpp.FleetReliabilityManager.t D) :
  countCurrentFailures mgr
  = Z.of_nat (List.length (filter (fun s => (health s <? of_int 30)%D) (sensors mgr))).
Proof.
  unfold countCurrentFailures.
  rewrite (fold_count_filter (fun s => (health s <? of_int 30)%D)). lia.
Qed.

(** The tier loop of [getSensorStats] puts in the failed tier the sensors
    that pass neither of its two tests. *)
Lemma getSensorStats_failed (mgr : Cpp.FleetReliabilityManager.t D) :
  failed (getSensorStats mgr)
  = Z.of_nat
      (List.length
         (filter (fun s => negb (health s >? of_int 70)%D
                           && negb (health s >? of_int 30)%D)
                 (sensors mgr))).
Proof.
  assert (Hfold : forall (l : list (Sensor D)) (st : SensorStats),
    failed
      (fold_left
         (fun stats sensor =>
            let health := health sensor in
            if (health >? of_int 70)%D then
              mkSensorStats (total stats) (active stats + 1)
                            (warning stats) (failed stats)
            else if (health >? of_int 30)%D then
              mkSensorStats (total stats) (active stats)
                            (warning stats + 1) (failed stats)
            else
              mkSensorStats (total stats) (active stats)
                            (warning stats) (failed stats + 1))
         l st)
    = (failed st
       + Z.of_nat
           (List.length
              (filter (fun s => negb (health s >? of_int 70)%D
                                && negb (health s >? of_int 30)%D) l)))%Z).
  { induction l as [|s l IH]; intros st; cbn [fold_left filter].
    - cbn [List.length]. lia.
    - rewrite IH.
      destruct (health s >? of_int 70)%D; [cbn; lia|].
      destruct (health s >? of_int 30)%D; cbn [negb andb failed List.length]; lia. }
  unfold getSensorStats. rewrite Hfold. cbn [failed]. lia.
Qed.
End FleetFacts.

(** *** Runs in binary64 *)

Set Warnings "-inexact-float".

(** The literals of the sources, as the compilers read them. *)
Lemma binary64_literals :
  tenths 1 = 0.1%float /\ tenths 2 = 0.2%float /\ tenths 3 = 0.3%float
  /\ tenths 12 = 1.2%float /\ tenths 15 = 1.5%float
  /\ hundredths 8 = 0.08%float /\ hundredths 15 = 0.15%float.
Proof. vm_compute. repeat apply conj; reflexivity. Qed.

(** The conversions to an integer at the values around one and a half. *)
Lemma binary64_conversions :
  truncate 1.5%float = 1%Z /\ round 1.5%float = 2%Z
  /\ truncate 2.5%float = 2%Z /\ round 2.5%float = 2%Z
  /\ truncate 1.75%float = 1%Z /\ round 1.75%float = 2%Z
  /\ truncate 1.25%float = 1%Z /\ round 1.25%float = 1%Z
  /\ truncate (-1.5)%float = (-1)%Z /\ round (-1.5)%float = (-2)%Z
  /\ truncate 3%float = 3%Z /\ round 3%float = 3%Z.
Proof. vm_compute. repeat apply conj; reflexivity. Qed.

Section Binary64Runs.
Import Cpp.FleetReliabilityManager.

(** C7: with five sensors below health 30 in a fleet of fifty, the C++ and
    the Haskell cascade analyses compute the risk factor 0.1, which is not
    above the threshold 0.1, so the dependency multiplier is 1.0; it is above
    0.08 and not above 0.15, so the risk level is MEDIUM.  The Fortran
    procedure gives the same on the counts 5 and 50. *)
Theorem C7_cascade_five_of_fifty (fleet : list (Sensor float)) :
  List.length fleet = 50%nat ->
  List.length (filter (fun s => (health s <? of_int 30)%D) fleet) = 5%nat ->
  let cpp := analyzeCascadeRisk (of_sensors fleet) in
  let hs := Haskell.analyzeCascadeRisk fleet in
  let f90 := Fortran.analyze_cascade_risk 5 50 in
  (currentFailures cpp = 5%Z
   /\ riskFactor cpp = 0.1%float
   /\ dependencyMultiplier cpp = 1%float
   /\ riskLevel cpp = "MEDIUM"%string)
  /\ (Haskell.currentFailures hs = 5%Z
      /\ Haskell.cascadeRiskFactor hs = 0.1%float
      /\ Haskell.dependencyMultiplier hs = 1%float
      /\ Haskell.riskLevel hs = Haskell.Medium)
  /\ (Fortran.risk_factor f90 = 0.1%float
      /\ Fortran.dep_mult f90 = 1%float
      /\ Fortran.risk_level f90 = "MEDIUM"%string)
  /\ (0.1%float >? tenths 1)%D = false
  /\ (0.1%float >? hundredths 8)%D = true
  /\ (0.1%float >? hundredths 15)%D = false.
Proof.
  intros Htotal Hfailed cpp hs f90.
  subst cpp hs f90.
  unfold analyzeCascadeRisk, Haskell.analyzeCascadeRisk.
  rewrite countCurrentFailures_filter, sensors_of_sensors.
  unfold size, Haskell.length.
  rewrite Hfailed, Htotal.
  vm_compute. repeat apply conj; reflexivity.
Qed.

(** The fleet [fleet_5_of_50] meets the two conditions of C7. *)
Lemma C7_cascade_five_of_fifty_witness :
  List.length (fleet_5_of_50 (D := float)) = 50%nat
  /\ List.length (filter (fun s => (health s <? of_int 30)%D)
                         (fleet_5_of_50 (D := float))) = 5%nat
  /\ riskFactor (analyzeCascadeRisk (of_sensors fleet_5_of_50)) = 0.1%float
  /\ dependencyMultiplier (analyzeCascadeRisk (of_sensors fleet_5_of_50)) = 1%float
  /\ riskLevel (analyzeCascadeRisk (of_sensors fleet_5_of_50)) = "MEDIUM"%string.
Proof.
  assert (Htotal : List.length (fleet_5_of_50 (D := float)) = 50%nat)
    by (vm_compute; reflexivity).
  assert (Hfailed : List.length (filter (fun s => (health s <? of_int 30)%D)
                                        (fleet_5_of_50 (D := float))) = 5%nat)
    by (vm_compute; reflexivity).
  split; [exact Htotal|]. split; [exact Hfailed|].
  destruct (C7_cascade_five_of_fifty fleet_5_of_50 Htotal Hfailed)
    as [[_ [Hfactor [Hmult Hlevel]]] _].
  repeat apply conj; assumption.
Defined.

(** C9: on the fleet of fifty with five failed sensors the product
    [5 * 1.0 * 0.3] is exactly 1.5; the C++ and Fortran versions truncate it
    to 1, the Haskell and R versions round it to 2 (the R analysis returns
    its list [r] without an error). *)
Theorem C9_truncation_and_rounding_disagree :
  exists fleet : list (Sensor float),
    let cpp := analyzeCascadeRisk (of_sensors fleet) in
    let f90 := Fortran.main_cascade_risk 50 (map (@health float) fleet) in
    let hs := Haskell.analyzeCascadeRisk fleet in
    exists r : RLang.cascade_list float,
      RLang.analyze_cascade_risk fleet = RLang.value r
      /\ currentFailures cpp = 5%Z
      /\ dependencyMultiplier cpp = 1%float
      /\ (of_int (currentFailures cpp) * dependencyMultiplier cpp * tenths 3)%D
         = 1.5%float
      /\ expectedAdditional cpp = 1%Z
      /\ Fortran.expected_additional f90 = 1%Z
      /\ Haskell.expectedAdditionalFailures hs = 2%Z
      /\ RLang.expected_additional_failures r = 2%Z
      /\ expectedAdditional cpp <> Haskell.expectedAdditionalFailures hs
      /\ Fortran.expected_additional f90 <> RLang.expected_additional_failures r.
Proof.
  exists fleet_5_of_50. cbv zeta.
  eexists. split; [vm_compute; reflexivity|].
  vm_compute. repeat apply conj; try reflexivity; discriminate.
Qed.

(** C6: a fleet whose only sensor has health exactly 30.  The tier count of
    [getSensorStats] takes it as failed, the count of [analyzeCascadeRisk]
    does not; the Haskell module has the same two tests.  The Fortran
    program, which passes the tier count on, counts it in both places. *)
Theorem C6_health_30_is_failed_for_the_tiers_only :
  failed (getSensorStats (of_sensors (fleet_at_30 (D := float)))) = 1%Z
  /\ currentFailures (analyzeCascadeRisk (of_sensors (fleet_at_30 (D := float)))) = 0%Z
  /\ map Haskell.classifySensor (fleet_at_30 (D := float)) = [Haskell.Failed]
  /\ Haskell.currentFailures (Haskell.analyzeCascadeRisk (fleet_at_30 (D := float))) = 0%Z
  /\ Fortran.classify_sensors_by_health 1 (map (@health float) fleet_at_30)
     = (0%Z, 0%Z, 1%Z)
  /\ Fortran.risk_factor
       (Fortran.main_cascade_risk 1 (map (@health float) fleet_at_30)) = 1%float.
Proof. vm_compute. repeat apply conj; reflexivity. Qed.

(** C4, as the claim states it, fails: on an empty fleet the C++ mean, the
    Haskell [average] and both risk factors are the double NaN, the value
    of [0.0 / 0]; no error is raised. *)
Lemma C4_empty_fleet_yields_nan :
  PrimFloat.is_nan (calculateFleetMTBF (of_sensors (D := float) [])) = true
  /\ PrimFloat.is_nan (calculateFleetMTTF (of_sensors (D := float) [])) = true
  /\ PrimFloat.is_nan (Haskell.average (D := float) []) = true
  /\ PrimFloat.is_nan (riskFactor (analyzeCascadeRisk (of_sensors (D := float) [])))
     = true
  /\ PrimFloat.is_nan
       (Haskell.cascadeRiskFactor (Haskell.analyzeCascadeRisk (D := float) []))
     = true.
Proof. vm_compute. repeat apply conj; reflexivity. Qed.
End Binary64Runs.

Section Binary64Platform.
Variable libm_exp : float -> float.
Variable libm_pow : float -> float -> float.
Import Cpp.FleetReliabilityManager.

#[local] Abbreviation platform := (binary64_libm libm_exp libm_pow).

(** C4 (amended): on an empty fleet the C++ engine, the Haskell module and
    the Fortran procedures raise no error.  Whatever the math library and
    the horizon, the three C++ means and the three Haskell means are NaN,
    all tier counts are zero, and their cascade analyses return the risk
    factor NaN with multiplier 1.0, no expected failure and the lowest risk
    level, every comparison with NaN being false.  Only the cascade analysis
    of the R script stops with an error, and not one about the fleet: its
    [if] finds the comparison of the NaN risk factor to be [NA]. *)
Theorem C4_empty_fleet_outcomes (horizon : float) :
  let mgr := of_sensors (D := float) [] in
  (PrimFloat.is_nan (calculateFleetMTBF mgr) = true
   /\ PrimFloat.is_nan (calculateFleetMTTF mgr) = true
   /\ PrimFloat.is_nan (calculateFleetReliability (libm := platform) mgr horizon) = true
   /\ getSensorStats mgr = mkSensorStats 0 0 0 0
   /\ analyzeCascadeRisk mgr = mkCascadeRisk 0%Z nan 0%Z "LOW" 1%float)
  /\ (Haskell.calculateFleetMetrics (libm := platform) [] horizon
      = Haskell.mkFleetMetrics 0 0 0 0 nan nan nan
      /\ Haskell.analyzeCascadeRisk (D := float) []
         = Haskell.mkCascadeRisk 0%Z nan 0%Z Haskell.Low 1%float)
  /\ (PrimFloat.is_nan
        (Fortran.calculate_fleet_reliability (libm := platform) 0 [] [] horizon) = true
      /\ Fortran.analyze_cascade_risk (D := float) 0 0
         = Fortran.mk_cascade_report nan 1%float 0%Z "LOW")
  /\ RLang.analyze_cascade_risk (D := float) []
     = RLang.stop "missing value where TRUE/FALSE needed".
Proof. vm_compute. repeat apply conj; reflexivity. Qed.

(** The queue in binary64, whatever the math library: at rates 1 and 1 with
    one server the utilisation is exactly 1 and the C++ model returns -1
    where the Haskell function returns [Nothing]. *)
Lemma binary64_unstable_queue :
  let q := Cpp.QueueingModel.new 1%float 1%float 1 in
  Cpp.QueueingModel.isStable q = false
  /\ Cpp.QueueingModel.avgQueueLength (libm := platform) q = (-1)%float
  /\ Cpp.QueueingModel.avgWaitTime (libm := platform) q = (-1)%float
  /\ Haskell.calculateQueueMetrics (libm := platform) 1%float 1%float 1 = None
  /\ Fortran.analyze_maintenance_queue (libm := platform) 1%float 1%float 1
     = (1%float, (-1)%float, (-1)%float).
Proof. vm_compute. repeat apply conj; reflexivity. Qed.

(** Scenario C of the specification in binary64: the Haskell record holds
    the utilisation 11.1, the C++ model 0.111. *)
Lemma binary64_utilization_scenario_C :
  option_map (@Haskell.utilization float)
    (Haskell.calculateQueueMetrics (libm := platform)
       (hundredths 5) (hundredths 15) 3)
  = Some 11.111111111111112%float
  /\ Cpp.QueueingModel.getUtilization
       (Cpp.QueueingModel.new (D := float) (hundredths 5) (hundredths 15) 3)
     = 0.11111111111111113%float
  /\ Cpp.QueueingModel.isStable
       (Cpp.QueueingModel.new (D := float) (hundredths 5) (hundredths 15) 3)
     = true.
Proof. vm_compute. repeat apply conj; reflexivity. Qed.
End Binary64Platform.

(** *** Exact arithmetic: comparisons and evaluation *)

Open Scope R_scope.

Lemma Rltb_true (x y : R) : x < y -> Rltb x y = true.
Proof. intros Hlt. unfold Rltb. destruct (Rlt_dec x y); [reflexivity | lra]. Qed.

Lemma Rltb_false (x y : R) : y <= x -> Rltb x y = false.
Proof. intros Hle. unfold Rltb. destruct (Rlt_dec x y); [lra | reflexivity]. Qed.

Lemma Rleb_true (x y : R) : x <= y -> Rleb x y = true.
Proof. intros Hle. unfold Rleb. destruct (Rle_dec x y); [reflexivity | lra]. Qed.

Lemma Rleb_false (x y : R) : y < x -> Rleb x y = false.
Proof. intros Hlt. unfold Rleb. destruct (Rle_dec x y); [lra | reflexivity]. Qed.

(** Evaluates the program text at [Exact], down to the operations of [R]. *)
Ltac run_exact :=
  cbv -[Rplus Rminus Rmult Rdiv Ropp Rinv exp powerRZ pow IZR INR fact
        Rltb Rleb Rlt_dec Rle_dec Zfloor Zceil
        poisson_term poisson_survival].

Lemma INR_fact_pos (n : nat) : 0 < INR (fact n).
Proof. apply lt_0_INR, lt_O_fact. Qed.

Lemma poisson_term_0 (lambda t : R) : poisson_term lambda t 0 = exp (- (lambda * t)).
Proof. unfold poisson_term. simpl. field. Qed.

Lemma poisson_term_succ (lambda t : R) (i : nat) :
  poisson_term lambda t (Datatypes.S i)
  = poisson_term lambda t i * (lambda * t / INR (Datatypes.S i)).
Proof.
  unfold poisson_term.
  rewrite fact_simpl, mult_INR.
  pose proof (INR_fact_pos i) as Hfact.
  assert (Hsucc : 0 < INR (Datatypes.S i)) by (apply lt_0_INR; lia).
  simpl pow. field. split; lra.
Qed.

(** At time zero only the term of index 0 is left. *)
Lemma poisson_term_at_0 (lambda : R) (i : nat) :
  poisson_term lambda 0 i = match i with O => 1 | _ => 0 end.
Proof.
  unfold poisson_term. rewrite Rmult_0_r, Ropp_0, exp_0.
  destruct i as [|i].
  - simpl. field.
  - rewrite pow_ne_zero by lia. unfold Rdiv. now rewrite Rmult_0_r, Rmult_0_l.
Qed.

Lemma poisson_survival_at_0 (lambda : R) (k : nat) :
  (1 <= k)%nat -> poisson_survival k lambda 0 = 1.
Proof.
  induction k as [|k IH]; intros Hk; [lia|].
  simpl. rewrite poisson_term_at_0.
  destruct k as [|k].
  - simpl. lra.
  - rewrite IH by lia. lra.
Qed.

(** *** The summation loops of the C++ and Fortran Erlang models *)

Lemma IZR_of_nat_succ (n : nat) : IZR (Z.of_nat (Datatypes.S n)) = INR (Datatypes.S n).
Proof. now rewrite INR_IZR_INZ. Qed.

(** After the turns [i = 0 .. n] the C++ loop holds the term of index [n]
    and the sum of the terms up to it. *)
Lemma Cpp_reliability_loop (m : Cpp.ErlangModel.t R) (t : R) (n : nat) :
  for_range 0 (Z.of_nat (Datatypes.S n)) (Cpp.ErlangModel.reliability_step m t)
            (exp (- Cpp.ErlangModel.lambda m * t), 0)
  = (poisson_term (Cpp.ErlangModel.lambda m) t n,
     poisson_survival (Datatypes.S n) (Cpp.ErlangModel.lambda m) t).
Proof.
  induction n as [|n IH].
  - unfold for_range. simpl. rewrite poisson_term_0.
    replace (- Cpp.ErlangModel.lambda m * t)
      with (- (Cpp.ErlangModel.lambda m * t)) by lra.
    reflexivity.
  - rewrite (Nat2Z.inj_succ (Datatypes.S n)), <- Z.add_1_r.
    rewrite for_range_last by lia.
    rewrite IH. unfold Cpp.ErlangModel.reliability_step.
    replace (0 <? Z.of_nat (Datatypes.S n))%Z with true
      by (symmetry; apply Z.ltb_lt; lia).
    cbn [dadd dmul ddiv of_int Exact].
    rewrite IZR_of_nat_succ, <- poisson_term_succ.
    reflexivity.
Qed.

(** What [ErlangModel::reliability] returns: one minus the survival sum. *)
Lemma Cpp_reliability_is_complement (k : Z) (lambda t : R) :
  Cpp.ErlangModel.reliability (Cpp.ErlangModel.make k lambda) t
  = 1 - poisson_survival (Z.to_nat k) lambda t.
Proof.
  unfold Cpp.ErlangModel.reliability.
  cbn [Cpp.ErlangModel.k Cpp.ErlangModel.lambda dsub dmul dneg dexp of_int
       Exact ExactLibm].
  destruct (Z.to_nat k) as [|n] eqn:Hk.
  - rewrite for_range_empty by lia. reflexivity.
  - replace k with (Z.of_nat (Datatypes.S n)) by lia.
    pose proof (Cpp_reliability_loop
                  (Cpp.ErlangModel.make (Z.of_nat (Datatypes.S n)) lambda) t n)
      as Hloop.
    cbn [Cpp.ErlangModel.lambda] in Hloop. rewrite Hloop.
    reflexivity.
Qed.

Lemma Fortran_reliability_loop (lambda t : R) (n : nat) :
  for_range 0 (Z.of_nat (Datatypes.S n)) (Fortran.erlang_reliability_step lambda t)
            (exp (- (lambda * t)), 0)
  = (poisson_term lambda t n, poisson_survival (Datatypes.S n) lambda t).
Proof.
  induction n as [|n IH].
  - unfold for_range. simpl. rewrite poisson_term_0. reflexivity.
  - rewrite (Nat2Z.inj_succ (Datatypes.S n)), <- Z.add_1_r.
    rewrite for_range_last by lia.
    rewrite IH. unfold Fortran.erlang_reliability_step.
    replace (0 <? Z.of_nat (Datatypes.S n))%Z with true
      by (symmetry; apply Z.ltb_lt; lia).
    cbn [dadd dmul ddiv of_int Exact].
    rewrite IZR_of_nat_succ.
    change (poisson_survival (Datatypes.S (Datatypes.S n)) lambda t)
      with (poisson_survival (Datatypes.S n) lambda t
            + poisson_term lambda t (Datatypes.S n)).
    rewrite poisson_term_succ.
    replace (poisson_term lambda t n * (lambda * t) / INR (Datatypes.S n))
      with (poisson_term lambda t n * (lambda * t / INR (Datatypes.S n)))
      by (unfold Rdiv; ring).
    reflexivity.
Qed.

(** What the Fortran [erlang_reliability] returns: the same complement. *)
Lemma Fortran_reliability_is_complement (k : Z) (lambda t : R) :
  Fortran.erlang_reliability k lambda t
  = 1 - poisson_survival (Z.to_nat k) lambda t.
Proof.
  unfold Fortran.erlang_reliability, do_range.
  cbn [dsub dmul dneg dexp of_int Exact ExactLibm].
  destruct (Z.to_nat k) as [|n] eqn:Hk.
  - rewrite for_range_empty by lia. reflexivity.
  - replace (k - 1 + 1)%Z with (Z.of_nat (Datatypes.S n)) by lia.
    rewrite Fortran_reliability_loop. reflexivity.
Qed.

(** *** The Haskell Erlang model *)

Lemma enumFromTo_empty (lo hi : Z) : (hi < lo)%Z -> Haskell.enumFromTo lo hi = [].
Proof.
  intros Hlt. unfold Haskell.enumFromTo.
  replace (Z.to_nat (hi - lo + 1)) with O by lia. reflexivity.
Qed.

Lemma enumFromTo_snoc (lo hi : Z) :
  (lo <= hi + 1)%Z ->
  Haskell.enumFromTo lo (hi + 1) = Haskell.enumFromTo lo hi ++ [(hi + 1)%Z].
Proof.
  intros Hle. unfold Haskell.enumFromTo.
  replace (Z.to_nat (hi + 1 - lo + 1)) with (Datatypes.S (Z.to_nat (hi - lo + 1))) by lia.
  rewrite seq_S, map_app. simpl. do 2 f_equal. lia.
Qed.

Lemma Haskell_sum_snoc (xs : list R) (x : R) :
  Haskell.sum (xs ++ [x]) = Haskell.sum xs + x.
Proof. unfold Haskell.sum. now rewrite fold_left_app. Qed.

Lemma Haskell_product_snoc (xs : list R) (x : R) :
  Haskell.product (xs ++ [x]) = Haskell.product xs * x.
Proof. unfold Haskell.product. now rewrite fold_left_app. Qed.

Lemma Haskell_factorial_nat (n : nat) : Haskell.factorial (Z.of_nat n) = INR (fact n).
Proof.
  unfold Haskell.factorial.
  induction n as [|n IH].
  - rewrite enumFromTo_empty by lia. reflexivity.
  - rewrite Nat2Z.inj_succ, <- Z.add_1_r.
    rewrite enumFromTo_snoc by lia.
    rewrite map_app. cbn [map].
    rewrite Haskell_product_snoc, IH.
    cbn [dmul of_int Exact].
    rewrite Z.add_1_r, <- Nat2Z.inj_succ, IZR_of_nat_succ.
    rewrite fact_simpl, mult_INR. ring.
Qed.

Lemma Haskell_erlang_sum (lambda t : R) (n : nat) :
  Haskell.sum
    (map (fun i => (dexp (- (lambda * t)) * dpow (lambda * t) i
                    / Haskell.factorial i)%D)
         (Haskell.enumFromTo 0 (Z.of_nat n - 1)))
  = poisson_survival n lambda t.
Proof.
  induction n as [|n IH].
  - rewrite enumFromTo_empty by lia. reflexivity.
  - replace (Z.of_nat (Datatypes.S n) - 1)%Z with (Z.of_nat n - 1 + 1)%Z by lia.
    rewrite enumFromTo_snoc by lia.
    rewrite map_app. cbn [map].
    rewrite Haskell_sum_snoc, IH.
    replace (Z.of_nat n - 1 + 1)%Z with (Z.of_nat n) by lia.
    rewrite Haskell_factorial_nat.
    cbn [dmul ddiv dneg dexp dpow Exact ExactLibm].
    rewrite <- pow_powerRZ. reflexivity.
Qed.

(** The Haskell [erlangReliability] returns the survival sum itself. *)
Lemma Haskell_erlangReliability_is_survival (k : Z) (lambda t : R) :
  0 <= t ->
  Haskell.erlangReliability k lambda t = poisson_survival (Z.to_nat k) lambda t.
Proof.
  intros Ht. unfold Haskell.erlangReliability, Haskell.erlangCDF.
  cbn [dltb dsub of_int Exact].
  rewrite Rltb_false by exact Ht.
  destruct (Z.to_nat k) as [|n] eqn:Hk.
  - rewrite enumFromTo_empty by lia.
    unfold Haskell.sum. cbn [map fold_left of_int Exact poisson_survival]. lra.
  - replace (k - 1)%Z with (Z.of_nat (Datatypes.S n) - 1)%Z by lia.
    rewrite Haskell_erlang_sum. lra.
Qed.

(** *** The value of [exp (-1/2)]

    Scenario B of the specification evaluates the survival function at
    [lambda t = 1/2].  The bounds come from [1 + x <= exp x] at
    [x = -1/16384] and [x = 1/16384] and thirteen squarings, each rounded
    outwards at fifteen decimals. *)

Lemma exp_square_bounds (x x' a b a' b' : R) :
  x' = 2 * x -> 0 <= a -> a' <= a * a -> b * b <= b' ->
  a <= exp x <= b -> a' <= exp x' <= b'.
Proof.
  intros -> Ha Ha' Hb' [Hlo Hhi].
  replace (2 * x) with (x + x) by lra. rewrite exp_plus.
  pose proof (exp_pos x) as Hpos.
  split; nra.
Qed.

Lemma exp_minus_half_bounds : 0.60652 <= exp (- (1 / 2)) <= 0.60654.
Proof.
  apply (exp_square_bounds (- (1 / 4)) _ 0.778794841072377 0.778806724632676 _ _);
    [lra | lra | lra | lra | ].
  apply (exp_square_bounds (- (1 / 8)) _ 0.882493535994671 0.882500268913656 _ _);
    [lra | lra | lra | lra | ].
  apply (exp_square_bounds (- (1 / 16)) _ 0.939411270953607 0.939414854531083 _ _);
    [lra | lra | lra | lra | ].
  apply (exp_square_bounds (- (1 / 32)) _ 0.969232310106100 0.969234158772318 _ _);
    [lra | lra | lra | lra | ].
  apply (exp_square_bounds (- (1 / 64)) _ 0.984495967541818 0.984496906431055 _ _);
    [lra | lra | lra | lra | ].
  apply (exp_square_bounds (- (1 / 128)) _ 0.992217701687396 0.992218174813914 _ _);
    [lra | lra | lra | lra | ].
  apply (exp_square_bounds (- (1 / 256)) _ 0.996101250720727 0.996101488209868 _ _);
    [lra | lra | lra | lra | ].
  apply (exp_square_bounds (- (1 / 512)) _ 0.998048721616699 0.998048840593419 _ _);
    [lra | lra | lra | lra | ].
  apply (exp_square_bounds (- (1 / 1024)) _ 0.999023884407525 0.999023943954007 _ _);
    [lra | lra | lra | lra | ].
  apply (exp_square_bounds (- (1 / 2048)) _ 0.999511823045393 0.999511852833175 _ _);
    [lra | lra | lra | lra | ].
  apply (exp_square_bounds (- (1 / 4096)) _ 0.999755881725831 0.999755896623358 _ _);
    [lra | lra | lra | lra | ].
  apply (exp_square_bounds (- (1 / 8192)) _ 0.999877933412790 0.999877940862462 _ _);
    [lra | lra | lra | lra | ].
  apply (exp_square_bounds (- (1 / 16384)) _ 0.999938964843750 0.999938968568813 _ _);
    [lra | lra | lra | lra | ].
  split.
  - pose proof (exp_ineq1_le (- (1 / 16384))). lra.
  - rewrite exp_Ropp.
    pose proof (exp_ineq1_le (1 / 16384)) as Hexp.
    apply Rle_trans with (/ (1 + 1 / 16384)).
    + apply Rinv_le_contravar; lra.
    + lra.
Qed.

(** *** The Erlang survival function (claims C1, C2, C5) *)

Lemma poisson_survival_scenario_B :
  poisson_survival 3 0.0005 1000 = 13 / 8 * exp (- (1 / 2)).
Proof.
  unfold poisson_survival, poisson_term.
  replace (0.0005 * 1000) with (1 / 2) by lra.
  simpl. field.
Qed.

(** C1: scenario B, [k = 3], [lambda = 0.0005], [t = 1000].  The survival
    sum of the specification is 0.9856 to four decimals, and the Haskell
    [erlangReliability] returns it.  [ErlangModel::reliability] and the
    Fortran [erlang_reliability] return one minus that sum, 0.0144: the
    failure probability. *)
Theorem C1_reliability_at_scenario_B :
  let cpp := Cpp.ErlangModel.reliability (Cpp.ErlangModel.make 3 0.0005) 1000 in
  let f90 := Fortran.erlang_reliability 3 0.0005 1000 in
  let hs := Haskell.erlangReliability 3 0.0005 1000 in
  let survival := poisson_survival 3 0.0005 1000 in
  0.98559 < survival < 0.98563
  /\ hs = survival
  /\ cpp = 1 - survival
  /\ f90 = 1 - survival
  /\ 0.01437 < cpp < 0.01441
  /\ 0.01437 < f90 < 0.01441.
Proof.
  intros cpp f90 hs survival.
  assert (Hcpp : cpp = 1 - survival)
    by (subst cpp survival; now rewrite Cpp_reliability_is_complement).
  assert (Hf90 : f90 = 1 - survival)
    by (subst f90 survival; now rewrite Fortran_reliability_is_complement).
  assert (Hhs : hs = survival)
    by (subst hs survival; rewrite Haskell_erlangReliability_is_survival; [reflexivity | lra]).
  assert (Hsurvival : 0.98559 < survival < 0.98563).
  { subst survival. rewrite poisson_survival_scenario_B.
    pose proof exp_minus_half_bounds. lra. }
  rewrite Hcpp, Hf90. repeat apply conj; try assumption; lra.
Qed.

(** C2: the Erlang model with one stage against the Exponential model of the
    same rate.  In C++ the mean times and the densities agree, but
    [ErlangModel::reliability] is one minus [ExponentialModel::reliability],
    as in Fortran; at [lambda = 1], [t = 0] they are 0 and 1.  The Haskell
    [erlangReliability 1] is the exponential reliability from time zero
    on. *)
Theorem C2_one_stage_erlang_against_exponential (lambda t : R) :
  let erlang := Cpp.ErlangModel.make 1 lambda in
  let exponential := Cpp.ExponentialModel.make lambda in
  Cpp.ErlangModel.mttf erlang = Cpp.ExponentialModel.mtbf exponential
  /\ Cpp.ErlangModel.pdf erlang t = Cpp.ExponentialModel.pdf exponential t
  /\ Cpp.ErlangModel.reliability erlang t
     = 1 - Cpp.ExponentialModel.reliability exponential t
  /\ Fortran.erlang_reliability 1 lambda t
     = 1 - Fortran.exponential_reliability lambda t
  /\ Haskell.erlangReliability 1 lambda t
     = (if Rltb t 0 then 1 else Haskell.exponentialReliability lambda t)
  /\ Haskell.erlangMTTF 1 lambda = Haskell.exponentialMTBF lambda
  /\ Cpp.ErlangModel.reliability (Cpp.ErlangModel.make 1 1) 0 = 0
  /\ Cpp.ExponentialModel.reliability (Cpp.ExponentialModel.make 1) 0 = 1.
Proof.
  intros erlang exponential. subst erlang exponential.
  repeat apply conj.
  - reflexivity.
  - run_exact. rewrite powerRZ_1, powerRZ_O. field.
  - run_exact. lra.
  - run_exact. lra.
  - unfold Haskell.erlangReliability, Haskell.erlangCDF.
    cbn [dltb of_int Exact].
    destruct (Rltb t 0); run_exact; rewrite ?powerRZ_O; lra.
  - reflexivity.
  - run_exact. rewrite Rmult_0_r, exp_0. lra.
  - run_exact. rewrite Rmult_0_r, exp_0. reflexivity.
Qed.

(** C5: reliability at time zero.  The exponential models return 1, and so
    does the Haskell Erlang model; [ErlangModel::reliability] and the Fortran
    [erlang_reliability] return 0 for every stage count from one on. *)
Theorem C5_reliability_at_time_zero (k : Z) (lambda : R) :
  (1 <= k)%Z ->
  Cpp.ExponentialModel.reliability (Cpp.ExponentialModel.make lambda) 0 = 1
  /\ Fortran.exponential_reliability lambda 0 = 1
  /\ Haskell.exponentialReliability lambda 0 = 1
  /\ Haskell.erlangReliability k lambda 0 = 1
  /\ Cpp.ErlangModel.reliability (Cpp.ErlangModel.make k lambda) 0 = 0
  /\ Fortran.erlang_reliability k lambda 0 = 0.
Proof.
  intros Hk.
  assert (Hsum : poisson_survival (Z.to_nat k) lambda 0 = 1)
    by (apply poisson_survival_at_0; lia).
  repeat apply conj.
  - run_exact. rewrite Rmult_0_r, exp_0. reflexivity.
  - run_exact. rewrite Rmult_0_r, Ropp_0, exp_0. reflexivity.
  - run_exact. rewrite Rmult_0_r, Ropp_0, exp_0. reflexivity.
  - rewrite Haskell_erlangReliability_is_survival by lra. exact Hsum.
  - rewrite Cpp_reliability_is_complement, Hsum. lra.
  - rewrite Fortran_reliability_is_complement, Hsum. lra.
Qed.

(** C5 at three stages and the rate 0.0005. *)
Lemma C5_reliability_at_time_zero_witness :
  (1 <= 3)%Z
  /\ Cpp.ExponentialModel.reliability (Cpp.ExponentialModel.make 0.0005) 0 = 1
  /\ Cpp.ErlangModel.reliability (Cpp.ErlangModel.make 3 0.0005) 0 = 0
  /\ Fortran.erlang_reliability 3 0.0005 0 = 0.
Proof.
  assert (Hk : (1 <= 3)%Z) by lia.
  destruct (C5_reliability_at_time_zero 3 0.0005 Hk)
    as [Hexp [_ [_ [_ [Hcpp Hf90]]]]].
  repeat apply conj; assumption.
Defined.

(** *** The maintenance queue (claims C3, C10) *)

(** C3, as the claim states it, fails for the C++ engine: at arrival rate 1,
    service rate 1 and one server the utilisation is 1 and
    [avgQueueLength] returns the number -1. *)
Lemma C3_cpp_returns_the_sentinel :
  ~ (forall (a s : R) (c : Z),
        0 < a -> 0 < s -> (1 <= c)%Z -> 1 <= a / (IZR c * s) ->
        Cpp.QueueingModel.avgQueueLength (Cpp.QueueingModel.new a s c) <> -1).
Proof.
  intros Hclaim.
  apply (Hclaim 1 1 1%Z); try lra; try lia.
  run_exact. rewrite Rltb_false by lra. reflexivity.
Qed.

(** C3 (amended): when the utilisation is 1 or more, the Haskell
    [calculateQueueMetrics] returns [Nothing]; the C++ model answers
    [isStable] with false and returns -1 from [avgQueueLength] and
    [avgWaitTime]; the Fortran procedure returns the utilisation with -1 for
    the queue length and for the wait. *)
Theorem C3_unstable_queue (a s : R) (c : Z) :
  1 <= a / (IZR c * s) ->
  let q := Cpp.QueueingModel.new a s c in
  Haskell.calculateQueueMetrics a s c = None
  /\ Cpp.QueueingModel.isStable q = false
  /\ Cpp.QueueingModel.avgQueueLength q = -1
  /\ Cpp.QueueingModel.avgWaitTime q = -1
  /\ Fortran.analyze_maintenance_queue a s c = (a / (IZR c * s), -1, -1).
Proof.
  intros Hrho q.
  assert (Hstable : Cpp.QueueingModel.isStable q = false).
  { unfold Cpp.QueueingModel.isStable. subst q.
    cbn [Cpp.QueueingModel.rho Cpp.QueueingModel.new dltb ddiv dmul of_int Exact].
    now apply Rltb_false. }
  repeat apply conj.
  - unfold Haskell.calculateQueueMetrics.
    cbn [dleb ddiv dmul of_int Exact].
    now rewrite Rleb_true.
  - exact Hstable.
  - unfold Cpp.QueueingModel.avgQueueLength. rewrite Hstable. reflexivity.
  - unfold Cpp.QueueingModel.avgWaitTime. rewrite Hstable. reflexivity.
  - unfold Fortran.analyze_maintenance_queue.
    cbn [dleb ddiv dmul dneg of_int Exact].
    now rewrite Rleb_true.
Qed.

(** C3 at arrival rate 0.5, service rate 0.15 and three servers, where the
    utilisation is 1.11. *)
Lemma C3_unstable_queue_witness :
  1 <= 0.5 / (IZR 3 * 0.15)
  /\ Haskell.calculateQueueMetrics 0.5 0.15 3 = None
  /\ Cpp.QueueingModel.avgQueueLength (Cpp.QueueingModel.new 0.5 0.15 3) = -1
  /\ Cpp.QueueingModel.avgWaitTime (Cpp.QueueingModel.new 0.5 0.15 3) = -1.
Proof.
  assert (Hrho : 1 <= 0.5 / (IZR 3 * 0.15)) by lra.
  destruct (C3_unstable_queue 0.5 0.15 3 Hrho) as [Hhs [_ [Hlq [Hwq _]]]].
  repeat apply conj; assumption.
Defined.

(** C10: for a stable queue the Haskell record carries the utilisation as
    a percentage, one hundred times the fraction [rho] the C++ and Fortran
    versions report; the two differ whenever [rho] is positive. *)
Theorem C10_utilization_percentage_and_fraction (a s : R) (c : Z) :
  let rho := a / (IZR c * s) in
  rho < 1 ->
  exists m : Haskell.QueueMetrics R,
    Haskell.calculateQueueMetrics a s c = Some m
    /\ Haskell.utilization m = 100 * rho
    /\ Cpp.QueueingModel.isStable (Cpp.QueueingModel.new a s c) = true
    /\ Cpp.QueueingModel.getUtilization (Cpp.QueueingModel.new a s c) = rho
    /\ Haskell.utilization m
       = 100 * Cpp.QueueingModel.getUtilization (Cpp.QueueingModel.new a s c)
    /\ (0 < rho ->
        Haskell.utilization m
        <> Cpp.QueueingModel.getUtilization (Cpp.QueueingModel.new a s c)).
Proof.
  intros rho Hrho. subst rho.
  unfold Haskell.calculateQueueMetrics.
  cbn [dleb ddiv dmul dsub dadd of_int Exact].
  rewrite Rleb_false by exact Hrho.
  eexists. split; [reflexivity|].
  cbn [Haskell.utilization].
  unfold Cpp.QueueingModel.isStable, Cpp.QueueingModel.getUtilization.
  cbn [Cpp.QueueingModel.rho Cpp.QueueingModel.new dltb ddiv dmul of_int Exact].
  repeat apply conj.
  - ring.
  - now apply Rltb_true.
  - reflexivity.
  - ring.
  - intros Hpos. lra.
Qed.

(** C10 at scenario C: arrival rate 0.05, service rate 0.15, three servers. *)
Lemma C10_utilization_percentage_and_fraction_witness :
  0.05 / (IZR 3 * 0.15) < 1
  /\ exists m : Haskell.QueueMetrics R,
       Haskell.calculateQueueMetrics 0.05 0.15 3 = Some m
       /\ Haskell.utilization m = 100 * (0.05 / (IZR 3 * 0.15))
       /\ Cpp.QueueingModel.getUtilization (Cpp.QueueingModel.new 0.05 0.15 3)
          = 0.05 / (IZR 3 * 0.15).
Proof.
  assert (Hrho : 0.05 / (IZR 3 * 0.15) < 1) by lra.
  split; [exact Hrho|].
  destruct (C10_utilization_percentage_and_fraction 0.05 0.15 3 Hrho)
    as [m [Hsome [Hpercent [_ [Hfraction _]]]]].
  exists m. repeat apply conj; assumption.
Defined.

(** *** Rates that are not positive (claim C8) *)

(** C8, as the claim states it, fails: with the rate -1 the exponential
    model returns the mean time -1, the reliability [e] at time 1 and the
    density [-e]; the Erlang model with three stages returns the mean time
    -3.  With the rate 0 the double division gives an infinite mean time. *)
Lemma C8_nonpositive_rate_is_evaluated :
  Cpp.ExponentialModel.mtbf (Cpp.ExponentialModel.make (-1)) = -1
  /\ Cpp.ExponentialModel.reliability (Cpp.ExponentialModel.make (-1)) 1 = exp 1
  /\ Cpp.ExponentialModel.pdf (Cpp.ExponentialModel.make (-1)) 1 = - exp 1
  /\ Haskell.exponentialReliability (-1) 1 = exp 1
  /\ Haskell.exponentialMTBF (-1) = -1
  /\ Cpp.ErlangModel.mttf (Cpp.ErlangModel.make 3 (-1)) = -3
  /\ Cpp.ExponentialModel.mtbf (Cpp.ExponentialModel.make 0%float) = infinity
  /\ Haskell.exponentialMTBF 0%float = infinity.
Proof.
  repeat apply conj; try (vm_compute; reflexivity); run_exact.
  - lra.
  - f_equal. lra.
  - replace (- -1 * 1) with 1 by lra. lra.
  - f_equal. lra.
  - lra.
  - lra.
Qed.

(** C8 (amended): no implementation checks the rate.  For a rate that is
    zero or negative and a time from zero on, the exponential models return
    the reliability [exp (- lambda t)], which is at least 1, the hazard rate
    [lambda] and the density [lambda exp (- lambda t)], which is at most 0;
    the mean times are the quotients [1 / lambda] and [k / lambda]. *)
Theorem C8_rate_is_not_validated (lambda t : R) (k : Z) :
  lambda <= 0 -> 0 <= t ->
  let m := Cpp.ExponentialModel.make lambda in
  (Cpp.ExponentialModel.reliability m t = exp (- lambda * t)
   /\ 1 <= Cpp.ExponentialModel.reliability m t
   /\ Cpp.ExponentialModel.hazardRate m = lambda
   /\ Cpp.ExponentialModel.mtbf m = 1 / lambda
   /\ Cpp.ExponentialModel.pdf m t = lambda * exp (- lambda * t)
   /\ Cpp.ExponentialModel.pdf m t <= 0)
  /\ (Haskell.exponentialReliability lambda t = exp (- (lambda * t))
      /\ 1 <= Haskell.exponentialReliability lambda t
      /\ Haskell.exponentialMTBF lambda = 1 / lambda)
  /\ (Fortran.exponential_reliability lambda t = exp (- (lambda * t))
      /\ Fortran.exponential_mtbf lambda = 1 / lambda)
  /\ Cpp.ErlangModel.mttf (Cpp.ErlangModel.make k lambda) = IZR k / lambda
  /\ Haskell.erlangMTTF k lambda = IZR k / lambda
  /\ Fortran.erlang_mttf k lambda = IZR k / lambda.
Proof.
  intros Hlambda Ht m. subst m.
  assert (Hge : 1 <= exp (- lambda * t)).
  { pose proof (exp_ineq1_le (- lambda * t)). nra. }
  assert (Hge' : 1 <= exp (- (lambda * t))).
  { replace (- (lambda * t)) with (- lambda * t) by lra. exact Hge. }
  repeat apply conj; try reflexivity; run_exact; try assumption.
  nra.
Qed.

(** C8 at the rate -1 and the time 1. *)
Lemma C8_rate_is_not_validated_witness :
  -1 <= 0 /\ 0 <= 1
  /\ Cpp.ExponentialModel.reliability (Cpp.ExponentialModel.make (-1)) 1
     = exp (- -1 * 1)
  /\ 1 <= Cpp.ExponentialModel.reliability (Cpp.ExponentialModel.make (-1)) 1
  /\ Cpp.ExponentialModel.mtbf (Cpp.ExponentialModel.make (-1)) = 1 / -1.
Proof.
  assert (Hlambda : -1 <= 0) by lra.
  assert (Ht : 0 <= 1) by lra.
  destruct (C8_rate_is_not_validated (-1) 1 3 Hlambda Ht)
    as [[Hrel [Hge [_ [Hmtbf _]]]] _].
  repeat apply conj; assumption.
Defined.

(** *** The failed tier and the cascade count in exact arithmetic *)

Lemma filter_length_le {A : Type} (p q : A -> bool) (l : list A) :
  (forall x, p x = true -> q x = true) ->
  (List.length (filter p l) <= List.length (filter q l))%nat.
Proof.
  intros Himp. induction l as [|x l IH]; cbn [filter]; [lia|].
  destruct (p x) eqn:Hp.
  - rewrite (Himp x Hp). cbn [List.length]. lia.
  - destruct (q x); cbn [List.length]; lia.
Qed.

(** For every fleet, [getSensorStats] counts as failed the sensors with
    health at most 30, while [analyzeCascadeRisk] counts those with health
    below 30; the second count can only be the smaller one. *)
Lemma Cpp_failed_tier_and_cascade_count (fleet : list (Sensor R)) :
  let mgr := Cpp.FleetReliabilityManager.of_sensors fleet in
  Cpp.FleetReliabilityManager.failed
    (Cpp.FleetReliabilityManager.getSensorStats mgr)
  = Z.of_nat (List.length (filter (fun s => Rleb (health s) 30) fleet))
  /\ Cpp.FleetReliabilityManager.currentFailures
       (Cpp.FleetReliabilityManager.analyzeCascadeRisk mgr)
     = Z.of_nat (List.length (filter (fun s => Rltb (health s) 30) fleet))
  /\ (Cpp.FleetReliabilityManager.currentFailures
        (Cpp.FleetReliabilityManager.analyzeCascadeRisk mgr)
      <= Cpp.FleetReliabilityManager.failed
           (Cpp.FleetReliabilityManager.getSensorStats mgr))%Z.
Proof.
  intros mgr.
  assert (Hfailed :
    Cpp.FleetReliabilityManager.failed
      (Cpp.FleetReliabilityManager.getSensorStats mgr)
    = Z.of_nat (List.length (filter (fun s => Rleb (health s) 30) fleet))).
  { rewrite getSensorStats_failed. subst mgr. rewrite sensors_of_sensors.
    do 2 f_equal. apply filter_ext. intros s.
    cbn [dltb of_int Exact]. unfold Rltb, Rleb.
    destruct (Rlt_dec 70 (health s)), (Rlt_dec 30 (health s)),
             (Rle_dec (health s) 30); cbn; try reflexivity; lra. }
  assert (Hcount :
    Cpp.FleetReliabilityManager.currentFailures
      (Cpp.FleetReliabilityManager.analyzeCascadeRisk mgr)
    = Z.of_nat (List.length (filter (fun s => Rltb (health s) 30) fleet))).
  { cbn [Cpp.FleetReliabilityManager.currentFailures
         Cpp.FleetReliabilityManager.analyzeCascadeRisk].
    rewrite countCurrentFailures_filter. subst mgr. rewrite sensors_of_sensors.
    reflexivity. }
  repeat apply conj; [exact Hfailed | exact Hcount |].
  rewrite Hfailed, Hcount. apply Nat2Z.inj_le, filter_length_le.
  intros s. unfold Rltb, Rleb.
  destruct (Rlt_dec (health s) 30), (Rle_dec (health s) 30);
    try reflexivity; try discriminate; lra.
Qed.

(** *** The cascade thresholds in exact arithmetic *)

(** The conversions of [Exact] at one and a half and around it. *)
Lemma Exact_conversions :
  Rtruncate (3 / 2) = 1%Z /\ Rround_even (3 / 2) = 2%Z
  /\ Rtruncate (5 / 2) = 2%Z /\ Rround_even (5 / 2) = 2%Z
  /\ Rtruncate (- (3 / 2)) = (-1)%Z /\ Rround_even (7 / 4) = 2%Z.
Proof.
  assert (H1 : Zfloor (3 / 2) = 1%Z) by (apply Zfloor_eq; simpl; lra).
  assert (H2 : Zfloor (5 / 2) = 2%Z) by (apply Zfloor_eq; simpl; lra).
  assert (H3 : Zfloor (7 / 4) = 1%Z) by (apply Zfloor_eq; simpl; lra).
  unfold Rtruncate, Rround_even.
  rewrite ZceilN, H1, H2, H3.
  repeat apply conj.
  - destruct (Rle_dec 0 (3 / 2)); [reflexivity | lra].
  - destruct (Rlt_dec (3 / 2 - 1) (1 / 2)); [lra|].
    destruct (Rlt_dec (1 / 2) (3 / 2 - 1)); [lra | reflexivity].
  - destruct (Rle_dec 0 (5 / 2)); [reflexivity | lra].
  - destruct (Rlt_dec (5 / 2 - 2) (1 / 2)); [lra|].
    destruct (Rlt_dec (1 / 2) (5 / 2 - 2)); [lra | reflexivity].
  - destruct (Rle_dec 0 (- (3 / 2))); [lra | reflexivity].
  - destruct (Rlt_dec (7 / 4 - 1) (1 / 2)); [lra|].
    destruct (Rlt_dec (1 / 2) (7 / 4 - 1)); [reflexivity | lra].
Qed.

(** Every threshold of the cascade analysis is tested with [>]: a risk
    factor equal to a threshold stays in the lower tier.  Stated on the
    Fortran procedure, which takes the two counts. *)
Lemma Fortran_thresholds_are_strict (n_failed n_total : Z) :
  let risk := IZR n_failed / IZR n_total in
  let report := Fortran.analyze_cascade_risk n_failed n_total in
  Fortran.risk_factor report = risk
  /\ (risk <= 1 / 10 -> Fortran.dep_mult report = 1)
  /\ (1 / 10 < risk <= 2 / 10 -> Fortran.dep_mult report = 12 / 10)
  /\ (2 / 10 < risk -> Fortran.dep_mult report = 15 / 10)
  /\ (risk <= 8 / 100 -> Fortran.risk_level report = "LOW"%string)
  /\ (8 / 100 < risk <= 15 / 100 -> Fortran.risk_level report = "MEDIUM"%string)
  /\ (15 / 100 < risk -> Fortran.risk_level report = "HIGH"%string).
Proof.
  intros risk report. subst report.
  unfold Fortran.analyze_cascade_risk, tenths, hundredths.
  cbn [Fortran.risk_factor Fortran.dep_mult Fortran.risk_level
       dltb ddiv of_int Exact].
  fold risk.
  repeat apply conj; try reflexivity; intros Hrisk.
  - rewrite !Rltb_false by lra. reflexivity.
  - rewrite Rltb_false by lra. rewrite Rltb_true by lra. lra.
  - rewrite Rltb_true by lra. lra.
  - rewrite !Rltb_false by lra. reflexivity.
  - rewrite Rltb_false by lra. rewrite Rltb_true by lra. reflexivity.
  - rewrite Rltb_true by lra. reflexivity.
Qed.

(** ** Further properties of the engine *)

(** *** The fleet manager and the health tiers *)

Section ManagerInvariants.
Context {D : Type} {num : Double D}.
Import Cpp.FleetReliabilityManager.

(** X1: however many sensors are added to a fresh manager, its three
    vectors stay aligned: they have the same length, and the models at
    position [i] are built from the rate and the stage count of the sensor
    at position [i]. *)
Theorem addSensor_keeps_the_vectors_aligned (fleet : list (Sensor D)) :
  let mgr := of_sensors fleet in
  sensors mgr = fleet
  /\ exponentialModels mgr
     = map (fun s => Cpp.ExponentialModel.make (failureRate s)) (sensors mgr)
  /\ erlangModels mgr
     = map (fun s => Cpp.ErlangModel.make (kStages s) (failureRate s)) (sensors mgr)
  /\ List.length (exponentialModels mgr) = List.length (sensors mgr)
  /\ List.length (erlangModels mgr) = List.length (sensors mgr).
Proof.
  intros mgr. subst mgr. unfold of_sensors.
  rewrite fold_addSensor_sensors, fold_addSensor_exponentialModels,
    fold_addSensor_erlangModels.
  cbn [sensors exponentialModels erlangModels empty app].
  rewrite !length_map. repeat apply conj; reflexivity.
Qed.

(** The state of the tier loop after the sensors [l], started from [st]. *)
Lemma tier_loop_counts (l : list (Sensor D)) :
  forall st : SensorStats,
    let st' :=
      fold_left
        (fun stats sensor =>
           let health := health sensor in
           if (health >? of_int 70)%D then
             mkSensorStats (total stats) (active stats + 1)
                           (warning stats) (failed stats)
           else if (health >? of_int 30)%D then
             mkSensorStats (total stats) (active stats)
                           (warning stats + 1) (failed stats)
           else
             mkSensorStats (total stats) (active stats)
                           (warning stats) (failed stats + 1))
        l st in
    total st' = total st
    /\ active st'
       = (active st
          + Z.of_nat (List.length (filter (fun s => (health s >? of_int 70)%D) l)))%Z
    /\ warning st'
       = (warning st
          + Z.of_nat
              (List.length
                 (filter (fun s => negb (health s >? of_int 70)%D
                                   && (health s >? of_int 30)%D) l)))%Z
    /\ failed st'
       = (failed st
          + Z.of_nat
              (List.length
                 (filter (fun s => negb (health s >? of_int 70)%D
                                   && negb (health s >? of_int 30)%D) l)))%Z.
Proof.
  induction l as [|s l IH]; intros st; cbn [fold_left filter].
  - cbn [List.length]. repeat apply conj; lia.
  - cbv zeta in IH |- *.
    destruct (health s >? of_int 70)%D eqn:H70;
      [|destruct (health s >? of_int 30)%D eqn:H30];
      cbn [negb andb];
      match goal with
      | |- context [fold_left _ l ?st0] => destruct (IH st0) as [Ht [Ha [Hw Hf]]]
      end;
      rewrite Ht, Ha, Hw, Hf; cbn [total active warning failed List.length];
      repeat apply conj; lia.
Qed.

(** The counts of [getSensorStats], as filters of the sensors. *)
Lemma getSensorStats_filters (mgr : Cpp.FleetReliabilityManager.t D) :
  let stats := getSensorStats mgr in
  total stats = Z.of_nat (List.length (sensors mgr))
  /\ active stats
     = Z.of_nat (List.length (filter (fun s => (health s >? of_int 70)%D) (sensors mgr)))
  /\ warning stats
     = Z.of_nat
         (List.length
            (filter (fun s => negb (health s >? of_int 70)%D
                              && (health s >? of_int 30)%D) (sensors mgr)))
  /\ failed stats
     = Z.of_nat
         (List.length
            (filter (fun s => negb (health s >? of_int 70)%D
                              && negb (health s >? of_int 30)%D) (sensors mgr))).
Proof.
  intros stats. subst stats. unfold getSensorStats.
  cbn [active warning failed].
  match goal with
  | |- context [fold_left ?f (sensors mgr) ?st0] =>
      destruct (tier_loop_counts (sensors mgr) st0) as [Ht [Ha [Hw Hf]]]
  end.
  cbv zeta in Ht, Ha, Hw, Hf.
  rewrite Ht, Ha, Hw, Hf. cbn [total active warning failed].
  repeat apply conj; lia.
Qed.

(** X2: [getSensorStats] puts every sensor in exactly one tier: the three
    counts are non-negative and add up to [total], the number of sensors.
    This holds for any doubles, NaN included, because the tiers are the
    branches of one [if / else if / else]. *)
Theorem getSensorStats_counts_add_up (mgr : Cpp.FleetReliabilityManager.t D) :
  let stats := getSensorStats mgr in
  total stats = Z.of_nat (List.length (sensors mgr))
  /\ (active stats + warning stats + failed stats = total stats)%Z
  /\ (0 <= active stats)%Z /\ (0 <= warning stats)%Z /\ (0 <= failed stats)%Z.
Proof.
  intros stats. subst stats. unfold getSensorStats.
  cbn [active warning failed].
  match goal with
  | |- context [fold_left ?f (sensors mgr) ?st0] =>
      destruct (tier_loop_counts (sensors mgr) st0) as [Ht [Ha [Hw Hf]]]
  end.
  cbv zeta in Ht, Ha, Hw, Hf.
  rewrite Ht, Ha, Hw, Hf. cbn [total active warning failed].
  assert (Hsplit : forall l : list (Sensor D),
    (List.length (filter (fun s => (health s >? of_int 70)%D) l)
     + List.length (filter (fun s => negb (health s >? of_int 70)%D
                                     && (health s >? of_int 30)%D) l)
     + List.length (filter (fun s => negb (health s >? of_int 70)%D
                                     && negb (health s >? of_int 30)%D) l)
     = List.length l)%nat).
  { induction l as [|s l IH]; [reflexivity|]. cbn [filter].
    destruct (health s >? of_int 70)%D, (health s >? of_int 30)%D;
      cbn [negb andb List.length]; lia. }
  specialize (Hsplit (sensors mgr)).
  repeat apply conj; lia.
Qed.
End ManagerInvariants.

Section FortranArrays.
Context {D : Type} {num : Double D}.

(** A Fortran loop [do i = 1, n] that reads [arr(i)] at each turn is a left
    fold over the first [n] entries of the array. *)
Lemma iterate_from_elements {St : Type} (f : D -> St -> St) (l : list D) :
  forall (pre : list D) (s : St),
    iterate_from (List.length l) (Z.of_nat (List.length pre) + 1)
                 (fun i s => f (Fortran.element (pre ++ l) i) s) s
    = fold_left (fun s x => f x s) l s.
Proof.
  induction l as [|x l IH]; intros pre s; [reflexivity|].
  cbn [List.length iterate_from fold_left].
  assert (Hx : Fortran.element (pre ++ x :: l) (Z.of_nat (List.length pre) + 1) = x).
  { unfold Fortran.element.
    replace (Z.to_nat (Z.of_nat (List.length pre) + 1 - 1)) with (List.length pre) by lia.
    now rewrite nth_middle. }
  rewrite Hx.
  specialize (IH (pre ++ [x]) (f x s)).
  rewrite <- app_assoc in IH. cbn [app] in IH.
  rewrite length_app in IH. cbn [List.length] in IH.
  replace (Z.of_nat (List.length pre + 1) + 1)%Z
    with (Z.of_nat (List.length pre) + 1 + 1)%Z in IH by lia.
  exact IH.
Qed.

Lemma do_range_elements {St : Type} (f : D -> St -> St) (l : list D) (s : St) :
  do_range 1 (Z.of_nat (List.length l))
           (fun i s => f (Fortran.element l i) s) s
  = fold_left (fun s x => f x s) l s.
Proof.
  unfold do_range, for_range.
  replace (Z.to_nat (Z.of_nat (List.length l) + 1 - 1)) with (List.length l) by lia.
  exact (iterate_from_elements f l [] s).
Qed.

Lemma filter_map_length {A B : Type} (p : B -> bool) (g : A -> B) (l : list A) :
  List.length (filter p (map g l)) = List.length (filter (fun x => p (g x)) l).
Proof.
  induction l as [|x l IH]; [reflexivity|].
  cbn [map filter]. destruct (p (g x)); cbn [List.length]; now rewrite IH.
Qed.

(** The Fortran tier loop, as counts of the health values. *)
Lemma classify_sensors_by_health_counts (healths : list D) :
  Fortran.classify_sensors_by_health (Z.of_nat (List.length healths)) healths
  = (Z.of_nat (List.length (filter (fun h => (h >? of_int 70)%D) healths)),
     Z.of_nat (List.length (filter (fun h => negb (h >? of_int 70)%D
                                             && (h >? of_int 30)%D) healths)),
     Z.of_nat (List.length (filter (fun h => negb (h >? of_int 70)%D
                                             && negb (h >? of_int 30)%D) healths))).
Proof.
  unfold Fortran.classify_sensors_by_health.
  rewrite (do_range_elements
             (fun h '(active, warning, failed) =>
                if (h >? of_int 70)%D then ((active + 1)%Z, warning, failed)
                else if (h >? of_int 30)%D then (active, (warning + 1)%Z, failed)
                else (active, warning, (failed + 1)%Z))).
  assert (Hfold : forall (l : list D) (a w f : Z),
    fold_left
      (fun (s : Z * Z * Z) (x : D) =>
         (fun h '(active, warning, failed) =>
            if (h >? of_int 70)%D then ((active + 1)%Z, warning, failed)
            else if (h >? of_int 30)%D then (active, (warning + 1)%Z, failed)
            else (active, warning, (failed + 1)%Z)) x s) l (a, w, f)
    = ((a + Z.of_nat (List.length (filter (fun h => (h >? of_int 70)%D) l)))%Z,
       (w + Z.of_nat (List.length (filter (fun h => negb (h >? of_int 70)%D
                                                    && (h >? of_int 30)%D) l)))%Z,
       (f + Z.of_nat (List.length (filter (fun h => negb (h >? of_int 70)%D
                                                    && negb (h >? of_int 30)%D) l)))%Z)).
  { induction l as [|x l IH]; intros a w f; cbn [fold_left filter].
    - cbn [List.length]. apply f_equal2; [apply f_equal2|]; lia.
    - destruct (x >? of_int 70)%D; [|destruct (x >? of_int 30)%D];
        cbn [negb andb]; rewrite IH; cbn [List.length];
        (apply f_equal2; [apply f_equal2|]); lia. }
  rewrite Hfold. reflexivity.
Qed.

Import Cpp.FleetReliabilityManager.

(** X3: on the health values of a fleet, the Fortran procedure
    [classify_sensors_by_health] returns the three counts of the C++
    [getSensorStats], for any doubles. *)
Theorem Fortran_classification_is_getSensorStats (fleet : list (Sensor D)) :
  let stats := getSensorStats (of_sensors fleet) in
  Fortran.classify_sensors_by_health (Z.of_nat (List.length fleet))
                                     (map (@health D) fleet)
  = (active stats, warning stats, failed stats).
Proof.
  intros stats. subst stats.
  pose proof (classify_sensors_by_health_counts (map (@health D) fleet)) as Hf90.
  rewrite length_map in Hf90. rewrite Hf90.
  rewrite !filter_map_length.
  unfold getSensorStats.
  match goal with
  | |- context [fold_left ?f (sensors ?m) ?st0] =>
      destruct (tier_loop_counts (sensors m) st0) as [_ [Ha [Hw Hf]]]
  end.
  cbv zeta in Ha, Hw, Hf. rewrite Ha, Hw, Hf.
  rewrite sensors_of_sensors. cbn [active warning failed].
  reflexivity.
Qed.
End FortranArrays.

(** In exact arithmetic the two tests of the [if / else if] chain and the
    three closed tests of the filters select the same sensors. *)
Lemma Exact_warning_test (h : R) :
  (negb (Rltb 70 h) && Rltb 30 h)%bool = (Rltb 30 h && Rleb h 70)%bool.
Proof.
  unfold Rltb, Rleb.
  destruct (Rlt_dec 70 h), (Rlt_dec 30 h), (Rle_dec h 70); try reflexivity; lra.
Qed.

Lemma Exact_failed_test (h : R) :
  (negb (Rltb 70 h) && negb (Rltb 30 h))%bool = Rleb h 30.
Proof.
  unfold Rltb, Rleb.
  destruct (Rlt_dec 70 h), (Rlt_dec 30 h), (Rle_dec h 30); try reflexivity; lra.
Qed.

(** In exact arithmetic no number is NaN, so no comparison of the R script
    is [NA]. *)
Lemma Exact_is_na (x : R) : RLang.is_na x = false.
Proof.
  unfold RLang.is_na. cbn [dleb Exact]. rewrite Rleb_true by lra. reflexivity.
Qed.

Lemma Exact_comparison (test : R -> R -> bool) (x y : R) :
  RLang.comparison test x y = Some (test x y).
Proof. unfold RLang.comparison. now rewrite !Exact_is_na. Qed.

(** The [sum] of a logical vector without [NA] counts its [TRUE]s. *)
Lemma sum_logical_count {A : Type} (f : A -> RLang.logical) (test : A -> bool)
    (l : list A) :
  (forall x, f x = Some (test x)) ->
  RLang.sum_logical (map f l) = Some (Z.of_nat (List.length (filter test l))).
Proof.
  intros Hf. induction l as [|x l IH]; [reflexivity|].
  cbn [map RLang.sum_logical filter]. rewrite IH, Hf.
  destruct (test x); cbn [List.length]; f_equal; lia.
Qed.

(** X4: in exact arithmetic the tier counts of the Haskell
    [calculateFleetMetrics], of the R script (none of which is [NA]) and of
    the dashboard are the counts of the C++ [getSensorStats]; in particular
    active, warning and failed add up to the total in each of them. *)
Theorem tier_counts_agree_in_exact_arithmetic (fleet : list (Sensor R)) (horizon : R) :
  let stats := Cpp.FleetReliabilityManager.getSensorStats
                 (Cpp.FleetReliabilityManager.of_sensors fleet) in
  let metrics := Haskell.calculateFleetMetrics fleet horizon in
  let board := Dashboard.computeStats (map (@health R) fleet) in
  (Haskell.totalSensors metrics = Cpp.FleetReliabilityManager.total stats
   /\ Haskell.activeSensors metrics = Cpp.FleetReliabilityManager.active stats
   /\ Haskell.warningSensors metrics = Cpp.FleetReliabilityManager.warning stats
   /\ Haskell.failedSensors metrics = Cpp.FleetReliabilityManager.failed stats)
  /\ RLang.health_counts fleet
     = (Some (Cpp.FleetReliabilityManager.active stats),
        Some (Cpp.FleetReliabilityManager.warning stats),
        Some (Cpp.FleetReliabilityManager.failed stats))
  /\ (Dashboard.total board = Cpp.FleetReliabilityManager.total stats
      /\ Dashboard.active board = Cpp.FleetReliabilityManager.active stats
      /\ Dashboard.warning board = Cpp.FleetReliabilityManager.warning stats
      /\ Dashboard.failed board = Cpp.FleetReliabilityManager.failed stats)
  /\ (Haskell.activeSensors metrics + Haskell.warningSensors metrics
      + Haskell.failedSensors metrics = Haskell.totalSensors metrics)%Z.
Proof.
  intros stats metrics board.
  destruct (getSensorStats_filters (Cpp.FleetReliabilityManager.of_sensors fleet))
    as [Htotal [Ha [Hw Hf]]].
  fold stats in Htotal, Ha, Hw, Hf.
  rewrite sensors_of_sensors in Htotal, Ha, Hw, Hf.
  cbn [dltb of_int Exact] in Ha, Hw, Hf.
  rewrite (filter_ext _ _ (fun s => Exact_warning_test (health s))) in Hw.
  rewrite (filter_ext _ _ (fun s => Exact_failed_test (health s))) in Hf.
  assert (Hhs : Haskell.totalSensors metrics = Cpp.FleetReliabilityManager.total stats
                /\ Haskell.activeSensors metrics = Cpp.FleetReliabilityManager.active stats
                /\ Haskell.warningSensors metrics = Cpp.FleetReliabilityManager.warning stats
                /\ Haskell.failedSensors metrics = Cpp.FleetReliabilityManager.failed stats).
  { rewrite Htotal, Ha, Hw, Hf. repeat apply conj; reflexivity. }
  assert (Hsplit : forall l : list (Sensor R),
    (List.length (filter (fun s => Rltb 70 (health s)) l)
     + List.length (filter (fun s => (Rltb 30 (health s) && Rleb (health s) 70)%bool) l)
     + List.length (filter (fun s => Rleb (health s) 30) l)
     = List.length l)%nat).
  { induction l as [|s l IH]; [reflexivity|]. cbn [filter].
    rewrite <- Exact_warning_test, <- Exact_failed_test.
    destruct (Rltb 70 (health s)), (Rltb 30 (health s));
      cbn [negb andb List.length]; lia. }
  specialize (Hsplit fleet).
  repeat apply conj; try apply Hhs.
  - unfold RLang.health_counts, RLang.greater, RLang.less_equal.
    rewrite (sum_logical_count _ (fun h => Rltb 70 h))
      by (intros h; rewrite Exact_comparison; reflexivity).
    rewrite (sum_logical_count _ (fun h => (Rltb 30 h && Rleb h 70)%bool))
      by (intros h; rewrite !Exact_comparison; cbn [dltb dleb of_int Exact];
          destruct (Rltb 30 h), (Rleb h 70); reflexivity).
    rewrite (sum_logical_count _ (fun h => Rleb h 30))
      by (intros h; rewrite Exact_comparison; reflexivity).
    rewrite !filter_map_length, Ha, Hw, Hf. reflexivity.
  - rewrite Htotal. subst board. cbn [Dashboard.total Dashboard.computeStats].
    now rewrite length_map.
  - rewrite Ha. subst board. cbn [Dashboard.active Dashboard.computeStats].
    now rewrite filter_map_length.
  - rewrite Hw. subst board. cbn [Dashboard.warning Dashboard.computeStats].
    now rewrite filter_map_length.
  - rewrite Hf. subst board. cbn [Dashboard.failed Dashboard.computeStats].
    now rewrite filter_map_length.
  - destruct Hhs as [H1 [H2 [H3 H4]]]. rewrite H1, H2, H3, H4, Htotal, Ha, Hw, Hf.
    lia.
Qed.

(** In binary64 the closed tests leave a sensor whose health is NaN out of
    every count of the dashboard, while the else branch of the C++ loop takes
    it as failed and the three counts of the R script are [NA]. *)
Lemma binary64_nan_health_tiers :
  let fleet := [sample_sensor 1 nan] in
  Cpp.FleetReliabilityManager.getSensorStats
    (Cpp.FleetReliabilityManager.of_sensors fleet)
  = Cpp.FleetReliabilityManager.mkSensorStats 1 0 0 1
  /\ Dashboard.computeStats (map (@health float) fleet)
     = Dashboard.mkStats 1 0 0 0
  /\ RLang.health_counts fleet = (None, None, None)
  /\ Haskell.classifySensor (sample_sensor 1 nan) = Haskell.Failed.
Proof. vm_compute. repeat apply conj; reflexivity. Qed.

(** *** The fleet means *)

Lemma fold_left_map {A B C : Type} (f : C -> B -> C) (g : A -> B) (l : list A) :
  forall c : C, fold_left f (map g l) c = fold_left (fun c x => f c (g x)) l c.
Proof. induction l as [|x l IH]; intros c; [reflexivity | apply IH]. Qed.

Lemma fold_left_pointwise {A C : Type} (f g : C -> A -> C) (l : list A) :
  (forall c x, In x l -> f c x = g c x) ->
  forall c : C, fold_left f l c = fold_left g l c.
Proof.
  induction l as [|x l IH]; intros Hfg c; [reflexivity|].
  cbn [fold_left]. rewrite Hfg by (left; reflexivity).
  apply IH. intros c' y Hy. apply Hfg. right. exact Hy.
Qed.

Section FleetMeans.
Context {D : Type} {num : Double D} {libm : Libm D}.
Import Cpp.FleetReliabilityManager.

(** X5: on the same sensors the C++ manager and the Haskell module compute
    the same fleet MTBF and the same fleet MTTF, operation for operation;
    the equality holds for the doubles of the machine as well as in exact
    arithmetic. *)
Theorem fleet_mean_times_agree (fleet : list (Sensor D)) (horizon : D) :
  calculateFleetMTBF (of_sensors fleet)
  = Haskell.fleetMTBF (Haskell.calculateFleetMetrics fleet horizon)
  /\ calculateFleetMTTF (of_sensors fleet)
     = Haskell.fleetMTTF (Haskell.calculateFleetMetrics fleet horizon).
Proof.
  unfold calculateFleetMTBF, calculateFleetMTTF, of_sensors, size.
  rewrite fold_addSensor_exponentialModels, fold_addSensor_erlangModels.
  cbn [exponentialModels erlangModels empty app
       Haskell.fleetMTBF Haskell.fleetMTTF Haskell.calculateFleetMetrics].
  unfold Haskell.average, Haskell.sum, Haskell.length.
  rewrite !length_map, !fold_left_map.
  split; reflexivity.
Qed.
End FleetMeans.

(** *** The survival sum as a function of time and of the stage count *)

Lemma poisson_term_nonneg (lambda t : R) (i : nat) :
  0 <= lambda -> 0 <= t -> 0 <= poisson_term lambda t i.
Proof.
  intros Hl Ht. unfold poisson_term.
  pose proof (exp_pos (- (lambda * t))) as Hexp.
  pose proof (INR_fact_pos i) as Hfact.
  assert (Hpow : 0 <= (lambda * t) ^ i) by (apply pow_le; nra).
  apply Rmult_le_pos; [nra|]. left. now apply Rinv_0_lt_compat.
Qed.

Lemma poisson_survival_nonneg (k : nat) (lambda t : R) :
  0 <= lambda -> 0 <= t -> 0 <= poisson_survival k lambda t.
Proof.
  intros Hl Ht. induction k as [|k IH]; cbn [poisson_survival]; [lra|].
  pose proof (poisson_term_nonneg lambda t k Hl Ht). lra.
Qed.

(** The survival sum is [exp (- x)] times a partial sum of the series of
    [exp x]. *)
Lemma poisson_survival_partial_sum (k : nat) (lambda t : R) :
  poisson_survival (Datatypes.S k) lambda t
  = exp (- (lambda * t))
    * sum_f_R0 (fun i => / INR (fact i) * (lambda * t) ^ i) k.
Proof.
  induction k as [|k IH].
  - cbn [poisson_survival sum_f_R0]. unfold poisson_term. simpl. field.
  - change (poisson_survival (Datatypes.S (Datatypes.S k)) lambda t)
      with (poisson_survival (Datatypes.S k) lambda t
            + poisson_term lambda t (Datatypes.S k)).
    rewrite IH. cbn [sum_f_R0]. unfold poisson_term.
    pose proof (INR_fact_pos (Datatypes.S k)). field. lra.
Qed.

Lemma exp_partial_sum_le (x : R) (n : nat) :
  0 <= x -> sum_f_R0 (fun i => / INR (fact i) * x ^ i) n <= exp x.
Proof.
  intros Hx. apply sum_incr.
  - unfold exp. destruct (exist_exp x) as [l Hl]. exact Hl.
  - intros i. pose proof (INR_fact_pos i).
    apply Rmult_le_pos; [left; now apply Rinv_0_lt_compat | now apply pow_le].
Qed.

Lemma poisson_survival_le_1 (k : nat) (lambda t : R) :
  0 <= lambda -> 0 <= t -> poisson_survival k lambda t <= 1.
Proof.
  intros Hl Ht. destruct k as [|k]; [cbn; lra|].
  rewrite poisson_survival_partial_sum.
  assert (Hx : 0 <= lambda * t) by nra.
  pose proof (exp_partial_sum_le (lambda * t) k Hx) as Hsum.
  pose proof (exp_pos (- (lambda * t))) as Hpos.
  replace 1 with (exp (- (lambda * t)) * exp (lambda * t)).
  - apply Rmult_le_compat_l; lra.
  - rewrite <- exp_plus. replace (- (lambda * t) + lambda * t) with 0 by ring.
    apply exp_0.
Qed.

Lemma poisson_survival_ge_first_term (k : nat) (lambda t : R) :
  0 <= lambda -> 0 <= t -> (1 <= k)%nat ->
  exp (- (lambda * t)) <= poisson_survival k lambda t.
Proof.
  intros Hl Ht Hk. induction k as [|k IH]; [lia|].
  cbn [poisson_survival]. destruct k as [|k].
  - cbn [poisson_survival]. rewrite poisson_term_0. lra.
  - pose proof (poisson_term_nonneg lambda t (Datatypes.S k) Hl Ht).
    specialize (IH ltac:(lia)). lra.
Qed.

Lemma poisson_survival_le_stages (k1 k2 : nat) (lambda t : R) :
  0 <= lambda -> 0 <= t -> (k1 <= k2)%nat ->
  poisson_survival k1 lambda t <= poisson_survival k2 lambda t.
Proof.
  intros Hl Ht Hk. induction Hk as [|k2 Hk IH]; [lra|].
  cbn [poisson_survival].
  pose proof (poisson_term_nonneg lambda t k2 Hl Ht). lra.
Qed.

(** The derivative in [t] of one term and of the sum. *)
Lemma derivable_linear (lambda t : R) :
  derivable_pt_lim (fun t => lambda * t) t lambda.
Proof.
  pose proof (derivable_pt_lim_scal id lambda t 1 (derivable_pt_lim_id t)) as Hscal.
  rewrite Rmult_1_r in Hscal. exact Hscal.
Qed.

Lemma derivable_exp_linear (lambda t : R) :
  derivable_pt_lim (fun t => exp (- (lambda * t))) t (- lambda * exp (- (lambda * t))).
Proof.
  assert (Hlin : derivable_pt_lim (fun t => - (lambda * t)) t (- lambda)).
  { apply (derivable_pt_lim_opp (fun t => lambda * t)), derivable_linear. }
  replace (- lambda * exp (- (lambda * t))) with (exp (- (lambda * t)) * - lambda) by ring.
  apply (derivable_pt_lim_comp (fun t => - (lambda * t)) exp).
  - exact Hlin.
  - apply derivable_pt_lim_exp.
Qed.

Lemma derivable_pow_linear (lambda t : R) (i : nat) :
  derivable_pt_lim (fun t => (lambda * t) ^ i) t
                   (INR i * (lambda * t) ^ Nat.pred i * lambda).
Proof.
  apply (derivable_pt_lim_comp (fun t => lambda * t) (fun y => y ^ i)).
  - apply derivable_linear.
  - apply derivable_pt_lim_pow.
Qed.

Lemma derivable_poisson_term (lambda t : R) (i : nat) :
  derivable_pt_lim (fun t => poisson_term lambda t i) t
    (match i with
     | O => - lambda * poisson_term lambda t 0
     | Datatypes.S j =>
         lambda * poisson_term lambda t j - lambda * poisson_term lambda t i
     end).
Proof.
  pose proof (INR_fact_pos i) as Hfact.
  assert (Hprod : derivable_pt_lim
            (fun t => exp (- (lambda * t)) * (lambda * t) ^ i * / INR (fact i)) t
            ((- lambda * exp (- (lambda * t)) * (lambda * t) ^ i
              + exp (- (lambda * t)) * (INR i * (lambda * t) ^ Nat.pred i * lambda))
             * / INR (fact i) + 0)).
  { apply (derivable_pt_lim_ext
             ((fun t => exp (- (lambda * t))) * (fun t => (lambda * t) ^ i)
              * fct_cte (/ INR (fact i)))%F);
      [intros z; reflexivity|].
    replace (((- lambda * exp (- (lambda * t)) * (lambda * t) ^ i
               + exp (- (lambda * t)) * (INR i * (lambda * t) ^ Nat.pred i * lambda))
              * / INR (fact i) + 0))
      with ((- lambda * exp (- (lambda * t)) * (lambda * t) ^ i
             + exp (- (lambda * t)) * (INR i * (lambda * t) ^ Nat.pred i * lambda))
            * fct_cte (/ INR (fact i)) t
            + ((fun t => exp (- (lambda * t))) * (fun t => (lambda * t) ^ i))%F t * 0)
      by (unfold fct_cte, mult_fct; ring).
    apply (derivable_pt_lim_mult
             ((fun t => exp (- (lambda * t))) * (fun t => (lambda * t) ^ i))%F
             (fct_cte (/ INR (fact i))) t
             (- lambda * exp (- (lambda * t)) * (lambda * t) ^ i
              + exp (- (lambda * t)) * (INR i * (lambda * t) ^ Nat.pred i * lambda))
             0).
    - apply (derivable_pt_lim_mult
               (fun t => exp (- (lambda * t))) (fun t => (lambda * t) ^ i) t
               (- lambda * exp (- (lambda * t)))
               (INR i * (lambda * t) ^ Nat.pred i * lambda)).
      + apply derivable_exp_linear.
      + apply derivable_pow_linear.
    - apply derivable_pt_lim_const. }
  eapply derivable_pt_lim_ext; [intros z; unfold poisson_term, Rdiv; reflexivity|].
  destruct i as [|j].
  - replace (- lambda * poisson_term lambda t 0)
      with ((- lambda * exp (- (lambda * t)) * (lambda * t) ^ 0
             + exp (- (lambda * t)) * (INR 0 * (lambda * t) ^ Nat.pred 0 * lambda))
            * / INR (fact 0) + 0); [exact Hprod|].
    unfold poisson_term. simpl. field.
  - replace (lambda * poisson_term lambda t j
             - lambda * poisson_term lambda t (Datatypes.S j))
      with ((- lambda * exp (- (lambda * t)) * (lambda * t) ^ Datatypes.S j
             + exp (- (lambda * t))
               * (INR (Datatypes.S j) * (lambda * t) ^ Nat.pred (Datatypes.S j) * lambda))
            * / INR (fact (Datatypes.S j)) + 0); [exact Hprod|].
    unfold poisson_term. cbn [Nat.pred]. rewrite fact_simpl, mult_INR.
    pose proof (INR_fact_pos j).
    assert (0 < INR (Datatypes.S j)) by (apply lt_0_INR; lia).
    simpl pow. field. split; lra.
Qed.

Lemma derivable_poisson_survival (k : nat) (lambda t : R) :
  derivable_pt_lim (fun t => poisson_survival (Datatypes.S k) lambda t) t
                   (- lambda * poisson_term lambda t k).
Proof.
  induction k as [|k IH].
  - eapply derivable_pt_lim_ext with (f := fun t => poisson_term lambda t 0).
    + intros z. cbn [poisson_survival]. ring.
    + exact (derivable_poisson_term lambda t 0).
  - eapply derivable_pt_lim_ext
      with (f := ((fun t => poisson_survival (Datatypes.S k) lambda t)
                  + (fun t => poisson_term lambda t (Datatypes.S k)))%F).
    + intros z. reflexivity.
    + replace (- lambda * poisson_term lambda t (Datatypes.S k))
        with (- lambda * poisson_term lambda t k
              + (lambda * poisson_term lambda t k
                 - lambda * poisson_term lambda t (Datatypes.S k))) by ring.
      apply derivable_pt_lim_plus; [exact IH|].
      exact (derivable_poisson_term lambda t (Datatypes.S k)).
Qed.

(** The survival sum does not increase with time. *)
Lemma poisson_survival_decreasing (k : nat) (lambda t1 t2 : R) :
  0 <= lambda -> 0 <= t1 -> t1 <= t2 ->
  poisson_survival k lambda t2 <= poisson_survival k lambda t1.
Proof.
  intros Hl Ht1 Ht.
  destruct k as [|k]; [cbn; lra|].
  destruct (Req_dec t1 t2) as [->|Hne]; [lra|].
  destruct (MVT_cor2 (fun t => poisson_survival (Datatypes.S k) lambda t)
                     (fun t => - lambda * poisson_term lambda t k) t1 t2)
    as [c [Hc Hin]]; [lra | intros c _; apply derivable_poisson_survival |].
  pose proof (poisson_term_nonneg lambda c k Hl ltac:(lra)) as Hterm.
  assert (Hprod : 0 <= lambda * poisson_term lambda c k * (t2 - t1)).
  { apply Rmult_le_pos; [apply Rmult_le_pos|]; lra. }
  nra.
Qed.

(** *** The Erlang models *)

(** X6: for a rate and a time that are not negative, the Haskell
    [erlangReliability] and [erlangCDF] are probabilities: both lie between
    0 and 1 and they add up to 1.  With at least one stage the reliability
    is at least [exp (- lambda t)], hence positive; with none it is 0. *)
Theorem Haskell_erlangReliability_is_a_probability (k : Z) (lambda t : R) :
  0 <= lambda -> 0 <= t ->
  0 <= Haskell.erlangReliability k lambda t <= 1
  /\ 0 <= Haskell.erlangCDF k lambda t <= 1
  /\ Haskell.erlangCDF k lambda t + Haskell.erlangReliability k lambda t = 1
  /\ ((1 <= k)%Z -> exp (- (lambda * t)) <= Haskell.erlangReliability k lambda t)
  /\ ((k <= 0)%Z -> Haskell.erlangReliability k lambda t = 0).
Proof.
  intros Hl Ht.
  pose proof (Haskell_erlangReliability_is_survival k lambda t Ht) as Hrel.
  pose proof (poisson_survival_nonneg (Z.to_nat k) lambda t Hl Ht) as H0.
  pose proof (poisson_survival_le_1 (Z.to_nat k) lambda t Hl Ht) as H1.
  assert (Hcdf : Haskell.erlangCDF k lambda t = 1 - Haskell.erlangReliability k lambda t).
  { unfold Haskell.erlangReliability. cbn [dsub of_int Exact]. lra. }
  rewrite Hcdf, Hrel.
  repeat apply conj; try lra.
  - intros Hk. apply poisson_survival_ge_first_term; try assumption. lia.
  - intros Hk. replace (Z.to_nat k) with O by lia. reflexivity.
Qed.

(** X6 at three stages, the rate 0.0005 and the time 1000. *)
Lemma Haskell_erlangReliability_is_a_probability_witness :
  0 <= 0.0005 /\ 0 <= 1000
  /\ 0 <= Haskell.erlangReliability 3 0.0005 1000 <= 1
  /\ 0 <= Haskell.erlangCDF 3 0.0005 1000 <= 1.
Proof.
  assert (Hl : 0 <= 0.0005) by lra.
  assert (Ht : 0 <= 1000) by lra.
  destruct (Haskell_erlangReliability_is_a_probability 3 0.0005 1000 Hl Ht)
    as [Hrel [Hcdf _]].
  repeat apply conj; solve [assumption | apply Hrel | apply Hcdf].
Defined.

(** X7: from time zero on, what [ErlangModel::reliability] and the Fortran
    [erlang_reliability] return is the Haskell [erlangCDF]: for every stage
    count and rate, the C++ value and the Haskell [erlangReliability] add up
    to 1. *)
Theorem Cpp_reliability_is_the_Haskell_erlangCDF (k : Z) (lambda t : R) :
  0 <= t ->
  Cpp.ErlangModel.reliability (Cpp.ErlangModel.make k lambda) t
  = Haskell.erlangCDF k lambda t
  /\ Fortran.erlang_reliability k lambda t = Haskell.erlangCDF k lambda t
  /\ Cpp.ErlangModel.reliability (Cpp.ErlangModel.make k lambda) t
     + Haskell.erlangReliability k lambda t = 1.
Proof.
  intros Ht.
  pose proof (Haskell_erlangReliability_is_survival k lambda t Ht) as Hrel.
  assert (Hcdf : Haskell.erlangCDF k lambda t = 1 - Haskell.erlangReliability k lambda t).
  { unfold Haskell.erlangReliability. cbn [dsub of_int Exact]. lra. }
  rewrite Cpp_reliability_is_complement, Fortran_reliability_is_complement.
  rewrite Hcdf, Hrel. repeat apply conj; lra.
Qed.

(** X7 at scenario B. *)
Lemma Cpp_reliability_is_the_Haskell_erlangCDF_witness :
  0 <= 1000
  /\ Cpp.ErlangModel.reliability (Cpp.ErlangModel.make 3 0.0005) 1000
     = Haskell.erlangCDF 3 0.0005 1000
  /\ Cpp.ErlangModel.reliability (Cpp.ErlangModel.make 3 0.0005) 1000
     + Haskell.erlangReliability 3 0.0005 1000 = 1.
Proof.
  assert (Ht : 0 <= 1000) by lra.
  destruct (Cpp_reliability_is_the_Haskell_erlangCDF 3 0.0005 1000 Ht)
    as [Hcpp [_ Hsum]].
  repeat apply conj; assumption.
Defined.

(** X8: with a rate that is not negative, the Haskell [erlangReliability]
    does not increase with time from zero on, while the value returned by
    [ErlangModel::reliability] does not decrease. *)
Theorem erlangReliability_over_time (k : Z) (lambda t1 t2 : R) :
  0 <= lambda -> 0 <= t1 -> t1 <= t2 ->
  Haskell.erlangReliability k lambda t2 <= Haskell.erlangReliability k lambda t1
  /\ Cpp.ErlangModel.reliability (Cpp.ErlangModel.make k lambda) t1
     <= Cpp.ErlangModel.reliability (Cpp.ErlangModel.make k lambda) t2
  /\ Fortran.erlang_reliability k lambda t1 <= Fortran.erlang_reliability k lambda t2.
Proof.
  intros Hl Ht1 Ht.
  rewrite !Haskell_erlangReliability_is_survival by lra.
  rewrite !Cpp_reliability_is_complement, !Fortran_reliability_is_complement.
  pose proof (poisson_survival_decreasing (Z.to_nat k) lambda t1 t2 Hl Ht1 Ht).
  repeat apply conj; lra.
Qed.

(** X8 at three stages and the rate 0.0005, between 500 and 1000 hours. *)
Lemma erlangReliability_over_time_witness :
  0 <= 0.0005 /\ 0 <= 500 /\ 500 <= 1000
  /\ Haskell.erlangReliability 3 0.0005 1000 <= Haskell.erlangReliability 3 0.0005 500
  /\ Cpp.ErlangModel.reliability (Cpp.ErlangModel.make 3 0.0005) 500
     <= Cpp.ErlangModel.reliability (Cpp.ErlangModel.make 3 0.0005) 1000.
Proof.
  assert (Hl : 0 <= 0.0005) by lra.
  assert (Ht1 : 0 <= 500) by lra.
  assert (Ht : 500 <= 1000) by lra.
  destruct (erlangReliability_over_time 3 0.0005 500 1000 Hl Ht1 Ht)
    as [Hhs [Hcpp _]].
  repeat apply conj; assumption.
Defined.

(** X9: with a rate and a time that are not negative, a model with more
    stages has the larger Haskell [erlangReliability] and the smaller value of
    [ErlangModel::reliability]. *)
Theorem erlangReliability_over_stages (k1 k2 : Z) (lambda t : R) :
  0 <= lambda -> 0 <= t -> (k1 <= k2)%Z ->
  Haskell.erlangReliability k1 lambda t <= Haskell.erlangReliability k2 lambda t
  /\ Cpp.ErlangModel.reliability (Cpp.ErlangModel.make k2 lambda) t
     <= Cpp.ErlangModel.reliability (Cpp.ErlangModel.make k1 lambda) t.
Proof.
  intros Hl Ht Hk.
  rewrite !Haskell_erlangReliability_is_survival by lra.
  rewrite !Cpp_reliability_is_complement.
  pose proof (poisson_survival_le_stages (Z.to_nat k1) (Z.to_nat k2) lambda t
                Hl Ht ltac:(lia)).
  split; lra.
Qed.

(** X9 between two and five stages. *)
Lemma erlangReliability_over_stages_witness :
  0 <= 0.0005 /\ 0 <= 1000 /\ (2 <= 5)%Z
  /\ Haskell.erlangReliability 2 0.0005 1000 <= Haskell.erlangReliability 5 0.0005 1000
  /\ Cpp.ErlangModel.reliability (Cpp.ErlangModel.make 5 0.0005) 1000
     <= Cpp.ErlangModel.reliability (Cpp.ErlangModel.make 2 0.0005) 1000.
Proof.
  assert (Hl : 0 <= 0.0005) by lra.
  assert (Ht : 0 <= 1000) by lra.
  assert (Hk : (2 <= 5)%Z) by lia.
  destruct (erlangReliability_over_stages 2 5 0.0005 1000 Hl Ht Hk) as [Hhs Hcpp].
  repeat apply conj; assumption.
Defined.

(** The factorial loop [result = 1; for i = 2 .. n: result = result * i]. *)
Lemma loop_factorial (m : nat) :
  for_range 2 (Z.of_nat m + 1) (fun i result => result * IZR i) 1 = INR (fact m).
Proof.
  induction m as [|m IH].
  - rewrite for_range_empty by lia. reflexivity.
  - destruct m as [|m].
    + rewrite for_range_empty by lia. simpl. lra.
    + replace (Z.of_nat (Datatypes.S (Datatypes.S m)) + 1)%Z
        with (Z.of_nat (Datatypes.S m) + 1 + 1)%Z by lia.
      rewrite for_range_last by lia. rewrite IH.
      replace (Z.of_nat (Datatypes.S m) + 1)%Z
        with (Z.of_nat (Datatypes.S (Datatypes.S m))) by lia.
      rewrite IZR_of_nat_succ.
      rewrite (fact_simpl (Datatypes.S m)), mult_INR. ring.
Qed.

Lemma loop_factorial_Z (n : Z) :
  for_range 2 (n + 1) (fun i result => result * IZR i) 1 = INR (fact (Z.to_nat n)).
Proof.
  destruct (Z.le_gt_cases 0 n) as [Hn|Hn].
  - rewrite <- (loop_factorial (Z.to_nat n)). f_equal. lia.
  - rewrite for_range_empty by lia.
    replace (Z.to_nat n) with O by lia. reflexivity.
Qed.

Lemma Haskell_factorial_Z (n : Z) : Haskell.factorial n = INR (fact (Z.to_nat n)).
Proof.
  destruct (Z.le_gt_cases 0 n) as [Hn|Hn].
  - rewrite <- (Haskell_factorial_nat (Z.to_nat n)). f_equal. lia.
  - unfold Haskell.factorial. rewrite enumFromTo_empty by lia.
    replace (Z.to_nat n) with O by lia. reflexivity.
Qed.

(** X10: the four factorial functions (the loops of [ErlangModel],
    [QueueingModel] and of the Fortran program, and the Haskell product
    [product [1..n]]) return [n!] for every [n] from 0 on and 1 for a negative
    [n]. *)
Theorem factorials_compute_the_factorial (n : Z) :
  Cpp.ErlangModel.factorial n = INR (fact (Z.to_nat n))
  /\ Cpp.QueueingModel.factorial n = INR (fact (Z.to_nat n))
  /\ Fortran.factorial n = INR (fact (Z.to_nat n))
  /\ Haskell.factorial n = INR (fact (Z.to_nat n)).
Proof.
  repeat apply conj;
    solve [exact (loop_factorial_Z n) | exact (Haskell_factorial_Z n)].
Qed.

(** The density of the C++ model, in terms of the last term of the sum. *)
Lemma Cpp_pdf_closed_form (j : nat) (lambda t : R) :
  Cpp.ErlangModel.pdf (Cpp.ErlangModel.make (Z.of_nat (Datatypes.S j)) lambda) t
  = lambda * poisson_term lambda t j.
Proof.
  unfold Cpp.ErlangModel.pdf.
  cbn [Cpp.ErlangModel.k Cpp.ErlangModel.lambda dmul ddiv dneg dexp dpow
       Exact ExactLibm].
  replace (Z.of_nat (Datatypes.S j) - 1)%Z with (Z.of_nat j) by lia.
  rewrite <- !pow_powerRZ.
  assert (Hfact : Cpp.ErlangModel.factorial (Z.of_nat j) = INR (fact j)).
  { exact (loop_factorial j). }
  rewrite Hfact. unfold poisson_term. rewrite Rpow_mult_distr.
  replace (- lambda * t) with (- (lambda * t)) by ring.
  pose proof (INR_fact_pos j). simpl pow. field. lra.
Qed.

Lemma Haskell_pdf_closed_form (j : nat) (lambda t : R) :
  0 <= t ->
  Haskell.erlangPDF (Z.of_nat (Datatypes.S j)) lambda t
  = lambda * poisson_term lambda t j.
Proof.
  intros Ht. unfold Haskell.erlangPDF.
  cbn [dltb dmul ddiv dneg dexp dpow of_int Exact ExactLibm].
  rewrite Rltb_false by exact Ht.
  replace (Z.of_nat (Datatypes.S j) - 1)%Z with (Z.of_nat j) by lia.
  rewrite <- !pow_powerRZ, Haskell_factorial_nat.
  unfold poisson_term. rewrite Rpow_mult_distr.
  pose proof (INR_fact_pos j). simpl pow. field. lra.
Qed.

(** X11: with at least one stage and at a positive time, the C++ and
    Haskell densities are the same number; the Haskell [erlangPDF] is minus
    the derivative of [erlangReliability], and [ErlangModel::pdf] is the
    derivative of what [ErlangModel::reliability] returns. *)
Theorem erlang_density_is_the_derivative (k : Z) (lambda t : R) :
  (1 <= k)%Z -> 0 < t ->
  Cpp.ErlangModel.pdf (Cpp.ErlangModel.make k lambda) t = Haskell.erlangPDF k lambda t
  /\ derivable_pt_lim (fun t => Haskell.erlangReliability k lambda t) t
                      (- Haskell.erlangPDF k lambda t)
  /\ derivable_pt_lim
       (fun t => Cpp.ErlangModel.reliability (Cpp.ErlangModel.make k lambda) t) t
       (Cpp.ErlangModel.pdf (Cpp.ErlangModel.make k lambda) t).
Proof.
  intros Hk Ht.
  destruct (Z.to_nat k) as [|j] eqn:Hj; [lia|].
  assert (Hkj : k = Z.of_nat (Datatypes.S j)) by lia.
  rewrite Hkj, Cpp_pdf_closed_form, Haskell_pdf_closed_form by lra.
  repeat apply conj.
  - reflexivity.
  - apply (derivable_pt_lim_locally_ext
             (fun t => poisson_survival (Datatypes.S j) lambda t) _ t 0 (t + 1)).
    + lra.
    + intros z Hz. rewrite Haskell_erlangReliability_is_survival by lra.
      now rewrite Nat2Z.id.
    + replace (- (lambda * poisson_term lambda t j))
        with (- lambda * poisson_term lambda t j) by ring.
      apply derivable_poisson_survival.
  - apply (derivable_pt_lim_ext
             (fct_cte 1 - (fun t => poisson_survival (Datatypes.S j) lambda t))%F).
    + intros z. rewrite Cpp_reliability_is_complement, Nat2Z.id. reflexivity.
    + replace (lambda * poisson_term lambda t j)
        with (0 - (- lambda * poisson_term lambda t j)) by ring.
      apply derivable_pt_lim_minus.
      * apply derivable_pt_lim_const.
      * apply derivable_poisson_survival.
Qed.

(** X11 at scenario B. *)
Lemma erlang_density_is_the_derivative_witness :
  (1 <= 3)%Z /\ 0 < 1000
  /\ Cpp.ErlangModel.pdf (Cpp.ErlangModel.make 3 0.0005) 1000
     = Haskell.erlangPDF 3 0.0005 1000
  /\ derivable_pt_lim (fun t => Haskell.erlangReliability 3 0.0005 t) 1000
                      (- Haskell.erlangPDF 3 0.0005 1000).
Proof.
  assert (Hk : (1 <= 3)%Z) by lia.
  assert (Ht : 0 < 1000) by lra.
  destruct (erlang_density_is_the_derivative 3 0.0005 1000 Hk Ht) as [Hpdf [Hhs _]].
  repeat apply conj; assumption.
Defined.

(** *** Fleet means in exact arithmetic *)

(** A loop over an index that reads the [j]-th entry at index [i0 + j] is a
    left fold over the entries. *)
Lemma iterate_from_indexed {A St : Type} (F : A -> St -> St) (body : Z -> St -> St)
    (l : list A) :
  forall (i0 : Z) (s : St),
    (forall (j : nat) (x : A) (s' : St),
        nth_error l j = Some x -> body (i0 + Z.of_nat j)%Z s' = F x s') ->
    iterate_from (List.length l) i0 body s = fold_left (fun s x => F x s) l s.
Proof.
  induction l as [|x l IH]; intros i0 s Hbody; [reflexivity|].
  cbn [List.length iterate_from fold_left].
  pose proof (Hbody O x s eq_refl) as H0. rewrite Z.add_0_r in H0. rewrite H0.
  apply IH. intros j y s' Hj.
  replace (i0 + 1 + Z.of_nat j)%Z with (i0 + Z.of_nat (Datatypes.S j))%Z by lia.
  apply Hbody. exact Hj.
Qed.

Lemma fold_sum_complement {A : Type} (f : A -> R) (l : list A) :
  forall a : R,
    fold_left (fun s x => s + (1 - f x)) l a
    = a + INR (List.length l) - fold_left (fun s x => s + f x) l 0.
Proof.
  induction l as [|x l IH]; intros a.
  - cbn [fold_left List.length INR]. lra.
  - cbn [fold_left List.length]. rewrite IH.
    assert (Hshift : forall b, fold_left (fun s x => s + f x) l b
                               = b + fold_left (fun s x => s + f x) l 0).
    { clear. induction l as [|y l IHl]; intros b; cbn [fold_left]; [lra|].
      rewrite IHl, (IHl (0 + f y)). lra. }
    rewrite (Hshift (0 + f x)). rewrite S_INR. lra.
Qed.

Lemma fold_sum_between {A : Type} (f : A -> R) (lo hi : R) (l : list A) :
  (forall x, In x l -> lo <= f x <= hi) ->
  forall a : R,
    a + INR (List.length l) * lo <= fold_left (fun s x => s + f x) l a
    /\ fold_left (fun s x => s + f x) l a <= a + INR (List.length l) * hi.
Proof.
  induction l as [|x l IH]; intros Hin a.
  - cbn [fold_left List.length INR]. lra.
  - cbn [fold_left List.length]. rewrite S_INR.
    destruct (IH (fun y Hy => Hin y (or_intror Hy)) (a + f x)) as [Hlo Hhi].
    pose proof (Hin x (or_introl eq_refl)). lra.
Qed.

(** X12: for a fleet that is not empty and a horizon from zero on, the fleet
    reliability of the C++ manager is one minus the fleet reliability of the
    Haskell module, and the Fortran procedure returns the C++ value. *)
Theorem fleet_reliability_is_the_complement (fleet : list (Sensor R)) (horizon : R) :
  fleet <> [] -> 0 <= horizon ->
  let cpp := Cpp.FleetReliabilityManager.calculateFleetReliability
               (Cpp.FleetReliabilityManager.of_sensors fleet) horizon in
  let hs := Haskell.fleetReliability (Haskell.calculateFleetMetrics fleet horizon) in
  let f90 := Fortran.calculate_fleet_reliability
               (Z.of_nat (List.length fleet))
               (map (@kStages R) fleet) (map (@failureRate R) fleet) horizon in
  cpp = 1 - hs /\ f90 = cpp.
Proof.
  intros Hne Hh cpp hs f90.
  assert (Hlen : 0 < INR (List.length fleet)).
  { apply lt_0_INR. destruct fleet; [contradiction | cbn; lia]. }
  assert (Hcpp : cpp
    = fold_left (fun s x => s + (1 - poisson_survival (Z.to_nat (kStages x))
                                       (failureRate x) horizon)) fleet 0
      / INR (List.length fleet)).
  { subst cpp. unfold Cpp.FleetReliabilityManager.calculateFleetReliability,
      Cpp.FleetReliabilityManager.of_sensors, Cpp.FleetReliabilityManager.size.
    rewrite fold_addSensor_erlangModels.
    cbn [Cpp.FleetReliabilityManager.erlangModels
         Cpp.FleetReliabilityManager.empty app].
    rewrite length_map, fold_left_map.
    cbn [dadd ddiv of_int Exact]. rewrite <- INR_IZR_INZ.
    f_equal. apply fold_left_pointwise. intros c x _.
    now rewrite Cpp_reliability_is_complement. }
  assert (Hhs : hs
    = fold_left (fun s x => s + poisson_survival (Z.to_nat (kStages x))
                                  (failureRate x) horizon) fleet 0
      / INR (List.length fleet)).
  { subst hs. cbn [Haskell.fleetReliability Haskell.calculateFleetMetrics].
    unfold Haskell.average, Haskell.sum, Haskell.length.
    rewrite length_map, fold_left_map.
    cbn [dadd ddiv of_int Exact]. rewrite <- INR_IZR_INZ.
    f_equal. apply fold_left_pointwise. intros c x _.
    now rewrite Haskell_erlangReliability_is_survival. }
  assert (Hf90 : f90 = cpp).
  { rewrite Hcpp. subst f90. unfold Fortran.calculate_fleet_reliability, do_range, for_range.
    replace (Z.to_nat (Z.of_nat (List.length fleet) + 1 - 1))
      with (List.length fleet) by lia.
    rewrite (iterate_from_indexed
               (fun x s => s + (1 - poisson_survival (Z.to_nat (kStages x))
                                      (failureRate x) horizon))).
    - cbn [ddiv of_int Exact]. now rewrite <- INR_IZR_INZ.
    - intros j x s' Hj. cbn [dadd Exact].
      rewrite Fortran_reliability_is_complement.
      unfold Fortran.element, Fortran.element_int.
      replace (Z.to_nat (1 + Z.of_nat j - 1)) with j by lia.
      rewrite (nth_error_nth _ _ _ (map_nth_error (@kStages R) _ _ Hj)).
      rewrite (nth_error_nth _ _ _ (map_nth_error (@failureRate R) _ _ Hj)).
      reflexivity. }
  split; [|exact Hf90].
  rewrite Hcpp, Hhs, fold_sum_complement. field. lra.
Qed.

(** X12 on the fleet of fifty sample sensors at the horizon 1000. *)
Lemma fleet_reliability_is_the_complement_witness :
  fleet_5_of_50 (D := R) <> [] /\ 0 <= 1000
  /\ Cpp.FleetReliabilityManager.calculateFleetReliability
       (Cpp.FleetReliabilityManager.of_sensors fleet_5_of_50) 1000
     = 1 - Haskell.fleetReliability (Haskell.calculateFleetMetrics fleet_5_of_50 1000).
Proof.
  assert (Hne : fleet_5_of_50 (D := R) <> []) by (unfold fleet_5_of_50; discriminate).
  assert (Hh : 0 <= 1000) by lra.
  destruct (fleet_reliability_is_the_complement fleet_5_of_50 1000 Hne Hh) as [Hcpp _].
  repeat apply conj; assumption.
Defined.

(** X13: the fleet MTBF is a mean: when the fleet is not empty and every
    sensor's own MTBF [1 / lambda] lies between two bounds, so does the fleet
    MTBF of the C++ manager and of the Haskell module. *)
Theorem fleet_MTBF_lies_between_the_extremes
    (fleet : list (Sensor R)) (lo hi horizon : R) :
  fleet <> [] ->
  (forall s, In s fleet -> lo <= 1 / failureRate s <= hi) ->
  lo <= Cpp.FleetReliabilityManager.calculateFleetMTBF
          (Cpp.FleetReliabilityManager.of_sensors fleet) <= hi
  /\ lo <= Haskell.fleetMTBF (Haskell.calculateFleetMetrics fleet horizon) <= hi.
Proof.
  intros Hne Hin.
  assert (Hlen : 0 < INR (List.length fleet)).
  { apply lt_0_INR. destruct fleet; [contradiction | cbn; lia]. }
  destruct (fold_sum_between (fun s => 1 / failureRate s) lo hi fleet Hin 0)
    as [Hlo Hhi].
  assert (Hmean : lo <= fold_left (fun s x => s + 1 / failureRate x) fleet 0
                        / INR (List.length fleet) <= hi).
  { split.
    - apply Rmult_le_reg_r with (INR (List.length fleet)); [exact Hlen|].
      unfold Rdiv. rewrite Rmult_assoc, Rinv_l by lra. lra.
    - apply Rmult_le_reg_r with (INR (List.length fleet)); [exact Hlen|].
      unfold Rdiv. rewrite Rmult_assoc, Rinv_l by lra. lra. }
  assert (Hcpp : Cpp.FleetReliabilityManager.calculateFleetMTBF
                   (Cpp.FleetReliabilityManager.of_sensors fleet)
                 = fold_left (fun s x => s + 1 / failureRate x) fleet 0
                   / INR (List.length fleet)).
  { unfold Cpp.FleetReliabilityManager.calculateFleetMTBF,
      Cpp.FleetReliabilityManager.of_sensors, Cpp.FleetReliabilityManager.size.
    rewrite fold_addSensor_exponentialModels.
    cbn [Cpp.FleetReliabilityManager.exponentialModels
         Cpp.FleetReliabilityManager.empty app].
    rewrite length_map, fold_left_map.
    cbn [dadd ddiv of_int Exact]. now rewrite <- INR_IZR_INZ. }
  assert (Hhs : Haskell.fleetMTBF (Haskell.calculateFleetMetrics fleet horizon)
                = fold_left (fun s x => s + 1 / failureRate x) fleet 0
                  / INR (List.length fleet)).
  { cbn [Haskell.fleetMTBF Haskell.calculateFleetMetrics].
    unfold Haskell.average, Haskell.sum, Haskell.length.
    rewrite length_map, fold_left_map.
    cbn [dadd ddiv of_int Exact]. now rewrite <- INR_IZR_INZ. }
  rewrite Hcpp, Hhs. split; exact Hmean.
Qed.

(** X13 on the fleet of fifty sample sensors, whose rate is 0.0005. *)
Lemma fleet_MTBF_lies_between_the_extremes_witness :
  fleet_5_of_50 (D := R) <> []
  /\ (forall s, In s (fleet_5_of_50 (D := R)) -> 2000 <= 1 / failureRate s <= 2000)
  /\ 2000 <= Cpp.FleetReliabilityManager.calculateFleetMTBF
               (Cpp.FleetReliabilityManager.of_sensors fleet_5_of_50) <= 2000.
Proof.
  assert (Hne : fleet_5_of_50 (D := R) <> []) by (unfold fleet_5_of_50; discriminate).
  assert (Hin : forall s, In s (fleet_5_of_50 (D := R))
                          -> 2000 <= 1 / failureRate s <= 2000).
  { intros s Hs. unfold fleet_5_of_50 in Hs. apply in_map_iff in Hs.
    destruct Hs as [i [<- _]]. cbn [failureRate sample_sensor ddiv of_int Exact].
    lra. }
  destruct (fleet_MTBF_lies_between_the_extremes fleet_5_of_50 2000 2000 1000 Hne Hin)
    as [Hcpp _].
  split; [exact Hne | split; [exact Hin | exact Hcpp]].
Defined.

(** *** The maintenance queue in exact arithmetic *)

Lemma iterate_from_ext {St : Type} (b1 b2 : Z -> St -> St) (n : nat) :
  forall (i : Z) (s : St),
    (forall j s', (i <= j < i + Z.of_nat n)%Z -> b1 j s' = b2 j s') ->
    iterate_from n i b1 s = iterate_from n i b2 s.
Proof.
  induction n as [|n IH]; intros i s Hext; [reflexivity|].
  cbn [iterate_from]. rewrite Hext by lia. apply IH.
  intros j s' Hj. apply Hext. lia.
Qed.

Lemma for_range_ext {St : Type} (b1 b2 : Z -> St -> St) (lo hi : Z) (s : St) :
  (forall j s', (lo <= j < hi)%Z -> b1 j s' = b2 j s') ->
  for_range lo hi b1 s = for_range lo hi b2 s.
Proof.
  intros Hext. unfold for_range. apply iterate_from_ext.
  intros j s' Hj. apply Hext. lia.
Qed.

Lemma powerRZ_square (y : R) : powerRZ y 2 = y * y.
Proof. simpl. ring. Qed.

(** The sum of the first [m + 1] terms of the series of [exp x], as the
    loop of [calculateP0] accumulates it. *)
Lemma queue_sum_loop (x : R) (m : nat) :
  for_range 0 (Z.of_nat (Datatypes.S m))
            (fun n sumTerm => sumTerm + powerRZ x n / INR (fact (Z.to_nat n))) 0
  = sum_f_R0 (fun n => x ^ n / INR (fact n)) m.
Proof.
  induction m as [|m IH].
  - unfold for_range. simpl. lra.
  - rewrite (Nat2Z.inj_succ (Datatypes.S m)), <- Z.add_1_r.
    rewrite for_range_last by lia. rewrite IH.
    cbn [sum_f_R0]. rewrite Nat2Z.id, <- pow_powerRZ. reflexivity.
Qed.

Lemma queue_sum_ge_1 (x : R) (m : nat) :
  0 <= x -> 1 <= sum_f_R0 (fun n => x ^ n / INR (fact n)) m.
Proof.
  intros Hx. induction m as [|m IH].
  - simpl. lra.
  - cbn [sum_f_R0].
    pose proof (INR_fact_pos (Datatypes.S m)).
    assert (0 <= x ^ Datatypes.S m / INR (fact (Datatypes.S m))).
    { apply Rmult_le_pos; [now apply pow_le | left; now apply Rinv_0_lt_compat]. }
    lra.
Qed.

(** The three quantities of the C++ model on a stable queue with [m + 1]
    servers, with the sum and the factorial evaluated. *)
Lemma Cpp_queue_values (a s : R) (m : nat) :
  let c := Z.of_nat (Datatypes.S m) in
  let q := Cpp.QueueingModel.new a s c in
  let x := a / s in
  let rho := a / (IZR c * s) in
  let denominator :=
    sum_f_R0 (fun n => x ^ n / INR (fact n)) m
    + x ^ Datatypes.S m / (INR (fact (Datatypes.S m)) * (1 - rho)) in
  rho < 1 ->
  Cpp.QueueingModel.calculateP0 q = 1 / denominator
  /\ Cpp.QueueingModel.avgQueueLength q
     = 1 / denominator * x ^ Datatypes.S m * rho
       / (INR (fact (Datatypes.S m)) * ((1 - rho) * (1 - rho)))
  /\ Cpp.QueueingModel.avgWaitTime q
     = (if Rltb 0 a
        then 1 / denominator * x ^ Datatypes.S m * rho
             / (INR (fact (Datatypes.S m)) * ((1 - rho) * (1 - rho))) / a
        else 0).
Proof.
  intros c q x rho denominator Hrho.
  assert (Hp0 : Cpp.QueueingModel.calculateP0 q = 1 / denominator).
  { unfold Cpp.QueueingModel.calculateP0. subst q.
    cbn [Cpp.QueueingModel.arrivalRate Cpp.QueueingModel.serviceRate
         Cpp.QueueingModel.numServers Cpp.QueueingModel.rho Cpp.QueueingModel.new
         dadd dsub dmul ddiv dpow of_int Exact ExactLibm].
    rewrite (for_range_ext _
               (fun n sumTerm => sumTerm + powerRZ (a / s) n / INR (fact (Z.to_nat n)))).
    - subst c. rewrite queue_sum_loop.
      change (Cpp.QueueingModel.factorial (Z.of_nat (Datatypes.S m)))
        with (for_range 2 (Z.of_nat (Datatypes.S m) + 1)
                        (fun i result => result * IZR i) 1).
      rewrite loop_factorial_Z, Nat2Z.id, <- pow_powerRZ. reflexivity.
    - intros j s' _.
      change (Cpp.QueueingModel.factorial j)
        with (for_range 2 (j + 1) (fun i result => result * IZR i) 1).
      now rewrite loop_factorial_Z. }
  assert (Hstable : Cpp.QueueingModel.isStable q = true).
  { unfold Cpp.QueueingModel.isStable. subst q.
    cbn [Cpp.QueueingModel.rho Cpp.QueueingModel.new dltb ddiv dmul of_int Exact].
    now apply Rltb_true. }
  assert (Hlq : Cpp.QueueingModel.avgQueueLength q
                = 1 / denominator * x ^ Datatypes.S m * rho
                  / (INR (fact (Datatypes.S m)) * ((1 - rho) * (1 - rho)))).
  { unfold Cpp.QueueingModel.avgQueueLength. rewrite Hstable, Hp0.
    cbn [negb]. subst q.
    cbn [Cpp.QueueingModel.arrivalRate Cpp.QueueingModel.serviceRate
         Cpp.QueueingModel.numServers Cpp.QueueingModel.rho Cpp.QueueingModel.new
         dadd dsub dmul ddiv dpow of_int Exact ExactLibm].
    change (Cpp.QueueingModel.factorial c)
      with (for_range 2 (c + 1) (fun i result => result * IZR i) 1).
    subst c. rewrite loop_factorial_Z, Nat2Z.id, <- pow_powerRZ.
    rewrite powerRZ_square. reflexivity. }
  repeat apply conj; [exact Hp0 | exact Hlq |].
  unfold Cpp.QueueingModel.avgWaitTime. rewrite Hstable, Hlq. cbn [negb].
  subst q. cbn [Cpp.QueueingModel.arrivalRate Cpp.QueueingModel.new
                dltb ddiv of_int Exact].
  reflexivity.
Qed.

(** X14: for positive rates, at least one server and a utilisation below
    1, the C++ model returns a probability [P0] strictly between 0 and 1
    and a positive queue length and wait, tied by [Lq = arrivalRate * Wq];
    so the value -1 is returned for an unstable queue only. *)
Theorem stable_queue_metrics_are_positive (a s : R) (c : Z) :
  0 < a -> 0 < s -> (1 <= c)%Z -> a / (IZR c * s) < 1 ->
  let q := Cpp.QueueingModel.new a s c in
  0 < Cpp.QueueingModel.calculateP0 q < 1
  /\ 0 < Cpp.QueueingModel.avgQueueLength q
  /\ 0 < Cpp.QueueingModel.avgWaitTime q
  /\ Cpp.QueueingModel.avgQueueLength q = a * Cpp.QueueingModel.avgWaitTime q.
Proof.
  intros Ha Hs Hc Hrho q.
  destruct (Z.to_nat c) as [|m] eqn:Hm; [lia|].
  assert (Hcm : c = Z.of_nat (Datatypes.S m)) by lia.
  subst q. rewrite Hcm in Hrho |- *.
  destruct (Cpp_queue_values a s m Hrho) as [Hp0 [Hlq Hwq]].
  cbv zeta in Hp0, Hlq, Hwq.
  rewrite Rltb_true in Hwq by exact Ha.
  set (rho := a / (IZR (Z.of_nat (Datatypes.S m)) * s)) in *.
  set (x := a / s) in *.
  set (sum := sum_f_R0 (fun n => x ^ n / INR (fact n)) m) in *.
  set (fc := INR (fact (Datatypes.S m))) in *.
  assert (Hx : 0 < x) by (apply Rdiv_lt_0_compat; assumption).
  assert (Hsum : 1 <= sum) by (apply queue_sum_ge_1; lra).
  assert (Hfc : 0 < fc) by apply INR_fact_pos.
  assert (Hpow : 0 < x ^ Datatypes.S m) by (apply pow_lt; exact Hx).
  assert (Hcpos : 0 < IZR (Z.of_nat (Datatypes.S m))) by (apply IZR_lt; lia).
  assert (Hrho0 : 0 < rho).
  { apply Rdiv_lt_0_compat; [exact Ha | now apply Rmult_lt_0_compat]. }
  assert (Hlast : 0 < x ^ Datatypes.S m / (fc * (1 - rho))).
  { apply Rdiv_lt_0_compat; [exact Hpow | apply Rmult_lt_0_compat; lra]. }
  set (den := sum + x ^ Datatypes.S m / (fc * (1 - rho))) in *.
  assert (Hden : 1 < den) by (subst den; lra).
  assert (Hp0pos : 0 < 1 / den < 1).
  { split.
    - apply Rdiv_lt_0_compat; lra.
    - apply Rmult_lt_reg_r with den; [lra|].
      unfold Rdiv. rewrite Rmult_assoc, Rinv_l by lra. lra. }
  assert (Hlqpos : 0 < 1 / den * x ^ Datatypes.S m * rho
                       / (fc * ((1 - rho) * (1 - rho)))).
  { apply Rdiv_lt_0_compat.
    - apply Rmult_lt_0_compat;
        [apply Rmult_lt_0_compat; [lra | exact Hpow] | exact Hrho0].
    - apply Rmult_lt_0_compat; [exact Hfc | apply Rmult_lt_0_compat; lra]. }
  rewrite Hp0, Hlq, Hwq.
  repeat apply conj; try lra.
  - apply Rdiv_lt_0_compat; assumption.
  - field. repeat apply conj; lra.
Qed.

(** X14 at scenario C: arrival rate 0.05, service rate 0.15, three servers. *)
Lemma stable_queue_metrics_are_positive_witness :
  0 < 0.05 /\ 0 < 0.15 /\ (1 <= 3)%Z /\ 0.05 / (IZR 3 * 0.15) < 1
  /\ 0 < Cpp.QueueingModel.avgQueueLength (Cpp.QueueingModel.new 0.05 0.15 3)
  /\ 0 < Cpp.QueueingModel.avgWaitTime (Cpp.QueueingModel.new 0.05 0.15 3).
Proof.
  assert (Ha : 0 < 0.05) by lra.
  assert (Hs : 0 < 0.15) by lra.
  assert (Hc : (1 <= 3)%Z) by lia.
  assert (Hrho : 0.05 / (IZR 3 * 0.15) < 1) by lra.
  destruct (stable_queue_metrics_are_positive 0.05 0.15 3 Ha Hs Hc Hrho)
    as [_ [Hlq [Hwq _]]].
  repeat apply conj; assumption.
Defined.

(** X15: with one server and an arrival rate below the service rate the
    C++ model returns the textbook M/M/1 values: [P0 = 1 - rho],
    [Lq = rho^2 / (1 - rho)] and [Wq = rho / (mu - lambda)], where
    [rho = lambda / mu]. *)
Theorem single_server_queue_closed_form (a s : R) :
  0 < a -> a < s ->
  let q := Cpp.QueueingModel.new a s 1 in
  let rho := a / s in
  Cpp.QueueingModel.getUtilization q = rho
  /\ Cpp.QueueingModel.calculateP0 q = 1 - rho
  /\ Cpp.QueueingModel.avgQueueLength q = rho * rho / (1 - rho)
  /\ Cpp.QueueingModel.avgWaitTime q = rho / (s - a).
Proof.
  intros Ha Has q rho.
  assert (Hs : 0 < s) by lra.
  assert (Hrho : a / (IZR (Z.of_nat 1) * s) < 1).
  { simpl. apply Rmult_lt_reg_r with s; [exact Hs|].
    unfold Rdiv. rewrite Rinv_mult, Rinv_1, Rmult_1_l, Rmult_assoc, Rinv_l by lra.
    lra. }
  destruct (Cpp_queue_values a s 0 Hrho) as [Hp0 [Hlq Hwq]].
  cbv zeta in Hp0, Hlq, Hwq. rewrite Rltb_true in Hwq by exact Ha.
  change (Z.of_nat 1) with 1%Z in Hp0, Hlq, Hwq.
  subst q. rewrite Hp0, Hlq, Hwq.
  assert (Hrho1 : a / s < 1).
  { apply Rmult_lt_reg_r with s; [exact Hs|].
    unfold Rdiv. rewrite Rmult_assoc, Rinv_l by lra. lra. }
  subst rho.
  unfold Cpp.QueueingModel.getUtilization.
  cbn [Cpp.QueueingModel.rho Cpp.QueueingModel.new ddiv dmul of_int Exact
       sum_f_R0 fact Nat.mul Nat.add INR pow].
  repeat apply conj; field; repeat apply conj; lra.
Qed.

(** X15 at arrival rate 1 and service rate 2. *)
Lemma single_server_queue_closed_form_witness :
  0 < 1 /\ 1 < 2
  /\ Cpp.QueueingModel.avgQueueLength (Cpp.QueueingModel.new 1 2 1)
     = 1 / 2 * (1 / 2) / (1 - 1 / 2)
  /\ Cpp.QueueingModel.avgWaitTime (Cpp.QueueingModel.new 1 2 1) = 1 / 2 / (2 - 1).
Proof.
  assert (Ha : 0 < 1) by lra.
  assert (Has : 1 < 2) by lra.
  destruct (single_server_queue_closed_form 1 2 Ha Has) as [_ [_ [Hlq Hwq]]].
  repeat apply conj; assumption.
Defined.

(** The Haskell sum over [[0..c-1]] is the accumulation loop up to [c]. *)
Lemma Haskell_sum_is_loop (f : Z -> R) (c : Z) :
  Haskell.sum (map f (Haskell.enumFromTo 0 (c - 1)))
  = for_range 0 c (fun n s => s + f n) 0.
Proof.
  destruct (Z.le_gt_cases c 0) as [Hc|Hc].
  - rewrite enumFromTo_empty, for_range_empty by lia. reflexivity.
  - replace c with (Z.of_nat (Z.to_nat c)) by lia.
    induction (Z.to_nat c) as [|m IH].
    + rewrite enumFromTo_empty, for_range_empty by lia. reflexivity.
    + replace (Z.of_nat (Datatypes.S m) - 1)%Z with (Z.of_nat m - 1 + 1)%Z by lia.
      rewrite enumFromTo_snoc by lia.
      rewrite map_app. cbn [map]. rewrite Haskell_sum_snoc, IH.
      replace (Z.of_nat m - 1 + 1)%Z with (Z.of_nat m) by lia.
      rewrite Nat2Z.inj_succ, <- Z.add_1_r, for_range_last by lia.
      reflexivity.
Qed.

(** X16: in exact arithmetic the three queue models agree on a stable
    queue with a positive arrival rate: the Fortran procedure returns the
    utilisation, queue length and wait of the C++ model, and the Haskell
    record holds the same queue length, the wait in minutes (sixty times the
    C++ wait in hours) and the utilisation in per cent. *)
Theorem queue_implementations_agree (a s : R) (c : Z) :
  0 < a -> a / (IZR c * s) < 1 ->
  let q := Cpp.QueueingModel.new a s c in
  Fortran.analyze_maintenance_queue a s c
  = (Cpp.QueueingModel.getUtilization q,
     Cpp.QueueingModel.avgQueueLength q,
     Cpp.QueueingModel.avgWaitTime q)
  /\ exists m : Haskell.QueueMetrics R,
       Haskell.calculateQueueMetrics a s c = Some m
       /\ Haskell.avgQueueLength m = Cpp.QueueingModel.avgQueueLength q
       /\ Haskell.avgWaitTimeMinutes m = Cpp.QueueingModel.avgWaitTime q * 60
       /\ Haskell.utilization m = Cpp.QueueingModel.getUtilization q * 100.
Proof.
  intros Ha Hrho q.
  assert (Hstable : Cpp.QueueingModel.isStable q = true).
  { unfold Cpp.QueueingModel.isStable. subst q.
    cbn [Cpp.QueueingModel.rho Cpp.QueueingModel.new dltb ddiv dmul of_int Exact].
    now apply Rltb_true. }
  assert (Hlq : Cpp.QueueingModel.avgQueueLength q
    = 1 / (for_range 0 c
             (fun n sumTerm => sumTerm + powerRZ (a / s) n / INR (fact (Z.to_nat n))) 0
           + powerRZ (a / s) c
             / (INR (fact (Z.to_nat c)) * (1 - a / (IZR c * s))))
      * powerRZ (a / s) c * (a / (IZR c * s))
      / (INR (fact (Z.to_nat c)) * powerRZ (1 - a / (IZR c * s)) 2)).
  { unfold Cpp.QueueingModel.avgQueueLength, Cpp.QueueingModel.calculateP0.
    rewrite Hstable. cbn [negb]. subst q.
    cbn [Cpp.QueueingModel.arrivalRate Cpp.QueueingModel.serviceRate
         Cpp.QueueingModel.numServers Cpp.QueueingModel.rho Cpp.QueueingModel.new
         dadd dsub dmul ddiv dpow of_int Exact ExactLibm].
    change (Cpp.QueueingModel.factorial c)
      with (for_range 2 (c + 1) (fun i result => result * IZR i) 1).
    rewrite loop_factorial_Z.
    rewrite (for_range_ext _
               (fun n sumTerm => sumTerm + powerRZ (a / s) n / INR (fact (Z.to_nat n))));
      [reflexivity|].
    intros j s' _.
    change (Cpp.QueueingModel.factorial j)
      with (for_range 2 (j + 1) (fun i result => result * IZR i) 1).
    now rewrite loop_factorial_Z. }
  assert (Hwq : Cpp.QueueingModel.avgWaitTime q = Cpp.QueueingModel.avgQueueLength q / a).
  { unfold Cpp.QueueingModel.avgWaitTime. rewrite Hstable. cbn [negb]. subst q.
    cbn [Cpp.QueueingModel.arrivalRate Cpp.QueueingModel.new dltb ddiv of_int Exact].
    now rewrite Rltb_true. }
  split.
  - rewrite Hwq, Hlq. unfold Fortran.analyze_maintenance_queue, do_range.
    cbn [dleb dltb dadd dsub dmul ddiv dneg dpow of_int Exact ExactLibm].
    rewrite Rleb_false by exact Hrho. rewrite Rltb_true by exact Ha.
    change (Fortran.factorial c)
      with (for_range 2 (c + 1) (fun i result => result * IZR i) 1).
    rewrite loop_factorial_Z.
    replace (c - 1 + 1)%Z with c by lia.
    rewrite (for_range_ext
               (fun i sum_term => sum_term + powerRZ (a / s) i / Fortran.factorial i)
               (fun n sumTerm => sumTerm + powerRZ (a / s) n / INR (fact (Z.to_nat n))));
      [reflexivity|].
    intros j s' _.
    change (Fortran.factorial j)
      with (for_range 2 (j + 1) (fun i result => result * IZR i) 1).
    now rewrite loop_factorial_Z.
  - unfold Haskell.calculateQueueMetrics.
    cbn [dleb dadd dsub dmul ddiv dpow of_int Exact ExactLibm].
    rewrite Rleb_false by exact Hrho.
    eexists. split; [reflexivity|].
    cbn [Haskell.avgQueueLength Haskell.avgWaitTimeMinutes Haskell.utilization].
    rewrite Hwq, Hlq.
    rewrite Haskell_sum_is_loop, Haskell_factorial_Z.
    rewrite (for_range_ext
               (fun n s0 => s0 + powerRZ (a / s) n / Haskell.factorial n)
               (fun n sumTerm => sumTerm + powerRZ (a / s) n / INR (fact (Z.to_nat n))))
      by (intros j s' _; now rewrite Haskell_factorial_Z).
    repeat apply conj; reflexivity.
Qed.

(** X16 at scenario C. *)
Lemma queue_implementations_agree_witness :
  0 < 0.05 /\ 0.05 / (IZR 3 * 0.15) < 1
  /\ Fortran.analyze_maintenance_queue 0.05 0.15 3
     = (Cpp.QueueingModel.getUtilization (Cpp.QueueingModel.new 0.05 0.15 3),
        Cpp.QueueingModel.avgQueueLength (Cpp.QueueingModel.new 0.05 0.15 3),
        Cpp.QueueingModel.avgWaitTime (Cpp.QueueingModel.new 0.05 0.15 3)).
Proof.
  assert (Ha : 0 < 0.05) by lra.
  assert (Hrho : 0.05 / (IZR 3 * 0.15) < 1) by lra.
  destruct (queue_implementations_agree 0.05 0.15 3 Ha Hrho) as [Hf90 _].
  repeat apply conj; assumption.
Defined.

(** X17: the R function [mmc_queue_metrics] in exact arithmetic, for a
    [factorial] that is the factorial on the integers from 0 on.  On a stable
    queue with at least one server and a positive arrival rate it returns,
    without an error, the stable list with the queue length and the wait of
    the C++ model, and its further entries satisfy
    [W = Wq + 1 / service_rate] and Little's law in the form
    [L = Lq + arrival_rate / service_rate]. *)
Theorem R_queue_metrics (factorial : Z -> R) (a s : R) (c : Z) :
  (forall n : Z, (0 <= n)%Z -> factorial n = INR (fact (Z.to_nat n))) ->
  (1 <= c)%Z -> 0 < a -> a / (IZR c * s) < 1 ->
  let q := Cpp.QueueingModel.new a s c in
  exists m : RLang.mmc_metrics R,
    RLang.mmc_queue_metrics factorial a s c = RLang.value (RLang.stable m)
    /\ RLang.utilization m = Cpp.QueueingModel.getUtilization q
    /\ RLang.average_queue_length m = Cpp.QueueingModel.avgQueueLength q
    /\ RLang.average_waiting_time_hours m = Cpp.QueueingModel.avgWaitTime q
    /\ RLang.average_waiting_time_minutes m
       = RLang.average_waiting_time_hours m * 60
    /\ RLang.average_time_in_system m
       = RLang.average_waiting_time_hours m + 1 / s
    /\ RLang.average_number_in_system m
       = RLang.average_queue_length m + a / s.
Proof.
  intros Hfact Hc Ha Hrho q.
  assert (Hstable : Cpp.QueueingModel.isStable q = true).
  { unfold Cpp.QueueingModel.isStable. subst q.
    cbn [Cpp.QueueingModel.rho Cpp.QueueingModel.new dltb ddiv dmul of_int Exact].
    now apply Rltb_true. }
  assert (Hlq : Cpp.QueueingModel.avgQueueLength q
    = 1 / (for_range 0 c
             (fun n sumTerm => sumTerm + powerRZ (a / s) n / INR (fact (Z.to_nat n))) 0
           + powerRZ (a / s) c
             / (INR (fact (Z.to_nat c)) * (1 - a / (IZR c * s))))
      * powerRZ (a / s) c * (a / (IZR c * s))
      / (INR (fact (Z.to_nat c)) * powerRZ (1 - a / (IZR c * s)) 2)).
  { unfold Cpp.QueueingModel.avgQueueLength, Cpp.QueueingModel.calculateP0.
    rewrite Hstable. cbn [negb]. subst q.
    cbn [Cpp.QueueingModel.arrivalRate Cpp.QueueingModel.serviceRate
         Cpp.QueueingModel.numServers Cpp.QueueingModel.rho Cpp.QueueingModel.new
         dadd dsub dmul ddiv dpow of_int Exact ExactLibm].
    change (Cpp.QueueingModel.factorial c)
      with (for_range 2 (c + 1) (fun i result => result * IZR i) 1).
    rewrite loop_factorial_Z.
    rewrite (for_range_ext _
               (fun n sumTerm => sumTerm + powerRZ (a / s) n / INR (fact (Z.to_nat n))));
      [reflexivity|].
    intros j s' _.
    change (Cpp.QueueingModel.factorial j)
      with (for_range 2 (j + 1) (fun i result => result * IZR i) 1).
    now rewrite loop_factorial_Z. }
  assert (Hwq : Cpp.QueueingModel.avgWaitTime q = Cpp.QueueingModel.avgQueueLength q / a).
  { unfold Cpp.QueueingModel.avgWaitTime. rewrite Hstable. cbn [negb]. subst q.
    cbn [Cpp.QueueingModel.arrivalRate Cpp.QueueingModel.new dltb ddiv of_int Exact].
    now rewrite Rltb_true. }
  assert (Hcolon : RLang.colon 0 (c - 1) = Haskell.enumFromTo 0 (c - 1)).
  { unfold RLang.colon, Haskell.enumFromTo.
    replace (0 <=? c - 1)%Z with true by (symmetry; apply Z.leb_le; lia).
    reflexivity. }
  unfold RLang.mmc_queue_metrics, RLang.greater_equal.
  rewrite Exact_comparison.
  cbn [dleb dadd dsub dmul ddiv dpow of_int Exact ExactLibm].
  rewrite Rleb_false by exact Hrho.
  cbn [RLang.if_].
  eexists. split; [reflexivity|].
  cbn [RLang.utilization RLang.average_queue_length
       RLang.average_waiting_time_hours RLang.average_waiting_time_minutes
       RLang.average_time_in_system RLang.average_number_in_system].
  rewrite Hwq, Hlq, Hcolon.
  change (RLang.sum
            (map (fun n => powerRZ (a / s) n / factorial n)
                 (Haskell.enumFromTo 0 (c - 1))))
    with (Haskell.sum
            (map (fun n => powerRZ (a / s) n / factorial n)
                 (Haskell.enumFromTo 0 (c - 1)))).
  rewrite Haskell_sum_is_loop, (Hfact c) by lia.
  rewrite (for_range_ext
             (fun n s0 => s0 + powerRZ (a / s) n / factorial n)
             (fun n sumTerm => sumTerm + powerRZ (a / s) n / INR (fact (Z.to_nat n))))
    by (intros j s' Hj; rewrite Hfact by lia; reflexivity).
  repeat apply conj; try reflexivity.
  match goal with
  | |- a * (?lq / a + 1 / s) = _ => generalize lq; intros L
  end.
  transitivity (a * (L / a) + a * (1 / s)); [ring|].
  replace (a * (L / a)) with L by (field; lra).
  unfold Rdiv. ring.
Qed.

(** X17 at scenario C, with the factorial of the integers for [factorial]. *)
Lemma R_queue_metrics_witness :
  (forall n : Z, (0 <= n)%Z ->
     (fun n => INR (fact (Z.to_nat n))) n = INR (fact (Z.to_nat n)))
  /\ (1 <= 3)%Z /\ 0 < 0.05 /\ 0.05 / (IZR 3 * 0.15) < 1
  /\ exists m : RLang.mmc_metrics R,
       RLang.mmc_queue_metrics (fun n => INR (fact (Z.to_nat n))) 0.05 0.15 3
       = RLang.value (RLang.stable m)
       /\ RLang.average_number_in_system m
          = RLang.average_queue_length m + 0.05 / 0.15.
Proof.
  assert (Hfact : forall n : Z, (0 <= n)%Z ->
            (fun n => INR (fact (Z.to_nat n))) n = INR (fact (Z.to_nat n)))
    by (intros n _; reflexivity).
  assert (Hc : (1 <= 3)%Z) by lia.
  assert (Ha : 0 < 0.05) by lra.
  assert (Hrho : 0.05 / (IZR 3 * 0.15) < 1) by lra.
  destruct (R_queue_metrics (fun n => INR (fact (Z.to_nat n))) 0.05 0.15 3
              Hfact Hc Ha Hrho)
    as [m [Hm [_ [_ [_ [_ [_ Hlittle]]]]]]].
  repeat apply conj; try assumption.
  exists m. split; assumption.
Defined.

(** *** The cascade analysis *)

Section CascadeAgreement.
Context {D : Type} {num : Double D}.
Import Cpp.FleetReliabilityManager.

(** X18: on the same sensors the cascade analyses of the C++ manager and
    of the Haskell module compute the same failure count, the same risk
    factor, the same dependency multiplier and the same risk level, for any
    doubles; the Fortran procedure, given the C++ count and the size of the
    fleet, returns the C++ results. *)
Theorem cascade_analyses_agree (fleet : list (Sensor D)) :
  let cpp := analyzeCascadeRisk (of_sensors fleet) in
  let hs := Haskell.analyzeCascadeRisk fleet in
  let f90 := Fortran.analyze_cascade_risk (currentFailures cpp)
                                          (Z.of_nat (List.length fleet)) in
  (Haskell.currentFailures hs = currentFailures cpp
   /\ Haskell.cascadeRiskFactor hs = riskFactor cpp
   /\ Haskell.dependencyMultiplier hs = dependencyMultiplier cpp
   /\ riskLevel cpp = match Haskell.riskLevel hs with
                      | Haskell.High => "HIGH"%string
                      | Haskell.Medium => "MEDIUM"%string
                      | Haskell.Low => "LOW"%string
                      end)
  /\ (Fortran.risk_factor f90 = riskFactor cpp
      /\ Fortran.dep_mult f90 = dependencyMultiplier cpp
      /\ Fortran.risk_level f90 = riskLevel cpp
      /\ Fortran.expected_additional f90 = expectedAdditional cpp).
Proof.
  intros cpp hs f90. subst cpp hs f90.
  unfold analyzeCascadeRisk, Haskell.analyzeCascadeRisk, Fortran.analyze_cascade_risk.
  cbn [currentFailures riskFactor dependencyMultiplier riskLevel expectedAdditional
       Haskell.currentFailures Haskell.cascadeRiskFactor Haskell.dependencyMultiplier
       Haskell.riskLevel Haskell.expectedAdditionalFailures
       Fortran.risk_factor Fortran.dep_mult Fortran.risk_level
       Fortran.expected_additional].
  rewrite countCurrentFailures_filter, sensors_of_sensors.
  unfold size, Haskell.length.
  repeat apply conj; try reflexivity.
  destruct (_ >? hundredths 15)%D; [reflexivity|].
  destruct (_ >? hundredths 8)%D; reflexivity.
Qed.

(** The R analysis.  Indexing by the comparison keeps the rows where it is
    not [FALSE]. *)
Lemma subset_length {A : Type} (keep : A -> RLang.logical) (df : list A) :
  List.length (RLang.subset keep df)
  = List.length (filter (fun row => match keep row with
                                    | Some false => false
                                    | _ => true
                                    end) df).
Proof.
  unfold RLang.subset. induction df as [|row df IH]; [reflexivity|].
  cbn [flat_map filter]. rewrite length_app, IH.
  destruct (keep row) as [[|]|]; reflexivity.
Qed.

(** When the R analysis returns a list, no [if] met an [NA], and the list
    holds what the plain tests give on the number of rows kept. *)
Lemma analyze_cascade_risk_value
    (sensor_data : list (Sensor D)) (r : RLang.cascade_list D) :
  RLang.analyze_cascade_risk sensor_data = RLang.value r ->
  let n_failed :=
    RLang.nrow (RLang.subset (fun row => RLang.less (health row) (of_int 30))
                             sensor_data) in
  let cascade_risk := (of_int n_failed / of_int (RLang.nrow sensor_data))%D in
  let multiplier :=
    if (cascade_risk >? tenths 2)%D then tenths 15
    else if (cascade_risk >? tenths 1)%D then tenths 12
    else of_int 1 in
  r = {| RLang.current_failures := n_failed;
         RLang.cascade_risk_factor := cascade_risk;
         RLang.expected_additional_failures :=
           round (of_int n_failed * multiplier * tenths 3)%D;
         RLang.risk_level :=
           if (cascade_risk >? hundredths 15)%D then "HIGH"%string
           else if (cascade_risk >? hundredths 8)%D then "MEDIUM"%string
           else "LOW"%string;
         RLang.dependency_multiplier := multiplier |}.
Proof.
  cbv zeta.
  unfold RLang.analyze_cascade_risk, RLang.greater, RLang.comparison.
  repeat (cbn [RLang.if_ RLang.bind];
          match goal with
          | |- context [if ?b then _ else _] => destruct b
          end);
    cbn [RLang.if_ RLang.bind]; intros Hr; try discriminate Hr;
    injection Hr as <-; reflexivity.
Qed.

(** A list returned on a frame where the rows kept are the rows below 30 is
    the result of the C++ analysis, with the rounded expected number of the
    Haskell one. *)
Lemma analyze_cascade_risk_agrees
    (fleet : list (Sensor D)) (r : RLang.cascade_list D) :
  RLang.analyze_cascade_risk fleet = RLang.value r ->
  List.length (RLang.subset (fun row => RLang.less (health row) (of_int 30)) fleet)
  = List.length (filter (fun s => (health s <? of_int 30)%D) fleet) ->
  let cpp := analyzeCascadeRisk (of_sensors fleet) in
  RLang.current_failures r = currentFailures cpp
  /\ RLang.cascade_risk_factor r = riskFactor cpp
  /\ RLang.dependency_multiplier r = dependencyMultiplier cpp
  /\ RLang.risk_level r = riskLevel cpp
  /\ RLang.expected_additional_failures r
     = Haskell.expectedAdditionalFailures (Haskell.analyzeCascadeRisk fleet).
Proof.
  intros Hr Hrows cpp. subst cpp.
  rewrite (analyze_cascade_risk_value fleet r Hr).
  unfold analyzeCascadeRisk, Haskell.analyzeCascadeRisk.
  cbn [currentFailures riskFactor dependencyMultiplier riskLevel
       Haskell.expectedAdditionalFailures
       RLang.current_failures RLang.cascade_risk_factor RLang.dependency_multiplier
       RLang.risk_level RLang.expected_additional_failures].
  rewrite countCurrentFailures_filter, sensors_of_sensors.
  unfold size, Haskell.length, RLang.nrow. rewrite Hrows.
  repeat apply conj; reflexivity.
Qed.
End CascadeAgreement.

(** X27: in exact arithmetic, on a fleet that is not empty, the R function
    [analyze_cascade_risk] returns its list without an error, and the list
    holds the failure count, the risk factor, the dependency multiplier and
    the risk level of the C++ analysis and the expected number of the Haskell
    one.  The empty fleet is left out because there the program divides 0 by
    0, which has no counterpart in exact arithmetic. *)
Theorem R_cascade_analysis_in_exact_arithmetic (fleet : list (Sensor R)) :
  fleet <> [] ->
  let cpp := Cpp.FleetReliabilityManager.analyzeCascadeRisk
               (Cpp.FleetReliabilityManager.of_sensors fleet) in
  exists r : RLang.cascade_list R,
    RLang.analyze_cascade_risk fleet = RLang.value r
    /\ RLang.current_failures r = Cpp.FleetReliabilityManager.currentFailures cpp
    /\ RLang.cascade_risk_factor r = Cpp.FleetReliabilityManager.riskFactor cpp
    /\ RLang.dependency_multiplier r
       = Cpp.FleetReliabilityManager.dependencyMultiplier cpp
    /\ RLang.risk_level r = Cpp.FleetReliabilityManager.riskLevel cpp
    /\ RLang.expected_additional_failures r
       = Haskell.expectedAdditionalFailures (Haskell.analyzeCascadeRisk fleet).
Proof.
  intros _ cpp.
  assert (Hreturns : exists r, RLang.analyze_cascade_risk fleet = RLang.value r).
  { unfold RLang.analyze_cascade_risk, RLang.greater.
    rewrite !Exact_comparison.
    repeat (cbn [RLang.if_ RLang.bind];
            match goal with
            | |- context [if ?b then _ else _] => destruct b
            end);
      cbn [RLang.if_ RLang.bind]; eexists; reflexivity. }
  destruct Hreturns as [r Hr]. exists r. split; [exact Hr|].
  apply (analyze_cascade_risk_agrees fleet r Hr).
  rewrite subset_length. f_equal. apply filter_ext. intros s.
  unfold RLang.less. rewrite Exact_comparison.
  destruct (health s <? of_int 30)%D; reflexivity.
Qed.

(** X27 on the fleet of fifty sample sensors. *)
Lemma R_cascade_analysis_in_exact_arithmetic_witness :
  fleet_5_of_50 (D := R) <> []
  /\ exists r : RLang.cascade_list R,
       RLang.analyze_cascade_risk fleet_5_of_50 = RLang.value r
       /\ RLang.current_failures r
          = Cpp.FleetReliabilityManager.currentFailures
              (Cpp.FleetReliabilityManager.analyzeCascadeRisk
                 (Cpp.FleetReliabilityManager.of_sensors (fleet_5_of_50 (D := R)))).
Proof.
  assert (Hfleet : fleet_5_of_50 (D := R) <> []) by discriminate.
  split; [exact Hfleet|].
  destruct (R_cascade_analysis_in_exact_arithmetic fleet_5_of_50 Hfleet)
    as [r [Hr [Hcount _]]].
  exists r. split; [exact Hr | exact Hcount].
Defined.

(** *** The R analysis on doubles *)

(** A double compares equal to itself unless it is NaN. *)
Lemma SFcompare_refl (f : spec_float) : SFcompare f f = Some Eq \/ f = S754_nan.
Proof.
  destruct f as [s|s| |s m e]; cbn [SFcompare].
  - left. reflexivity.
  - left. destruct s; reflexivity.
  - right. reflexivity.
  - left. rewrite Z.compare_refl, Pos.compare_cont_refl. destruct s; reflexivity.
Qed.

(** On a binary64 double [is_na] is the NaN test of the format. *)
Lemma binary64_is_na (x : float) : RLang.is_na x = PrimFloat.is_nan x.
Proof.
  unfold RLang.is_na, PrimFloat.is_nan. cbn [dleb binary64].
  rewrite FloatAxioms.leb_spec, FloatAxioms.eqb_spec. unfold SFleb, SFeqb.
  destruct (SFcompare_refl (Prim2SF x)) as [-> | ->]; reflexivity.
Qed.

Lemma binary64_nan_is_not_less (x y : float) :
  PrimFloat.is_nan x = true -> (x <? y)%float = false.
Proof.
  unfold PrimFloat.is_nan. rewrite FloatAxioms.eqb_spec, FloatAxioms.ltb_spec.
  unfold SFeqb, SFltb.
  destruct (SFcompare_refl (Prim2SF x)) as [-> | ->]; [discriminate | reflexivity].
Qed.

(** The rows R keeps: those with a health below 30 and those with a health
    that is NaN. *)
Lemma binary64_row_kept (h : float) :
  match RLang.less h (of_int 30) with
  | Some false => false
  | _ => true
  end = ((h <? of_int 30)%D || PrimFloat.is_nan h)%bool
  /\ ((h <? of_int 30)%D && PrimFloat.is_nan h)%bool = false.
Proof.
  unfold RLang.less, RLang.comparison.
  rewrite !binary64_is_na.
  replace (PrimFloat.is_nan (of_int 30)) with false by (vm_compute; reflexivity).
  rewrite orb_false_r.
  destruct (PrimFloat.is_nan h) eqn:Hnan.
  - cbn [dltb binary64]. rewrite (binary64_nan_is_not_less _ _ Hnan).
    split; reflexivity.
  - destruct (h <? of_int 30)%D; split; reflexivity.
Qed.

Lemma binary64_rows_kept (fleet : list (Sensor float)) :
  List.length (RLang.subset (fun row => RLang.less (health row) (of_int 30)) fleet)
  = (List.length (filter (fun s => (health s <? of_int 30)%D) fleet)
     + List.length (filter (fun s => PrimFloat.is_nan (health s)) fleet))%nat.
Proof.
  rewrite subset_length.
  rewrite (filter_ext _ _ (fun s => proj1 (binary64_row_kept (health s)))).
  induction fleet as [|s fleet IH]; [reflexivity|].
  cbn [filter].
  pose proof (proj2 (binary64_row_kept (health s))) as Hexclusive.
  destruct (health s <? of_int 30)%D, (PrimFloat.is_nan (health s));
    cbn [orb andb List.length] in *; try discriminate Hexclusive; lia.
Qed.

(** X28: the R function [analyze_cascade_risk] on binary64 doubles.  When it
    returns a list, the frame is not empty (on an empty one it stops with an
    error), and its failure count is the count of the C++ analysis plus the
    number of rows whose health is NaN: such a row, which no other
    implementation counts, is kept by the row selection.  When no health is
    NaN, the list holds the C++ results and the expected number of the
    Haskell analysis. *)
Theorem R_cascade_analysis_on_doubles
    (fleet : list (Sensor float)) (r : RLang.cascade_list float) :
  RLang.analyze_cascade_risk fleet = RLang.value r ->
  let cpp := Cpp.FleetReliabilityManager.analyzeCascadeRisk
               (Cpp.FleetReliabilityManager.of_sensors fleet) in
  let nan_rows :=
    Z.of_nat (List.length (filter (fun s => PrimFloat.is_nan (health s)) fleet)) in
  fleet <> []
  /\ RLang.current_failures r
     = (Cpp.FleetReliabilityManager.currentFailures cpp + nan_rows)%Z
  /\ (nan_rows = 0%Z ->
      RLang.cascade_risk_factor r = Cpp.FleetReliabilityManager.riskFactor cpp
      /\ RLang.dependency_multiplier r
         = Cpp.FleetReliabilityManager.dependencyMultiplier cpp
      /\ RLang.risk_level r = Cpp.FleetReliabilityManager.riskLevel cpp
      /\ RLang.expected_additional_failures r
         = Haskell.expectedAdditionalFailures (Haskell.analyzeCascadeRisk fleet)).
Proof.
  intros Hr cpp nan_rows.
  repeat apply conj.
  - intros ->. vm_compute in Hr. discriminate Hr.
  - rewrite (analyze_cascade_risk_value fleet r Hr).
    cbn [RLang.current_failures]. unfold RLang.nrow.
    rewrite binary64_rows_kept. subst cpp nan_rows.
    unfold Cpp.FleetReliabilityManager.analyzeCascadeRisk.
    cbn [Cpp.FleetReliabilityManager.currentFailures].
    rewrite countCurrentFailures_filter, sensors_of_sensors. lia.
  - intros Hnone.
    apply (analyze_cascade_risk_agrees fleet r Hr).
    rewrite binary64_rows_kept. subst nan_rows. lia.
Qed.

(** X28 on four sensors at health 20, NaN, 80 and 80: R counts two failures
    where the C++ analysis counts one. *)
Lemma R_cascade_analysis_on_doubles_witness :
  RLang.analyze_cascade_risk fleet_with_nan
  = RLang.value (RLang.mk_cascade_list 2%Z 0.5%float 1%Z "HIGH" 1.5%float)
  /\ Cpp.FleetReliabilityManager.currentFailures
       (Cpp.FleetReliabilityManager.analyzeCascadeRisk
          (Cpp.FleetReliabilityManager.of_sensors fleet_with_nan)) = 1%Z
  /\ 2%Z = (Cpp.FleetReliabilityManager.currentFailures
              (Cpp.FleetReliabilityManager.analyzeCascadeRisk
                 (Cpp.FleetReliabilityManager.of_sensors fleet_with_nan))
            + Z.of_nat (List.length
                          (filter (fun s => PrimFloat.is_nan (health s))
                                  fleet_with_nan)))%Z.
Proof.
  assert (Hr : RLang.analyze_cascade_risk fleet_with_nan
               = RLang.value (RLang.mk_cascade_list 2%Z 0.5%float 1%Z "HIGH" 1.5%float))
    by (vm_compute; reflexivity).
  split; [exact Hr|]. split; [vm_compute; reflexivity|].
  exact (proj1 (proj2 (R_cascade_analysis_on_doubles fleet_with_nan _ Hr))).
Defined.

(** The two conversions to an integer, on a real that is not negative. *)
Lemma Rtruncate_nonneg (x : R) : 0 <= x -> Rtruncate x = Zfloor x.
Proof. intros Hx. unfold Rtruncate. destruct (Rle_dec 0 x); [reflexivity | lra]. Qed.

Lemma Zfloor_nonneg (x : R) : 0 <= x -> (0 <= Zfloor x)%Z.
Proof. intros Hx. apply Zfloor_lub. exact Hx. Qed.

Lemma Rround_even_bounds (x : R) :
  (Zfloor x <= Rround_even x <= Zfloor x + 1)%Z
  /\ IZR (Rround_even x) <= x + 1 / 2.
Proof.
  pose proof (Zfloor_bound x) as [Hlo Hhi].
  unfold Rround_even.
  destruct (Rlt_dec (x - IZR (Zfloor x)) (1 / 2)) as [Hlt|Hge].
  - split; [lia | lra].
  - destruct (Rlt_dec (1 / 2) (x - IZR (Zfloor x))) as [Hgt|Hle].
    + split; [lia | rewrite plus_IZR; lra].
    + destruct (Z.even (Zfloor x)); (split; [lia|]); [lra | rewrite plus_IZR; lra].
Qed.

(** The cascade analysis of the C++ manager in exact arithmetic, in terms
    of the failure count [n] and the size [N] of the fleet. *)
Lemma Cpp_cascade_values (fleet : list (Sensor R)) :
  let cpp := Cpp.FleetReliabilityManager.analyzeCascadeRisk
               (Cpp.FleetReliabilityManager.of_sensors fleet) in
  let n := Z.of_nat (List.length (filter (fun s => Rltb (health s) 30) fleet)) in
  let risk := IZR n / IZR (Z.of_nat (List.length fleet)) in
  let mult := if Rltb (2 / 10) risk then 15 / 10
              else if Rltb (1 / 10) risk then 12 / 10 else 1 in
  Cpp.FleetReliabilityManager.currentFailures cpp = n
  /\ Cpp.FleetReliabilityManager.riskFactor cpp = risk
  /\ Cpp.FleetReliabilityManager.dependencyMultiplier cpp = mult
  /\ Cpp.FleetReliabilityManager.expectedAdditional cpp
     = Rtruncate (IZR n * mult * (3 / 10))
  /\ Cpp.FleetReliabilityManager.riskLevel cpp
     = (if Rltb (15 / 100) risk then "HIGH"%string
        else if Rltb (8 / 100) risk then "MEDIUM"%string else "LOW"%string)
  /\ Haskell.expectedAdditionalFailures (Haskell.analyzeCascadeRisk fleet)
     = Rround_even (IZR n * mult * (3 / 10)).
Proof.
  intros cpp n risk mult. subst cpp.
  unfold Cpp.FleetReliabilityManager.analyzeCascadeRisk, Haskell.analyzeCascadeRisk.
  cbn [Cpp.FleetReliabilityManager.currentFailures
       Cpp.FleetReliabilityManager.riskFactor
       Cpp.FleetReliabilityManager.dependencyMultiplier
       Cpp.FleetReliabilityManager.expectedAdditional
       Cpp.FleetReliabilityManager.riskLevel
       Haskell.expectedAdditionalFailures].
  rewrite countCurrentFailures_filter, sensors_of_sensors.
  unfold Cpp.FleetReliabilityManager.size, Haskell.length, tenths, hundredths.
  cbn [dltb dmul ddiv of_int truncate round Exact].
  repeat apply conj; reflexivity.
Qed.

(** X19: in exact arithmetic the risk level and the dependency multiplier
    of a cascade analysis go together in five ways only: LOW with 1.0; MEDIUM
    with 1.0 or 1.2; HIGH with 1.2 or 1.5. *)
Theorem cascade_level_and_multiplier (fleet : list (Sensor R)) :
  let cpp := Cpp.FleetReliabilityManager.analyzeCascadeRisk
               (Cpp.FleetReliabilityManager.of_sensors fleet) in
  let level := Cpp.FleetReliabilityManager.riskLevel cpp in
  let mult := Cpp.FleetReliabilityManager.dependencyMultiplier cpp in
  (level = "LOW"%string /\ mult = 1)
  \/ (level = "MEDIUM"%string /\ (mult = 1 \/ mult = 12 / 10))
  \/ (level = "HIGH"%string /\ (mult = 12 / 10 \/ mult = 15 / 10)).
Proof.
  intros cpp level mult. subst level mult cpp.
  destruct (Cpp_cascade_values fleet) as [_ [_ [Hmult [_ [Hlevel _]]]]].
  cbv zeta in Hmult, Hlevel. rewrite Hmult, Hlevel.
  set (risk := IZR (Z.of_nat _) / IZR (Z.of_nat _)).
  unfold Rltb.
  destruct (Rlt_dec (15 / 100) risk), (Rlt_dec (8 / 100) risk),
           (Rlt_dec (2 / 10) risk), (Rlt_dec (1 / 10) risk);
    try (exfalso; lra);
    solve [ left; split; reflexivity
          | right; left; split;
            [reflexivity | (left; reflexivity) || (right; reflexivity)]
          | right; right; split;
            [reflexivity | (left; reflexivity) || (right; reflexivity)] ].
Qed.

(** X20: in exact arithmetic, for every fleet, the expected number of
    additional failures of the C++ manager (truncated) is not negative, the
    Haskell one (rounded) is the C++ one or one more, and neither exceeds the
    current number of failures. *)
Theorem expected_additional_failures_bounds (fleet : list (Sensor R)) :
  let cpp := Cpp.FleetReliabilityManager.analyzeCascadeRisk
               (Cpp.FleetReliabilityManager.of_sensors fleet) in
  let hs := Haskell.analyzeCascadeRisk fleet in
  (0 <= Cpp.FleetReliabilityManager.expectedAdditional cpp)%Z
  /\ (Cpp.FleetReliabilityManager.expectedAdditional cpp
      <= Haskell.expectedAdditionalFailures hs
      <= Cpp.FleetReliabilityManager.expectedAdditional cpp + 1)%Z
  /\ (Haskell.expectedAdditionalFailures hs
      <= Cpp.FleetReliabilityManager.currentFailures cpp)%Z.
Proof.
  intros cpp hs. subst cpp hs.
  destruct (Cpp_cascade_values fleet) as [Hn [_ [_ [Hcpp [_ Hhs]]]]].
  cbv zeta in Hn, Hcpp, Hhs. rewrite Hn, Hcpp, Hhs.
  set (n := Z.of_nat (List.length (filter (fun s => Rltb (health s) 30) fleet))).
  set (risk := IZR n / IZR _).
  set (mult := if Rltb (2 / 10) risk then 15 / 10
               else if Rltb (1 / 10) risk then 12 / 10 else 1).
  assert (Hn0 : 0 <= IZR n) by (apply IZR_le; subst n; lia).
  assert (Hmult : 1 <= mult <= 15 / 10).
  { subst mult. destruct (Rltb (2 / 10) risk); [lra|].
    destruct (Rltb (1 / 10) risk); lra. }
  assert (Hx : 0 <= IZR n * mult * (3 / 10) <= 45 / 100 * IZR n) by nra.
  rewrite Rtruncate_nonneg by lra.
  destruct (Rround_even_bounds (IZR n * mult * (3 / 10))) as [Hround Hhalf].
  pose proof (Zfloor_nonneg _ (proj1 Hx)) as Hfloor.
  repeat apply conj; try lia.
  apply Z.lt_succ_r, lt_IZR. rewrite succ_IZR. lra.
Qed.

(** X21: in exact arithmetic, for a fleet of a fixed positive size, more
    failed sensors never lower the result of the cascade analysis: the risk
    factor stays between 0 and 1 and does not decrease, nor do the dependency
    multiplier and the expected number of additional failures; a level that
    is HIGH stays HIGH, and a level that is LOW was LOW before. *)
Theorem cascade_risk_grows_with_failures (n1 n2 total : Z) :
  (0 <= n1)%Z -> (n1 <= n2)%Z -> (n2 <= total)%Z -> (0 < total)%Z ->
  let r1 := Fortran.analyze_cascade_risk (D := R) n1 total in
  let r2 := Fortran.analyze_cascade_risk (D := R) n2 total in
  0 <= Fortran.risk_factor r1 <= Fortran.risk_factor r2
  /\ Fortran.risk_factor r2 <= 1
  /\ Fortran.dep_mult r1 <= Fortran.dep_mult r2
  /\ (Fortran.expected_additional r1 <= Fortran.expected_additional r2)%Z
  /\ (Fortran.risk_level r1 = "HIGH"%string -> Fortran.risk_level r2 = "HIGH"%string)
  /\ (Fortran.risk_level r2 = "LOW"%string -> Fortran.risk_level r1 = "LOW"%string).
Proof.
  intros H0 H12 H2t Ht r1 r2. subst r1 r2.
  unfold Fortran.analyze_cascade_risk, tenths, hundredths.
  cbn [Fortran.risk_factor Fortran.dep_mult Fortran.expected_additional
       Fortran.risk_level dltb dmul ddiv of_int truncate Exact].
  assert (Htotal : 0 < IZR total) by (apply IZR_lt; exact Ht).
  assert (Hn1 : 0 <= IZR n1) by (apply IZR_le; exact H0).
  assert (Hn12 : IZR n1 <= IZR n2) by (apply IZR_le; exact H12).
  assert (Hn2 : IZR n2 <= IZR total) by (apply IZR_le; exact H2t).
  assert (Hinv : 0 < / IZR total) by (now apply Rinv_0_lt_compat).
  set (risk1 := IZR n1 / IZR total).
  set (risk2 := IZR n2 / IZR total).
  assert (Hr1 : 0 <= risk1) by (subst risk1; unfold Rdiv; nra).
  assert (Hr12 : risk1 <= risk2) by (subst risk1 risk2; unfold Rdiv; nra).
  assert (Hr2 : risk2 <= 1).
  { subst risk2. apply Rmult_le_reg_r with (IZR total); [exact Htotal|].
    unfold Rdiv. rewrite Rmult_assoc, Rinv_l by lra. lra. }
  set (mult1 := if Rltb (2 / 10) risk1 then 15 / 10
                else if Rltb (1 / 10) risk1 then 12 / 10 else 1).
  set (mult2 := if Rltb (2 / 10) risk2 then 15 / 10
                else if Rltb (1 / 10) risk2 then 12 / 10 else 1).
  assert (Hmult : 1 <= mult1 <= mult2).
  { subst mult1 mult2. unfold Rltb.
    destruct (Rlt_dec (2 / 10) risk1), (Rlt_dec (1 / 10) risk1),
             (Rlt_dec (2 / 10) risk2), (Rlt_dec (1 / 10) risk2); lra. }
  repeat apply conj; try lra.
  - rewrite !Rtruncate_nonneg by nra. apply Zfloor_le. nra.
  - unfold Rltb.
    destruct (Rlt_dec (15 / 100) risk1), (Rlt_dec (15 / 100) risk2),
             (Rlt_dec (8 / 100) risk1);
      intros Hlevel; try reflexivity; try discriminate; lra.
  - unfold Rltb.
    destruct (Rlt_dec (15 / 100) risk2), (Rlt_dec (8 / 100) risk2),
             (Rlt_dec (15 / 100) risk1), (Rlt_dec (8 / 100) risk1);
      intros Hlevel; try reflexivity; try discriminate; lra.
Qed.

(** X21 from five to twelve failed sensors of fifty. *)
Lemma cascade_risk_grows_with_failures_witness :
  (0 <= 5)%Z /\ (5 <= 12)%Z /\ (12 <= 50)%Z /\ (0 < 50)%Z
  /\ Fortran.dep_mult (Fortran.analyze_cascade_risk (D := R) 5 50)
     <= Fortran.dep_mult (Fortran.analyze_cascade_risk (D := R) 12 50)
  /\ (Fortran.expected_additional (Fortran.analyze_cascade_risk (D := R) 5 50)
      <= Fortran.expected_additional (Fortran.analyze_cascade_risk (D := R) 12 50))%Z.
Proof.
  assert (H0 : (0 <= 5)%Z) by lia.
  assert (H12 : (5 <= 12)%Z) by lia.
  assert (H2t : (12 <= 50)%Z) by lia.
  assert (Ht : (0 < 50)%Z) by lia.
  destruct (cascade_risk_grows_with_failures 5 12 50 H0 H12 H2t Ht)
    as [_ [_ [Hmult [Hexp _]]]].
  repeat apply conj; assumption.
Defined.

(** *** The maintenance schedule *)

Section Sorting.
Context {A : Type} (cmp : A -> A -> Haskell.Ordering).

Lemma insertBy_In (x y : A) (ys : list A) :
  In y (Haskell.insertBy cmp x ys) <-> y = x \/ In y ys.
Proof.
  induction ys as [|z ys IH]; cbn [Haskell.insertBy].
  - cbn. intuition.
  - destruct (cmp x z); cbn [In]; try rewrite IH; intuition.
Qed.

Lemma sortBy_In (y : A) (xs : list A) : In y (Haskell.sortBy cmp xs) <-> In y xs.
Proof.
  unfold Haskell.sortBy. induction xs as [|x xs IH]; cbn [fold_right In].
  - reflexivity.
  - rewrite insertBy_In, IH. intuition.
Qed.

(** [sortBy] rearranges its list: nothing is lost and nothing is added. *)
Lemma insertBy_Permutation (x : A) (ys : list A) :
  Permutation (Haskell.insertBy cmp x ys) (x :: ys).
Proof.
  induction ys as [|z ys IH]; cbn [Haskell.insertBy]; [reflexivity|].
  destruct (cmp x z); try reflexivity.
  rewrite IH. apply perm_swap.
Qed.

Lemma sortBy_Permutation (xs : list A) : Permutation (Haskell.sortBy cmp xs) xs.
Proof.
  unfold Haskell.sortBy. induction xs as [|x xs IH]; cbn [fold_right]; [reflexivity|].
  rewrite insertBy_Permutation. now constructor.
Qed.

(** When [cmp x y = GT] excludes [cmp y x = GT], the result of [sortBy] has
    no neighbours in the wrong order. *)
Hypothesis cmp_asymmetric :
  forall x y, cmp x y = Haskell.GT -> cmp y x <> Haskell.GT.

Lemma insertBy_Sorted (x : A) (ys : list A) :
  Sorted (fun a b => cmp a b <> Haskell.GT) ys ->
  Sorted (fun a b => cmp a b <> Haskell.GT) (Haskell.insertBy cmp x ys).
Proof.
  induction ys as [|z ys IH]; intros Hsorted; cbn [Haskell.insertBy].
  - repeat constructor.
  - destruct (cmp x z) eqn:Hxz.
    + constructor; [exact Hsorted | constructor; congruence].
    + constructor; [exact Hsorted | constructor; congruence].
    + inversion Hsorted as [|z' ys' Htail Hhd]; subst.
      constructor; [apply IH; exact Htail|].
      destruct ys as [|w ys]; cbn [Haskell.insertBy].
      * constructor. now apply cmp_asymmetric.
      * destruct (cmp x w); constructor;
          solve [now apply cmp_asymmetric | inversion Hhd; assumption].
Qed.

Lemma sortBy_Sorted (xs : list A) :
  Sorted (fun a b => cmp a b <> Haskell.GT) (Haskell.sortBy cmp xs).
Proof.
  unfold Haskell.sortBy. induction xs as [|x xs IH]; cbn [fold_right].
  - constructor.
  - now apply insertBy_Sorted.
Qed.
End Sorting.

Lemma Sorted_weaken {A : Type} (R1 R2 : A -> A -> Prop) (l : list A) :
  (forall a b, R1 a b -> R2 a b) -> Sorted R1 l -> Sorted R2 l.
Proof.
  intros Himp Hsorted. induction Hsorted as [|x l Htail IH Hhd]; constructor.
  - exact IH.
  - destruct Hhd; constructor. now apply Himp.
Qed.

Lemma compareInt_not_GT (x y : Z) : Haskell.compareInt x y <> Haskell.GT <-> (x <= y)%Z.
Proof.
  unfold Haskell.compareInt.
  destruct (Z.compare_spec x y); split; intros H'; try lia; try discriminate;
    congruence.
Qed.

Lemma compareDouble_not_GT (x y : R) :
  Haskell.compareDouble x y <> Haskell.GT <-> x <= y.
Proof.
  unfold Haskell.compareDouble, Haskell.eqDouble.
  cbn [dltb dleb Exact]. unfold Rltb, Rleb.
  destruct (Rlt_dec x y), (Rle_dec x y), (Rle_dec y x); cbn [andb];
    split; intros H'; try lra; try discriminate; congruence.
Qed.

Lemma map_taskPriority {D : Type} {num : Double D}
    (crews : list string) (xs : list (Sensor D)) :
  forall i : Z,
    map Haskell.taskPriority (Haskell.zipWith_enumFrom (Haskell.makeTask crews) i xs)
    = map (fun s => if (health s <? of_int 30)%D then 1%Z else 2%Z) xs.
Proof.
  induction xs as [|x xs IH]; intros i; cbn [Haskell.zipWith_enumFrom map];
    [reflexivity | now rewrite IH].
Qed.

Lemma map_constant {A B : Type} (f : A -> B) (b : B) (l : list A) :
  (forall x, In x l -> f x = b) -> map f l = repeat b (List.length l).
Proof.
  induction l as [|x l IH]; intros Hf; [reflexivity|].
  cbn [map List.length repeat]. rewrite (Hf x) by (left; reflexivity).
  f_equal. apply IH. intros y Hy. apply Hf. now right.
Qed.

Lemma map_taskSensorId {D : Type} {num : Double D}
    (crews : list string) (xs : list (Sensor D)) :
  forall i : Z,
    map Haskell.taskSensorId (Haskell.zipWith_enumFrom (Haskell.makeTask crews) i xs)
    = map (@sensorId D) xs.
Proof.
  induction xs as [|x xs IH]; intros i; cbn [Haskell.zipWith_enumFrom map];
    [reflexivity | now rewrite IH].
Qed.

(** X22: the sensors [generateMaintenanceSchedule] takes, in exact
    arithmetic.  Let [failed] be all the sensors of the fleet with health
    below 30, in ascending order of queue position, and [warning] all those
    with health above 30 and at most 70, in ascending order of health.  The
    schedule is the first twenty of [failed] followed by [warning]: its
    tasks carry their identifiers in that order, with priority 1 for the
    first group and 2 for the second.  So every failed sensor is scheduled
    before any warning sensor, a sensor is left out only when twenty come
    before it, and a sensor whose health is exactly 30, or above 70, is
    never scheduled. *)
Theorem schedule_takes_failed_then_warning (sensors : list (Sensor R)) :
  exists failed warning : list (Sensor R),
    Permutation failed (filter (fun s => (health s <? of_int 30)%D) sensors)
    /\ Permutation warning
         (filter (fun s => (health s >? of_int 30)%D && (health s <=? of_int 70)%D)
                 sensors)
    /\ (forall s, In s failed <-> In s sensors /\ health s < 30)
    /\ (forall s, In s warning <-> In s sensors /\ 30 < health s <= 70)
    /\ Sorted (fun a b => (queuePosition a <= queuePosition b)%Z) failed
    /\ Sorted (fun a b => health a <= health b) warning
    /\ Haskell.prioritySensors sensors = firstn 20 (failed ++ warning)
    /\ List.length (Haskell.prioritySensors sensors)
       = Nat.min 20 (List.length failed + List.length warning)
    /\ (forall crews : list string,
          map Haskell.taskSensorId (Haskell.generateMaintenanceSchedule sensors crews)
          = map (@sensorId R) (firstn 20 (failed ++ warning))
          /\ map Haskell.taskPriority (Haskell.generateMaintenanceSchedule sensors crews)
             = firstn 20 (repeat 1%Z (List.length failed)
                          ++ repeat 2%Z (List.length warning))).
Proof.
  exists (Haskell.failedSensors_by_queue sensors),
         (Haskell.warningSensors_by_health sensors).
  assert (Hfailed : forall s,
            In s (Haskell.failedSensors_by_queue sensors) <->
            In s sensors /\ health s < 30).
  { intros s. unfold Haskell.failedSensors_by_queue.
    rewrite sortBy_In, filter_In. cbn [dltb of_int Exact]. unfold Rltb.
    destruct (Rlt_dec (health s) 30); intuition (try discriminate; try lra). }
  assert (Hwarning : forall s,
            In s (Haskell.warningSensors_by_health sensors) <->
            In s sensors /\ 30 < health s <= 70).
  { intros s. unfold Haskell.warningSensors_by_health.
    rewrite sortBy_In, filter_In. cbn [dltb dleb of_int Exact]. unfold Rltb, Rleb.
    destruct (Rlt_dec 30 (health s)), (Rle_dec (health s) 70); cbn [andb];
      intuition (try discriminate; try lra). }
  repeat apply conj; [| | exact Hfailed | exact Hwarning | | | | |].
  - apply sortBy_Permutation.
  - apply sortBy_Permutation.
  - unfold Haskell.failedSensors_by_queue.
    eapply Sorted_weaken; [|apply sortBy_Sorted].
    + intros a b Hab. now apply compareInt_not_GT.
    + intros x y Hxy Hyx. unfold Haskell.comparing in *.
      apply (proj2 (compareInt_not_GT (queuePosition y) (queuePosition x)));
        [|exact Hyx].
      unfold Haskell.compareInt in Hxy.
      destruct (Z.compare_spec (queuePosition x) (queuePosition y));
        try discriminate. lia.
  - unfold Haskell.warningSensors_by_health.
    eapply Sorted_weaken; [|apply sortBy_Sorted].
    + intros a b Hab. now apply compareDouble_not_GT.
    + intros x y Hxy Hyx. unfold Haskell.comparing in *.
      apply (proj2 (compareDouble_not_GT (health y) (health x))); [|exact Hyx].
      destruct (Rle_dec (health x) (health y)) as [Hle|Hgt]; [|lra].
      exfalso. apply (proj2 (compareDouble_not_GT (health x) (health y)) Hle).
      exact Hxy.
  - reflexivity.
  - unfold Haskell.prioritySensors. now rewrite length_firstn, length_app.
  - intros crews. unfold Haskell.generateMaintenanceSchedule.
    rewrite map_taskSensorId, map_taskPriority. unfold Haskell.prioritySensors.
    split; [reflexivity|].
    rewrite <- firstn_map, map_app. f_equal.
    f_equal; apply map_constant; intros s Hs.
    + apply Hfailed in Hs. destruct Hs as [_ Hlt]. cbn [dltb of_int Exact].
      now rewrite Rltb_true.
    + apply Hwarning in Hs. destruct Hs as [_ Hgt]. cbn [dltb of_int Exact].
      rewrite Rltb_false by lra. reflexivity.
Qed.

Section ScheduleTasks.
Context {D : Type} {num : Double D}.

Lemma zipWith_enumFrom_length {A B : Type} (f : Z -> A -> B) (xs : list A) :
  forall i, List.length (Haskell.zipWith_enumFrom f i xs) = List.length xs.
Proof.
  induction xs as [|x xs IH]; intros i; cbn [Haskell.zipWith_enumFrom List.length];
    [reflexivity | now rewrite IH].
Qed.

Lemma zipWith_enumFrom_nth {A B : Type} (f : Z -> A -> B) (xs : list A) :
  forall (i : Z) (j : nat),
    nth_error (Haskell.zipWith_enumFrom f i xs) j
    = option_map (f (i + Z.of_nat j)%Z) (nth_error xs j).
Proof.
  induction xs as [|x xs IH]; intros i j; cbn [Haskell.zipWith_enumFrom].
  - destruct j; reflexivity.
  - destruct j as [|j]; cbn [nth_error option_map].
    + now rewrite Z.add_0_r.
    + rewrite IH. do 2 f_equal. lia.
Qed.

(** X23: the tasks of [generateMaintenanceSchedule].  There are as many as
    sensors taken, at most twenty, and task [j] (from 0) carries the
    identifier of sensor [j].  With [n > 0] crews, looking up the crew never
    fails: task [j] gets crew [j mod n] of the list and the arrival
    [15 + 45 * (j / n)], so the crews are assigned in turn.  With no crew both
    fields are a division by zero. *)
Theorem schedule_assigns_the_crews_in_turn
    (sensors : list (Sensor D)) (crews : list string) :
  let tasks := Haskell.generateMaintenanceSchedule sensors crews in
  let n := List.length crews in
  List.length tasks = List.length (Haskell.prioritySensors sensors)
  /\ (List.length tasks <= 20)%nat
  /\ forall (j : nat) (task : Haskell.MaintenanceTask),
       nth_error tasks j = Some task ->
       (exists s, nth_error (Haskell.prioritySensors sensors) j = Some s
                  /\ Haskell.taskSensorId task = sensorId s)
       /\ match crews with
          | [] => Haskell.assignedCrew task = None
                  /\ Haskell.estimatedArrival task = None
          | _ :: _ =>
              (exists crew, Haskell.assignedCrew task = Some crew
                            /\ nth_error crews (j mod n) = Some crew)
              /\ Haskell.estimatedArrival task
                 = Some (15 + 45 * Z.of_nat (j / n))%Z
          end.
Proof.
  intros tasks n. subst tasks.
  unfold Haskell.generateMaintenanceSchedule.
  rewrite zipWith_enumFrom_length.
  repeat apply conj; [reflexivity | |].
  - unfold Haskell.prioritySensors. rewrite length_firstn. lia.
  - intros j task Hj. rewrite zipWith_enumFrom_nth in Hj.
    destruct (nth_error (Haskell.prioritySensors sensors) j) as [s|] eqn:Hs;
      [|discriminate].
    cbn [option_map] in Hj. rewrite Z.add_0_l in Hj. injection Hj as <-.
    split; [exists s; split; reflexivity|].
    unfold Haskell.makeTask.
    cbn [Haskell.assignedCrew Haskell.estimatedArrival].
    destruct crews as [|c crews]; [split; reflexivity|].
    set (cs := c :: crews) in *.
    assert (Hn : (0 < n)%nat) by (subst n cs; cbn; lia).
    unfold Haskell.length. fold n.
    replace (Z.of_nat n =? 0)%Z with false by (symmetry; apply Z.eqb_neq; lia).
    split.
    + unfold Haskell.index.
      assert (Hmod : (0 <= Z.of_nat j mod Z.of_nat n < Z.of_nat n)%Z)
        by (apply Z.mod_pos_bound; lia).
      replace (Z.of_nat j mod Z.of_nat n <? 0)%Z with false
        by (symmetry; apply Z.ltb_ge; lia).
      rewrite <- Nat2Z.inj_mod, Nat2Z.id.
      destruct (nth_error cs (j mod n)) as [crew|] eqn:Hcrew.
      * exists crew. split; reflexivity.
      * apply nth_error_None in Hcrew.
        pose proof (Nat.mod_upper_bound j n ltac:(lia)). subst n. lia.
    + f_equal. rewrite <- Nat2Z.inj_div. lia.
Qed.
End ScheduleTasks.

(** *** The dashboard *)

(** X24: in exact arithmetic the colours of the dashboard match its
    counters: as many sensors are drawn green as are counted active, as many
    orange as warning, as many red as failed, and the three counters add up
    to the total. *)
Theorem dashboard_colours_match_the_counters (healths : list R) :
  let stats := Dashboard.computeStats healths in
  let drawn colour :=
    Z.of_nat (List.length
                (filter (fun h => String.eqb (Dashboard.getHealthColor h) colour)
                        healths)) in
  Dashboard.active stats = drawn "#00ff00"%string
  /\ Dashboard.warning stats = drawn "#ffaa00"%string
  /\ Dashboard.failed stats = drawn "#ff0000"%string
  /\ (Dashboard.active stats + Dashboard.warning stats + Dashboard.failed stats
      = Dashboard.total stats)%Z.
Proof.
  intros stats drawn. subst stats drawn.
  cbn [Dashboard.active Dashboard.warning Dashboard.failed Dashboard.total
       Dashboard.computeStats dltb dleb of_int Exact].
  assert (Hgreen : forall h, String.eqb (Dashboard.getHealthColor h) "#00ff00"
                             = Rltb 70 h).
  { intros h. unfold Dashboard.getHealthColor. cbn [dltb of_int Exact].
    destruct (Rltb 70 h), (Rltb 30 h); reflexivity. }
  assert (Horange : forall h, String.eqb (Dashboard.getHealthColor h) "#ffaa00"
                              = (Rltb 30 h && Rleb h 70)%bool).
  { intros h. rewrite <- Exact_warning_test.
    unfold Dashboard.getHealthColor. cbn [dltb of_int Exact].
    destruct (Rltb 70 h), (Rltb 30 h); reflexivity. }
  assert (Hred : forall h, String.eqb (Dashboard.getHealthColor h) "#ff0000"
                           = Rleb h 30).
  { intros h. rewrite <- Exact_failed_test.
    unfold Dashboard.getHealthColor. cbn [dltb of_int Exact].
    destruct (Rltb 70 h), (Rltb 30 h); reflexivity. }
  rewrite (filter_ext _ _ Hgreen), (filter_ext _ _ Horange), (filter_ext _ _ Hred).
  repeat apply conj; try reflexivity.
  assert (Hsplit : (List.length (filter (fun h => Rltb 70 h) healths)
                    + List.length (filter (fun h => (Rltb 30 h && Rleb h 70)%bool) healths)
                    + List.length (filter (fun h => Rleb h 30) healths)
                    = List.length healths)%nat).
  { induction healths as [|h l IH]; [reflexivity|]. cbn [filter].
    rewrite <- Exact_warning_test, <- Exact_failed_test.
    destruct (Rltb 70 h), (Rltb 30 h); cbn [negb andb List.length]; lia. }
  lia.
Qed.

(** *** The Fortran arrays *)

Section FortranMeanTimes.
Context {D : Type} {num : Double D}.

Lemma iterate_from_collect {A B : Type} (g : A -> B) (body : Z -> list B -> list B)
    (l : list A) :
  forall (i0 : Z) (acc : list B),
    (forall (j : nat) (x : A) (acc' : list B),
        nth_error l j = Some x -> body (i0 + Z.of_nat j)%Z acc' = acc' ++ [g x]) ->
    iterate_from (List.length l) i0 body acc = acc ++ map g l.
Proof.
  intros i0 acc Hbody.
  rewrite (iterate_from_indexed (fun x acc' => acc' ++ [g x]) body l i0 acc Hbody).
  clear Hbody. revert acc.
  induction l as [|x l IH]; intros acc; cbn [fold_left map].
  - now rewrite app_nil_r.
  - rewrite IH, <- app_assoc. reflexivity.
Qed.

(** X25: called with the number of sensors, [calculate_mtbf_array] and
    [calculate_mttf_array] return one entry per sensor, in order: the MTBF
    [1 / rate] and the MTTF [k / rate] of that sensor, which are the values
    the C++ models of the sensor return. *)
Theorem Fortran_mean_time_arrays (fleet : list (Sensor D)) :
  let n := Z.of_nat (List.length fleet) in
  let rates := map (@failureRate D) fleet in
  let k_vals := map (@kStages D) fleet in
  Fortran.calculate_mtbf_array n rates
  = map (fun s => Cpp.ExponentialModel.mtbf (Cpp.ExponentialModel.make (failureRate s)))
        fleet
  /\ Fortran.calculate_mttf_array n k_vals rates
     = map (fun s => Cpp.ErlangModel.mttf
                       (Cpp.ErlangModel.make (kStages s) (failureRate s)))
           fleet
  /\ List.length (Fortran.calculate_mtbf_array n rates) = List.length fleet
  /\ List.length (Fortran.calculate_mttf_array n k_vals rates) = List.length fleet.
Proof.
  intros n rates k_vals.
  assert (Hmtbf : Fortran.calculate_mtbf_array n rates
                  = map (fun s => Cpp.ExponentialModel.mtbf
                                    (Cpp.ExponentialModel.make (failureRate s))) fleet).
  { unfold Fortran.calculate_mtbf_array, do_range, for_range. subst n.
    replace (Z.to_nat (Z.of_nat (List.length fleet) + 1 - 1))
      with (List.length fleet) by lia.
    rewrite (iterate_from_collect
               (fun s => Cpp.ExponentialModel.mtbf
                           (Cpp.ExponentialModel.make (failureRate s)))); [reflexivity|].
    intros j x acc' Hj. unfold Fortran.element. subst rates.
    replace (Z.to_nat (1 + Z.of_nat j - 1)) with j by lia.
    rewrite (nth_error_nth _ _ _ (map_nth_error (@failureRate D) _ _ Hj)).
    reflexivity. }
  assert (Hmttf : Fortran.calculate_mttf_array n k_vals rates
                  = map (fun s => Cpp.ErlangModel.mttf
                                    (Cpp.ErlangModel.make (kStages s) (failureRate s)))
                        fleet).
  { unfold Fortran.calculate_mttf_array, do_range, for_range. subst n.
    replace (Z.to_nat (Z.of_nat (List.length fleet) + 1 - 1))
      with (List.length fleet) by lia.
    rewrite (iterate_from_collect
               (fun s => Cpp.ErlangModel.mttf
                           (Cpp.ErlangModel.make (kStages s) (failureRate s))));
      [reflexivity|].
    intros j x acc' Hj. unfold Fortran.element, Fortran.element_int.
    subst rates k_vals.
    replace (Z.to_nat (1 + Z.of_nat j - 1)) with j by lia.
    rewrite (nth_error_nth _ _ _ (map_nth_error (@failureRate D) _ _ Hj)).
    rewrite (nth_error_nth _ _ _ (map_nth_error (@kStages D) _ _ Hj)).
    reflexivity. }
  rewrite Hmtbf, Hmttf, !length_map. repeat apply conj; reflexivity.
Qed.
End FortranMeanTimes.

(** *** The exponential model *)

(** X26: the exponential model is memoryless: the reliability over
    [t1 + t2] is the product of the reliabilities over [t1] and over [t2], in
    the three implementations, which return the same number.  The density is
    the hazard rate times the reliability, and for a rate and times that are
    not negative the reliability lies in (0, 1] and does not increase with
    time. *)
Theorem exponential_model_is_memoryless (lambda t1 t2 : R) :
  0 <= lambda -> 0 <= t1 -> 0 <= t2 ->
  let m := Cpp.ExponentialModel.make lambda in
  Cpp.ExponentialModel.reliability m (t1 + t2)
  = Cpp.ExponentialModel.reliability m t1 * Cpp.ExponentialModel.reliability m t2
  /\ Haskell.exponentialReliability lambda t1 = Cpp.ExponentialModel.reliability m t1
  /\ Fortran.exponential_reliability lambda t1 = Cpp.ExponentialModel.reliability m t1
  /\ Cpp.ExponentialModel.pdf m t1
     = Cpp.ExponentialModel.hazardRate m * Cpp.ExponentialModel.reliability m t1
  /\ 0 < Cpp.ExponentialModel.reliability m t1 <= 1
  /\ Cpp.ExponentialModel.reliability m (t1 + t2) <= Cpp.ExponentialModel.reliability m t1.
Proof.
  intros Hl Ht1 Ht2 m. subst m.
  unfold Cpp.ExponentialModel.reliability, Cpp.ExponentialModel.pdf,
    Cpp.ExponentialModel.hazardRate, Haskell.exponentialReliability,
    Fortran.exponential_reliability.
  cbn [Cpp.ExponentialModel.lambda dmul dneg dexp Exact ExactLibm].
  assert (Hle : forall t, 0 <= t -> exp (- lambda * t) <= 1).
  { intros t Ht. destruct (Req_dec (lambda * t) 0) as [Hz|Hnz].
    - replace (- lambda * t) with 0 by lra. rewrite exp_0. lra.
    - rewrite <- exp_0. left. apply exp_increasing. nra. }
  assert (Hsplit : exp (- lambda * (t1 + t2))
                   = exp (- lambda * t1) * exp (- lambda * t2)).
  { rewrite <- exp_plus. f_equal. ring. }
  pose proof (exp_pos (- lambda * t1)) as Hpos1.
  pose proof (exp_pos (- lambda * t2)) as Hpos2.
  pose proof (Hle t1 Ht1) as Hle1. pose proof (Hle t2 Ht2) as Hle2.
  repeat apply conj.
  - exact Hsplit.
  - f_equal. ring.
  - f_equal. ring.
  - reflexivity.
  - exact Hpos1.
  - exact Hle1.
  - rewrite Hsplit. nra.
Qed.

(** X26 at the rate 0.0005 and the times 500 and 500. *)
Lemma exponential_model_is_memoryless_witness :
  0 <= 0.0005 /\ 0 <= 500 /\ 0 <= 500
  /\ Cpp.ExponentialModel.reliability (Cpp.ExponentialModel.make 0.0005) (500 + 500)
     = Cpp.ExponentialModel.reliability (Cpp.ExponentialModel.make 0.0005) 500
       * Cpp.ExponentialModel.reliability (Cpp.ExponentialModel.make 0.0005) 500.
Proof.
  assert (Hl : 0 <= 0.0005) by lra.
  assert (Ht : 0 <= 500) by lra.
  destruct (exponential_model_is_memoryless 0.0005 500 500 Hl Ht Ht) as [Hprod _].
  repeat apply conj; assumption.
Defined.
